(** * tweet-inspire-agent: heuristic scoring and thread parsing

    A shallow embedding of the scoring and parsing core of the repository:

    - [models/schemas.py]             ([Module Schemas])
    - [analysis/content_generator.py] ([Module ContentGenerator])
    - [utils/virality.py]             ([Module Virality])
    - [utils/analytics.py]            ([Module Analytics])
    - [analysis/profile_health.py]    ([Module ProfileHealth], and
                                       [Module ProfileHealth64] for two
                                       sub-scores in binary64)
    - [utils/health_impact.py]        ([Module HealthImpact])
    - [analysis/voice_analyzer.py]    ([Module VoiceAnalyzer])

    The definitions come first; the facts proved about them follow, by
    component.

    Modelling conventions.

    - A Python [str] is a [string]: a sequence of 8-bit characters.  The
      character classes used by the code ([str.strip], [str.isdigit],
      [str.isupper], [str.lower], the regex classes [\w], [\d], [\s]) are
      the ASCII ones; a character above 127 belongs to none of them.  On
      ASCII text this is what Python does.
    - A Python [float] is an exact rational ([Q]); [round(x, n)] rounds half
      to even at the n-th decimal.  Results are compared with [==] on [Q].
      This is the arithmetic of the bounds, the shapes and the orders proved
      below.  It is not the arithmetic of the machine: where a computed
      number is compared with a threshold, a rounding error of the code can
      put it on the other side.  For the engagement sub-score and the
      conversation sub-score, which are decided that way, [Module Float64]
      gives the binary64 numbers with the rounding of every operation, and
      [Module ProfileHealth64] the code over them.
    - A division whose divisor is not a literal goes through [py_div], which
      fails on a zero divisor like Python's [ZeroDivisionError]; functions
      that divide return [option].
    - A [dict] with string keys is a [gmap string _]; [d.get(k, v)] is
      [default v (d !! k)]. *)

From Stdlib Require Import QArith Qminmax Qround Qabs Qpower Lqa.
From stdpp Require Import gmap strings list fin_maps option.
From Stdlib Require Import Ascii String DecimalString.

Open Scope string_scope.

(** ** Python string primitives *)

Module PyStr.

Definition code (c : ascii) : nat := nat_of_ascii c.

Definition between (lo hi : nat) (c : ascii) : bool :=
  (lo <=? code c)%nat && (code c <=? hi)%nat.

(** [c.isspace()]: tab, LF, VT, FF, CR, the separators 0x1c-0x1f, space. *)
Definition is_space (c : ascii) : bool :=
  between 9 13 c || between 28 32 c.

(** [c.isdigit()] and the regex class [\d]. *)
Definition is_digit (c : ascii) : bool := between 48 57 c.

(** [c.isupper()]. *)
Definition is_upper (c : ascii) : bool := between 65 90 c.

Definition is_lower (c : ascii) : bool := between 97 122 c.

(** The regex class [[A-Za-z]]. *)
Definition is_letter (c : ascii) : bool := is_upper c || is_lower c.

(** The regex class [\w]. *)
Definition is_word (c : ascii) : bool :=
  is_letter c || is_digit c || (code c =? 95)%nat.

Definition lower_char (c : ascii) : ascii :=
  if is_upper c then ascii_of_nat (code c + 32) else c.

(** [s.lower()] *)
Fixpoint lower (s : string) : string :=
  match s with
  | EmptyString => EmptyString
  | String c s' => String (lower_char c) (lower s')
  end.

Definition is_empty (s : string) : bool :=
  match s with EmptyString => true | String _ _ => false end.

(** Truthiness of a string: [if s]. *)
Definition truthy (s : string) : bool := negb (is_empty s).

Fixpoint all_chars (p : ascii -> bool) (s : string) : bool :=
  match s with
  | EmptyString => true
  | String c s' => p c && all_chars p s'
  end.

Fixpoint lstrip (s : string) : string :=
  match s with
  | EmptyString => EmptyString
  | String c s' => if is_space c then lstrip s' else s
  end.

Fixpoint rstrip (s : string) : string :=
  match s with
  | EmptyString => EmptyString
  | String c s' =>
      let r := rstrip s' in
      if is_empty r && is_space c then EmptyString else String c r
  end.

(** [s.strip()] *)
Definition strip (s : string) : string := rstrip (lstrip s).

(** [s[n:]] *)
Fixpoint drop (n : nat) (s : string) : string :=
  match n, s with
  | O, _ => s
  | S _, EmptyString => EmptyString
  | S n', String _ s' => drop n' s'
  end.

(** [s[:n]] *)
Fixpoint take (n : nat) (s : string) : string :=
  match n, s with
  | O, _ => EmptyString
  | S _, EmptyString => EmptyString
  | S n', String c s' => String c (take n' s')
  end.

(** [s.startswith(p)] *)
Definition startswith (p s : string) : bool := String.prefix p s.

Arguments startswith : simpl never.

(** [sub in s] *)
Fixpoint contains (sub s : string) : bool :=
  match s with
  | EmptyString => is_empty sub
  | String _ s' => startswith sub s || contains sub s'
  end.

(** [s.count(c)] for a one-character [c]. *)
Fixpoint count_char (c : ascii) (s : string) : nat :=
  match s with
  | EmptyString => 0
  | String d s' => (if Ascii.eqb c d then 1 else 0) + count_char c s'
  end.

Fixpoint count_if (p : ascii -> bool) (s : string) : nat :=
  match s with
  | EmptyString => 0
  | String d s' => (if p d then 1 else 0) + count_if p s'
  end.

(** Put a character in front of the first piece of a list of pieces. *)
Definition cons_head (c : ascii) (l : list string) : list string :=
  match l with
  | [] => [String c EmptyString]
  | h :: t => String c h :: t
  end.

(** [s.split(sep)] for a non-empty [sep]: left to right, occurrences do
    not overlap.  [skip] counts the characters of a separator that was
    recognised and is still being consumed. *)
Fixpoint split_aux (sep : string) (skip : nat) (s : string) : list string :=
  match s with
  | EmptyString => [EmptyString]
  | String c s' =>
      match skip with
      | S k => split_aux sep k s'
      | O =>
          if startswith sep s
          then EmptyString :: split_aux sep (String.length sep - 1) s'
          else cons_head c (split_aux sep 0 s')
      end
  end.

Definition split (sep s : string) : list string := split_aux sep 0 s.

(** [s.replace(old, new)] for a non-empty [old]. *)
Fixpoint replace_aux (old new : string) (skip : nat) (s : string) : string :=
  match s with
  | EmptyString => EmptyString
  | String c s' =>
      match skip with
      | S k => replace_aux old new k s'
      | O =>
          if startswith old s
          then new ++ replace_aux old new (String.length old - 1) s'
          else String c (replace_aux old new 0 s')
      end
  end.

Definition replace (old new s : string) : string := replace_aux old new 0 s.

(** [sep.join(l)] *)
Definition join (sep : string) (l : list string) : string :=
  String.concat sep l.

(** [re.split(p+, s)] for a character class [p]: the pieces between the
    maximal runs of characters of the class. *)
Fixpoint re_split_runs (p : ascii -> bool) (in_run : bool) (s : string)
  : list string :=
  match s with
  | EmptyString => [EmptyString]
  | String c s' =>
      if p c
      then (if in_run then re_split_runs p true s'
            else EmptyString :: re_split_runs p true s')
      else cons_head c (re_split_runs p false s')
  end.

(** The maximal runs of characters of a class, with the empty pieces
    between neighbouring characters outside it. *)
Fixpoint runs (p : ascii -> bool) (s : string) : list string :=
  match s with
  | EmptyString => [EmptyString]
  | String c s' =>
      if p c then cons_head c (runs p s') else EmptyString :: runs p s'
  end.

(** [re.findall(r"\b\w+\b", s)]: the maximal runs of word characters. *)
Definition words (s : string) : list string :=
  List.filter truthy (runs is_word s).

(** [len(re.findall(c + r"\w+", s))] for a character [c] outside [\w]:
    the occurrences of [c] that a word character follows. *)
Fixpoint count_tagged (c : ascii) (s : string) : nat :=
  match s with
  | EmptyString => 0
  | String d s' =>
      (match s' with
       | String e _ => if Ascii.eqb c d && is_word e then 1 else 0
       | EmptyString => 0
       end) + count_tagged c s'
  end.

(** [re.search(r"\b" + pat + r"\b", s)] for a literal [pat] that starts and
    ends with a word character: an occurrence with no word character right
    before it and none right after it.  [prev_word] tells whether the
    character before [s] is a word character. *)
Fixpoint search_bounded_aux (pat : string) (prev_word : bool) (s : string)
  : bool :=
  match s with
  | EmptyString => false
  | String c s' =>
      (negb prev_word && startswith pat s &&
         match drop (String.length pat) s with
         | EmptyString => true
         | String d _ => negb (is_word d)
         end)
      || search_bounded_aux pat (is_word c) s'
  end.

Definition search_bounded (pat s : string) : bool :=
  search_bounded_aux pat false s.

(** Line boundaries of [str.splitlines] below code 128. *)
Definition is_linebreak (c : ascii) : bool :=
  between 10 13 c || between 28 30 c.

(** [s.splitlines()]; [after_cr] is set right after a carriage return, so
    that CR LF ends one line. *)
Fixpoint splitlines_aux (after_cr : bool) (s : string) : list string :=
  match s with
  | EmptyString => []
  | String c s' =>
      if after_cr && (code c =? 10)%nat then splitlines_aux false s'
      else if is_linebreak c
           then EmptyString :: splitlines_aux (code c =? 13)%nat s'
           else cons_head c (splitlines_aux false s')
  end.

Definition splitlines (s : string) : list string := splitlines_aux false s.

(** [re.sub(r"https?://\S+", "", s)]: a scheme followed by at least one
    non-space character is removed up to the next space character. *)
Fixpoint strip_urls_aux (in_url : bool) (s : string) : string :=
  match s with
  | EmptyString => EmptyString
  | String c s' =>
      if in_url then
        if is_space c then String c (strip_urls_aux false s')
        else strip_urls_aux true s'
      else
        let starts (scheme : string) :=
          startswith scheme s &&
            match drop (String.length scheme) s with
            | EmptyString => false
            | String d _ => negb (is_space d)
            end in
        if starts "http://" || starts "https://"
        then strip_urls_aux true s'
        else String c (strip_urls_aux false s')
  end.

Definition strip_urls (s : string) : string := strip_urls_aux false s.

Definition head_is (p : ascii -> bool) (s : string) : bool :=
  match s with
  | EmptyString => false
  | String c _ => p c
  end.

Definition LF : string := String (ascii_of_nat 10) EmptyString.

End PyStr.

(** [l.append(x)] *)
Definition append {A : Type} (l : list A) (x : A) : list A := (l ++ [x])%list.

(** ** models/schemas.py *)

Module Schemas.

Inductive ContentType := TWEET | THREAD | REPLY | QUOTE.

Definition ContentType_eqb (a b : ContentType) : bool :=
  match a, b with
  | TWEET, TWEET | THREAD, THREAD | REPLY, REPLY | QUOTE, QUOTE => true
  | _, _ => false
  end.

(** [str | list[str]]: the content of a proposal and the argument of the
    virality scorer. *)
Inductive Content :=
| Str (s : string)
| Lst (l : list string).

(** A naive [datetime], in microseconds since the epoch of the calendar. *)
Definition datetime := Z.

Definition MICROS_PER_HOUR : Z := 3600000000.
Definition MICROS_PER_DAY : Z := 86400000000.

(** [(a - b).days] *)
Definition days_between (a b : datetime) : Z := ((a - b) / MICROS_PER_DAY)%Z.

(** [t.hour] *)
Definition hour (t : datetime) : Z := ((t / MICROS_PER_HOUR) mod 24)%Z.

Record UserInfo := {
  ui_username : string;
  ui_user_id : option string;
  ui_display_name : option string;
  bio : option string;
  followers_count : option Z;
  following_count : option Z;
  tweet_count : option Z;
}.

Record Tweet := {
  tweet_id : string;
  text : string;
  created_at : option datetime;
  author_username : string;
  like_count : option Z;
  retweet_count : option Z;
  reply_count : option Z;
  quote_count : option Z;
  is_reply : bool;
  is_quote : bool;
  referenced_tweet_id : option string;
}.

(** The fields of [VoiceProfile] that the scorers read, and its identity;
    [engagement_patterns] and [analyzed_at] are carried opaquely by the
    code and read nowhere in the modules embedded here. *)
Record VoiceProfile := {
  vp_username : string;
  writing_style : string;
  tone : string;
  common_topics : list string;
  hashtag_usage : gmap string Z;
  average_tweet_length : option Z;
}.

End Schemas.

(** ** analysis/content_generator.py *)

Module ContentGenerator.
Import PyStr Schemas.

(** [any(pattern in line[:6] for pattern in ["/", ")", "."])] *)
Definition has_marker (line : string) : bool :=
  existsb (fun pattern => contains pattern (take 6 line)) ["/"; ")"; "."].

Definition is_marker_sep (c : ascii) : bool :=
  Ascii.eqb c " " || Ascii.eqb c ":" || Ascii.eqb c "-".

(** The scan [for i, char in enumerate(line)] from index [i] on: the first
    [i + 1] with [i > 0] and [line[i]] a space, colon or hyphen. *)
Fixpoint scan_marker_end (i : nat) (s : string) : option nat :=
  match s with
  | EmptyString => None
  | String c s' =>
      if (0 <? i)%nat && is_marker_sep c then Some (i + 1)%nat
      else scan_marker_end (S i) s'
  end.

Definition marker_end (line : string) : nat :=
  default (String.length line) (scan_marker_end 0 line).

(** State of the line loop: the finished tweets and the lines of the
    current one. *)
Definition parse_state : Type := list string * list string.

Definition flush (st : parse_state) : list string :=
  match st.2 with
  | [] => st.1
  | _ => append st.1 (strip (join " " st.2))
  end.

(** One iteration of [for line in lines]. *)
Definition thread_step (st : parse_state) (raw_line : string) : parse_state :=
  let line := strip raw_line in
  if is_empty line then (flush st, [])
  else if truthy line && head_is is_digit line then
    if has_marker line then
      let tweet_text := strip (drop (marker_end line) line) in
      (flush st, if truthy tweet_text then [tweet_text] else [])
    else (st.1, append st.2 line)
  else (st.1, append st.2 line).

Definition parse_markers (generated_text : string) : list string :=
  let lines := split LF generated_text in
  let st := fold_left thread_step lines ([], []) in
  List.filter truthy (flush st).

(** State of the sentence loop: the chunks, the sentences of the current
    one, and its length. *)
Definition chunk_state : Type := list string * list string * nat.

Definition chunk_step (st : chunk_state) (raw_sentence : string)
  : chunk_state :=
  let '(chunks, current_chunk, current_length) := st in
  let sentence := strip raw_sentence in
  if is_empty sentence then st
  else
    let sentence_length := (String.length sentence + 1)%nat in
    if (260 <? current_length + sentence_length)%nat
       && negb (bool_decide (current_chunk = []))
    then (append chunks (join " " current_chunk), [sentence],
          String.length sentence)
    else (chunks, append current_chunk sentence,
          (current_length + sentence_length)%nat).

Definition split_sentences (text : string) : list string :=
  let sentences := split LF (replace ". " ("." ++ LF) text) in
  let '(chunks, current_chunk, _) :=
    fold_left chunk_step sentences ([], [], 0%nat) in
  match current_chunk with
  | [] => chunks
  | _ => append chunks (join " " current_chunk)
  end.

(** The fallback chain taken when fewer than two tweets were parsed. *)
Definition smarter_split (generated_text : string) (tweets : list string)
  : list string :=
  let paragraphs :=
    List.map strip
      (List.filter (fun p => truthy (strip p))
         (split (LF ++ LF) generated_text)) in
  if (1 <? List.length paragraphs)%nat then paragraphs
  else
    let text := strip generated_text in
    if (400 <? String.length text)%nat then
      match split_sentences text with
      | [] => tweets
      | chunks => firstn 10 chunks
      end
    else tweets.

Definition parse_thread (generated_text : string) : list string :=
  let tweets := parse_markers generated_text in
  let tweets :=
    if (List.length tweets <? 2)%nat then smarter_split generated_text tweets
    else tweets in
  match tweets with
  | [] => [strip generated_text]
  | _ => tweets
  end.

(** The loop [for line in lines] of the single-tweet branch: the first
    stripped line that is non-empty and does not start with a digit. *)
Fixpoint first_substantial_line (lines : list string) : option string :=
  match lines with
  | [] => None
  | raw_line :: rest =>
      let line := strip raw_line in
      if truthy line && negb (head_is is_digit line) then Some line
      else first_substantial_line rest
  end.

Definition parse_single (generated_text : string) : string :=
  let text := strip generated_text in
  let lines := split LF text in
  if (1 <? List.length lines)%nat then
    default text (first_substantial_line lines)
  else text.

Definition _parse_generated_content
    (generated_text : string) (content_type : ContentType) : Content :=
  if ContentType_eqb content_type THREAD
  then Lst (parse_thread generated_text)
  else Str (parse_single generated_text).

End ContentGenerator.

(** ** Python numbers *)

Module PyNum.

(** [float(n)] of a length or a count. *)
Definition of_nat (n : nat) : Q := inject_Z (Z.of_nat n).

Definition Qleb (a b : Q) : bool := Qle_bool a b.
Definition Qltb (a b : Q) : bool := negb (Qle_bool b a).

(** [a / b]: fails when [b] is zero. *)
Definition py_div (a b : Q) : option Q :=
  if Qeq_bool b 0 then None else Some (a / b)%Q.

(** Rounding to the nearest integer, a tie going to the even one. *)
Definition round_half_even (x : Q) : Z :=
  let f := Qfloor x in
  let r := (x - inject_Z f)%Q in
  if Qltb r 0.5 then f
  else if Qltb 0.5 r then (f + 1)%Z
  else if Z.even f then f else (f + 1)%Z.

(** [round(x, ndigits)] *)
Definition py_round (x : Q) (ndigits : nat) : Q :=
  let scale := inject_Z (10 ^ Z.of_nat ndigits) in
  (inject_Z (round_half_even (x * scale)) / scale)%Q.

(** [sum(l)] *)
Definition Qsum (l : list Q) : Q := fold_left Qplus l 0%Q.

(** [x or 0] for an optional integer. *)
Definition or0 (x : option Z) : Z := default 0%Z x.

End PyNum.

(** ** Binary64 arithmetic

    The numbers of Python's [float], each finite one given by the rational
    it stands for.  The sign of a zero is not kept: nothing here divides by
    a zero or prints one. *)

Module Float64.
Import PyNum.

(** The floor of the binary logarithm of a positive rational. *)
Definition ilog2 (q : Q) : Z :=
  let d := (Z.log2 (Qnum q) - Z.log2 (Zpos (Qden q)))%Z in
  if Qleb (2 ^ d) q then d else (d - 1)%Z.

(** The exponent of the last of the 53 bits of a rational that is not zero,
    and not below the least exponent -1074. *)
Definition exponent (q : Q) : Z := Z.max (ilog2 (Qabs q) - 52) (-1074).

(** The binary64 number nearest to a rational, a tie going to the even
    significand; no bound is put on the exponent above. *)
Definition nearest (q : Q) : Q :=
  if Qeq_bool q 0 then 0%Q
  else
    let e := exponent q in
    Qred (inject_Z (round_half_even (q / 2 ^ e)) * 2 ^ e).

(** Beyond the largest binary64 number. *)
Definition overflows (q : Q) : bool := Qleb (2 ^ 1024) (Qabs q).

Inductive float :=
| Finite (q : Q)
| Infinity (negative : bool)
| NaN.

(** The result of an operation whose exact value is [q]: the nearest
    number, an infinity beyond the largest one. *)
Definition rounded (q : Q) : float :=
  let r := nearest q in
  if overflows r then Infinity (Qltb r 0) else Finite r.

(** The same where Python raises [OverflowError] instead. *)
Definition checked (q : Q) : option Q :=
  let r := nearest q in
  if overflows r then None else Some r.

(** A decimal literal. *)
Definition literal (q : Q) : Q := nearest q.

(** [float(z)] for an integer. *)
Definition of_int (z : Z) : option Q := checked (inject_Z z).

(** [a / b] for two integers: the quotient rounded once; it fails on a
    zero divisor and on a quotient beyond the largest number. *)
Definition int_div (a b : Z) : option Q :=
  if (b =? 0)%Z then None else checked (inject_Z a / inject_Z b).

(** [round(x, ndigits)] for a finite [x]: the decimal nearest to the exact
    value of [x], a tie going to the even digit, and then the number
    nearest to that decimal. *)
Definition round (x : Q) (ndigits : nat) : option Q :=
  checked (py_round x ndigits).

Definition is_zero (x : float) : bool :=
  match x with Finite q => Qeq_bool q 0 | _ => false end.

Definition is_negative (x : float) : bool :=
  match x with
  | Finite q => Qltb q 0
  | Infinity negative => negative
  | NaN => false
  end.

(** [x + y] *)
Definition add (x y : float) : float :=
  match x, y with
  | NaN, _ | _, NaN => NaN
  | Infinity a, Infinity b => if Bool.eqb a b then Infinity a else NaN
  | Infinity a, Finite _ | Finite _, Infinity a => Infinity a
  | Finite a, Finite b => rounded (a + b)
  end.

(** [-x] *)
Definition neg (x : float) : float :=
  match x with
  | Finite q => Finite (- q)
  | Infinity negative => Infinity (negb negative)
  | NaN => NaN
  end.

(** [x - y] *)
Definition sub (x y : float) : float := add x (neg y).

(** [abs(x)] *)
Definition abs (x : float) : float :=
  match x with
  | Finite q => Finite (Qabs q)
  | Infinity _ => Infinity false
  | NaN => NaN
  end.

(** [x * y] *)
Definition mul (x y : float) : float :=
  match x, y with
  | NaN, _ | _, NaN => NaN
  | Finite a, Finite b => rounded (a * b)
  | _, _ =>
      if is_zero x || is_zero y then NaN
      else Infinity (xorb (is_negative x) (is_negative y))
  end.

(** [x / y]: it fails on a zero divisor. *)
Definition div (x y : float) : option float :=
  if is_zero y then None
  else
    Some
      match x, y with
      | NaN, _ | _, NaN => NaN
      | Infinity _, Infinity _ => NaN
      | Infinity a, Finite _ => Infinity (xorb a (is_negative y))
      | Finite _, Infinity _ => Finite 0
      | Finite a, Finite b => rounded (a / b)
      end.

(** [x >= y] *)
Definition ge (x y : float) : bool :=
  match x, y with
  | NaN, _ | _, NaN => false
  | Finite a, Finite b => Qleb b a
  | Infinity a, Infinity b => negb a || b
  | Infinity a, Finite _ => negb a
  | Finite _, Infinity b => b
  end.

(** [x > y] *)
Definition gt (x y : float) : bool :=
  match x, y with
  | NaN, _ | _, NaN => false
  | Finite a, Finite b => Qltb b a
  | Infinity a, Infinity b => negb a && b
  | Infinity a, Finite _ => negb a
  | Finite _, Infinity b => b
  end.

(** [max(x, y)]: the first argument unless the second is greater. *)
Definition max (x y : float) : float := if gt y x then y else x.

End Float64.

(** ** utils/virality.py *)

Module Virality.
Import PyStr PyNum Schemas.

Definition ENGAGEMENT_BAIT_PATTERNS : list string :=
  [ "rt if"; "like if"; "retweet if"; "share if"; "follow me";
    "free giveaway"; "airdrop"; "dm me"; "subscribe" ].

Definition SHARE_KEYWORDS : list string :=
  [ "framework"; "checklist"; "playbook"; "lessons"; "mistake"; "mistakes";
    "rules"; "steps"; "ways"; "principles"; "guide"; "template"; "how to";
    "counterintuitive"; "unpopular"; "truth" ].

Definition REPLY_KEYWORDS : list string :=
  [ "thoughts"; "agree"; "disagree"; "anyone else"; "curious"; "hot take";
    "what do you think" ].

Definition CLICK_KEYWORDS : list string :=
  [ "link"; "full"; "read"; "guide"; "template"; "resource"; "download";
    "demo" ].

Definition HOOK_KEYWORDS : list string :=
  [ "here's"; "nobody"; "stop"; "hot take"; "wild"; "truth"; "mistake";
    "counterintuitive"; "unpopular"; "the real"; "what nobody";
    "this is why"; "changed how i" ].

(** The alternatives of the second risk pattern. *)
Definition SPAM_WORDS : list string :=
  [ "spam"; "giveaway"; "free money"; "pump" ].

Record ViralityResult := {
  score : Q;
  components : gmap string Q;
  notes : list string;
}.

Module ViralityScorer.

Definition weights : list (string * Q) :=
  [ ("reply_potential", 0.2); ("share_potential", 0.25);
    ("click_potential", 0.1); ("dwell_potential", 0.25);
    ("clarity", 0.2) ]%Q.

Definition _aggregate_score (components : gmap string Q) : Q :=
  let positive :=
    Qsum (List.map (fun kw => (kw.2 * default 0 (components !! kw.1))%Q)
            weights) in
  let penalty := (default 0 (components !! "negative_risk") * 20)%Q in
  Qmax 0 (Qmin 100 (positive * 100 - penalty)).

Definition ideal_band (content_type : ContentType) : Z * Z :=
  match content_type with
  | REPLY => (60, 200)
  | QUOTE => (80, 200)
  | THREAD => (120, 260)
  | TWEET => (100, 220)
  end%Z.

Definition _length_score (length : Z) (content_type : ContentType)
  : option Q :=
  let '(ideal_min, ideal_max) := ideal_band content_type in
  let min_value := 30%Z in
  let max_value := 280%Z in
  if (length <=? min_value)%Z || (max_value <=? length)%Z then Some 0%Q
  else if (length <? ideal_min)%Z then
    py_div (inject_Z (length - min_value))
           (inject_Z (Z.max (ideal_min - min_value) 1))
  else if (ideal_max <? length)%Z then
    q ← py_div (inject_Z (max_value - length))
               (inject_Z (Z.max (max_value - ideal_max) 1));
    Some (Qmax 0 q)
  else Some 1%Q.

Definition _clarity_score (avg_sentence_len : Q) (length : nat)
    (exclamations : nat) : Q :=
  if Qleb avg_sentence_len 0 then 0.5%Q
  else
    let base := (1 - Qmin 1 (Qabs (avg_sentence_len - 14) / 14))%Q in
    let base := if (250 <? length)%nat then (base * 0.8)%Q else base in
    let base := if (4 <=? exclamations)%nat then (base * 0.8)%Q else base in
    Qmax 0 (Qmin 1 base).

Definition _has_keywords (text : string) (keywords : list string) : bool :=
  let lowered := lower text in
  existsb (fun keyword => contains keyword lowered) keywords.

Definition _hook_score (text : string) : Q :=
  let words := words (lower text) in
  let first_words := join " " (firstn 12 words) in
  if is_empty first_words then 0%Q
  else if existsb (fun keyword => contains keyword first_words)
            HOOK_KEYWORDS
       then 1%Q else 0.3%Q.

Definition _negative_risk (text : string) (hashtags mentions
    exclamations : nat) (uppercase_ratio : Q) : Q :=
  let lowered := lower text in
  let risk := 0%Q in
  let risk :=
    if existsb (fun pattern => search_bounded pattern lowered)
         ENGAGEMENT_BAIT_PATTERNS
    then (risk + 0.5)%Q else risk in
  let risk := if (2 <? hashtags)%nat then (risk + 0.2)%Q else risk in
  let risk := if (2 <? mentions)%nat then (risk + 0.2)%Q else risk in
  let risk := if (3 <? exclamations)%nat then (risk + 0.1)%Q else risk in
  let risk := if Qltb 0.35 uppercase_ratio then (risk + 0.2)%Q else risk in
  let risk :=
    if existsb (fun word => search_bounded word lowered) SPAM_WORDS
    then (risk + 0.2)%Q else risk in
  Qmin 1 risk.

Definition note_if (b : bool) (note : string) : list string :=
  if b then [note] else [].

Definition _notes_from_components (reply_potential share_potential
    click_potential dwell_potential clarity negative_risk : Q)
    (length : nat) (content_type : ContentType) : list string :=
  (note_if (Qleb 0.7 share_potential) "Shareable insight"
   ++ note_if (Qleb 0.7 reply_potential) "Strong reply prompt"
   ++ note_if (Qleb 0.7 click_potential) "Clear click value"
   ++ note_if (Qleb 0.7 dwell_potential) "Good dwell potential"
   ++ note_if (Qltb clarity 0.5) "Clarity could be tighter"
   ++ note_if (Qleb 0.5 negative_risk) "Risk: looks like engagement bait"
   ++ (if ContentType_eqb content_type THREAD then []
       else if (length <? 70)%nat then ["May be too short"]
       else if (250 <? length)%nat then ["May be too long"]
       else []))%list.

(** The indicator [(w if b else 0.0)]. *)
Definition when (b : bool) (w : Q) : Q := if b then w else 0%Q.

Definition is_sentence_end (c : ascii) : bool :=
  Ascii.eqb c "." || Ascii.eqb c "!" || Ascii.eqb c "?".

Definition list_prefixes : list string := [ "-"; "*"; "1."; "1)"; "•" ].

Definition _score_text (text : string) (content_type : ContentType)
  : option ViralityResult :=
  let cleaned := strip text in
  if is_empty cleaned then
    Some {| score := 0; components := ∅; notes := ["Empty content"] |}
  else
    let length := String.length cleaned in
    let letters := count_if is_letter cleaned in
    let upper := count_if is_upper cleaned in
    uppercase_ratio ←
      (if (0 <? letters)%nat then py_div (of_nat upper) (of_nat letters)
       else Some 0%Q);
    let question_marks := count_char "?" cleaned in
    let exclamations := count_char "!" cleaned in
    let hashtags := count_tagged "#" cleaned in
    let mentions := count_tagged "@" cleaned in
    let has_link :=
      contains "http://" cleaned || contains "https://" cleaned
      || contains "www." cleaned in
    let sentences :=
      List.map strip
        (List.filter (fun s => truthy (strip s))
           (re_split_runs is_sentence_end false cleaned)) in
    let sentence_lengths :=
      List.map (fun s => List.length (words s)) sentences in
    avg_sentence_len ←
      (match sentence_lengths with
       | [] => Some 0%Q
       | _ => py_div (of_nat (list_sum sentence_lengths))
                     (of_nat (List.length sentence_lengths))
       end);
    let line_breaks := count_char (ascii_of_nat 10) cleaned in
    let has_list :=
      existsb
        (fun line =>
           existsb (fun p => startswith p (strip line)) list_prefixes)
        (splitlines cleaned) in
    let number_count :=
      List.length (List.filter (all_chars is_digit) (words cleaned)) in
    length_score ← _length_score (Z.of_nat length) content_type;
    let structure_score :=
      Qmin 1 (when (1 <=? line_breaks)%nat 0.4 + when has_list 0.4
              + when (1 <=? number_count)%nat 0.2) in
    let hook_score := _hook_score cleaned in
    let reply_potential :=
      Qmin 1 (when (0 <? question_marks)%nat 0.6
              + when (_has_keywords cleaned REPLY_KEYWORDS) 0.4) in
    let share_potential :=
      Qmin 1 (when (has_list || (1 <=? number_count)%nat) 0.3
              + when (_has_keywords cleaned SHARE_KEYWORDS) 0.4
              + when (Qltb 0.4 hook_score) 0.3) in
    let click_potential :=
      Qmin 1 (when (_has_keywords cleaned CLICK_KEYWORDS) 0.6
              + when has_link 0.4) in
    let dwell_potential :=
      Qmin 1 (0.5 * length_score + 0.3 * structure_score
              + 0.2 * hook_score) in
    let clarity := _clarity_score avg_sentence_len length exclamations in
    let negative_risk :=
      _negative_risk cleaned hashtags mentions exclamations
        uppercase_ratio in
    let components : gmap string Q :=
      <["reply_potential" := reply_potential]>
      (<["share_potential" := share_potential]>
      (<["click_potential" := click_potential]>
      (<["dwell_potential" := dwell_potential]>
      (<["clarity" := clarity]>
      (<["negative_risk" := negative_risk]> ∅))))) in
    let notes :=
      _notes_from_components reply_potential share_potential
        click_potential dwell_potential clarity negative_risk length
        content_type in
    Some {| score := _aggregate_score components;
            components := components; notes := notes |}.

(** [components[key] = components.get(key, 0.0) + value] for every item
    of one result. *)
Definition add_components (acc comps : gmap string Q) : gmap string Q :=
  merge (fun a v =>
           match v with
           | Some v => Some (default 0 a + v)%Q
           | None => a
           end) acc comps.

(** [for key in components: components[key] /= n] *)
Definition div_components (comps : gmap string Q) (n : Q)
  : option (gmap string Q) :=
  if (size comps =? 0)%nat then Some comps
  else if Qeq_bool n 0 then None
  else Some ((fun v => v / n)%Q <$> comps).

(** [list(dict.fromkeys(l))]: the first occurrence of each element. *)
Fixpoint dict_fromkeys (l : list string) : list string :=
  match l with
  | [] => []
  | x :: l' =>
      x :: List.filter (fun y => negb (String.eqb x y)) (dict_fromkeys l')
  end.

Definition mem (x : string) (l : list string) : bool :=
  existsb (String.eqb x) l.

Definition score (content : Content) (content_type : ContentType)
  : option ViralityResult :=
  let texts := match content with Lst l => l | Str s => [s] end in
  per_text_results ←
    mapM (fun text => _score_text text content_type) texts;
  match per_text_results with
  | [] => Some {| Virality.score := 0; components := ∅;
                  notes := ["No content to score"] |}
  | _ =>
      let summed :=
        fold_left (fun acc result => add_components acc (components result))
          per_text_results ∅ in
      components ←
        div_components summed (of_nat (List.length per_text_results));
      let notes := List.concat (List.map notes per_text_results) in
      let notes := firstn 6 (dict_fromkeys notes) in
      let score := _aggregate_score components in
      let '(score, notes) :=
        match content_type, texts with
        | THREAD, first :: _ =>
            let hook_score := _hook_score first in
            (Qmin 100 (score + hook_score * 6),
             if Qltb 0.6 hook_score && negb (mem "Strong hook" notes)
             then "Strong hook" :: notes else notes)
        | _, _ => (score, notes)
        end in
      Some {| Virality.score := py_round score 1;
              components := components; notes := notes |}
  end.

End ViralityScorer.

End Virality.

(** ** Python lists *)

Module PyList.
Import PyNum.

(** Insertion of [x] into a list sorted by falling key, before the first
    element whose key is not greater. *)
Fixpoint insert_desc {A : Type} (x : Q * A) (l : list (Q * A))
  : list (Q * A) :=
  match l with
  | [] => [x]
  | y :: l' => if Qltb x.1 y.1 then y :: insert_desc x l' else x :: y :: l'
  end.

(** [sorted(l, key=..., reverse=True)] on a list of keyed elements: falling
    keys, elements of equal key in their original order. *)
Definition sorted_desc {A : Type} (l : list (Q * A)) : list (Q * A) :=
  foldr insert_desc [] l.

Definition sumZ (l : list Z) : Z := fold_left Z.add l 0%Z.

Definition count_occ (x : string) (l : list string) : nat :=
  List.length (List.filter (String.eqb x) l).

End PyList.

(** ** utils/analytics.py *)

Module Analytics.
Import PyStr PyNum PyList Schemas.

(** The entries of the dictionary returned by [analyze_engagement_patterns]
    that the health scorer reads.  The entries built for display only
    ([top_performing_tweets], [top_hashtags], [engagement_by_type]) are left
    out; their divisions are guarded by the truth of the list divided by. *)
Record EngagementPatterns := {
  average_metrics : gmap string Q;
  best_posting_hours : list Z;
  average_tweet_length : Q;
  total_tweets_analyzed : nat;
}.

(** One bucket of [hourly_engagement]: likes, retweets, count. *)
Definition bucket : Type := Z * Z * Z.

(** [hourly_engagement[hour][...] += ...], the hours in insertion order. *)
Fixpoint bump (hour likes retweets : Z) (acc : list (Z * bucket))
  : list (Z * bucket) :=
  match acc with
  | [] => [(hour, (likes, retweets, 1%Z))]
  | (h, (l, r, c)) :: rest =>
      if (h =? hour)%Z
      then (h, ((l + likes)%Z, (r + retweets)%Z, (c + 1)%Z)) :: rest
      else (h, (l, r, c)) :: bump hour likes retweets rest
  end.

Definition hourly_engagement (tweets : list Tweet) : list (Z * bucket) :=
  fold_left
    (fun acc tweet =>
       match created_at tweet with
       | Some t =>
           bump (hour t) (or0 (like_count tweet)) (or0 (retweet_count tweet))
             acc
       | None => acc
       end)
    tweets [].

Definition hour_key (x : Z * bucket) : option (Q * Z) :=
  let '(h, (l, r, c)) := x in
  k ← py_div (inject_Z (l + r * 2)) (inject_Z (Z.max c 1));
  Some (k, h).

(** [None] stands for the empty dictionary returned for no tweets. *)
Definition analyze_engagement_patterns (tweets : list Tweet)
  : option (option EngagementPatterns) :=
  match tweets with
  | [] => Some None
  | _ =>
      let n := of_nat (List.length tweets) in
      let total f := inject_Z (sumZ (List.map (fun t => or0 (f t)) tweets)) in
      avg_likes ← py_div (total like_count) n;
      avg_retweets ← py_div (total retweet_count) n;
      avg_replies ← py_div (total reply_count) n;
      avg_quotes ← py_div (total quote_count) n;
      keyed ← mapM hour_key (hourly_engagement tweets);
      let best_hours := firstn 3 (sorted_desc keyed) in
      let tweet_lengths := List.map (fun t => String.length (text t)) tweets in
      avg_length ←
        (match tweet_lengths with
         | [] => Some 0%Q
         | _ => py_div (of_nat (list_sum tweet_lengths))
                       (of_nat (List.length tweet_lengths))
         end);
      Some (Some
        {| average_metrics :=
             <["likes" := py_round avg_likes 2]>
             (<["retweets" := py_round avg_retweets 2]>
             (<["replies" := py_round avg_replies 2]>
             (<["quotes" := py_round avg_quotes 2]> ∅)));
           best_posting_hours := List.map snd best_hours;
           average_tweet_length := py_round avg_length 0;
           total_tweets_analyzed := List.length tweets |})
  end.

End Analytics.

(** ** analysis/profile_health.py *)

Module ProfileHealth.
Import PyStr PyNum PyList Schemas Analytics.

Definition STOPWORDS : list string :=
  [ "the"; "and"; "for"; "that"; "with"; "this"; "you"; "your"; "are";
    "was"; "were"; "but"; "not"; "have"; "has"; "had"; "its"; "it's";
    "they"; "them"; "from"; "about"; "into"; "over"; "after"; "before";
    "just"; "than"; "then"; "what"; "when"; "where"; "which"; "who"; "why";
    "how"; "also"; "their"; "there"; "here"; "because"; "been"; "being";
    "i"; "im"; "i'm"; "we"; "our"; "us"; "my"; "me" ].

Record Metrics := {
  followers : Z;
  avg_engagement : Q;
  engagement_rate : Q;
  posts_per_week : Q;
  avg_length : Q;
  reply_ratio : Q;
  hashtag_rate : Q;
  link_rate : Q;
  topic_focus : Q;
  m_best_posting_hours : list Z;
}.

Record Recommendation := {
  title : string;
  priority : string;
  why : string;
  actions : list string;
}.

Record ProfileHealthResult := {
  username : string;
  overall_score : Q;
  scores : gmap string Q;
  metrics : Metrics;
  recommendations : list Recommendation;
  steps : list string;
}.

Definition _score_engagement_rate (rate : Q) : Q :=
  if Qleb 0.02 rate then 1.0
  else if Qleb 0.01 rate then 0.8
  else if Qleb 0.005 rate then 0.6
  else if Qleb 0.002 rate then 0.45
  else if Qleb 0.001 rate then 0.3
  else 0.2.

(** [[t.created_at for t in tweets if t.created_at]] *)
Definition dated_times (tweets : list Tweet) : list datetime :=
  omap created_at tweets.

Definition maximum (x : Z) (l : list Z) : Z := fold_left Z.max l x.
Definition minimum (x : Z) (l : list Z) : Z := fold_left Z.min l x.

Definition _score_cadence (tweets : list Tweet) : option (Q * Q) :=
  match dated_times tweets with
  | [] | [_] => Some (0.4, 0.0)%Q
  | t :: rest =>
      let latest := maximum t rest in
      let earliest := minimum t rest in
      let span_days := Z.max (days_between latest earliest) 1 in
      per_day ← py_div (of_nat (List.length (t :: rest))) (inject_Z span_days);
      let posts_per_week := (per_day * 7)%Q in
      let score :=
        if Qltb posts_per_week 1 then 0.2
        else if Qltb posts_per_week 3 then 0.2 + (posts_per_week - 1) * 0.2
        else if Qleb posts_per_week 10 then 0.9
        else if Qleb posts_per_week 20 then 0.7
        else 0.5 in
      Some (score, posts_per_week)
  end%Q.

(** A truthy optional integer: present and not zero. *)
Definition truthy_int (x : option Z) : option Z :=
  match x with
  | Some v => if (v =? 0)%Z then None else Some v
  | None => None
  end.

Definition _get_average_length (voice_profile : option VoiceProfile)
    (patterns : option EngagementPatterns) (tweets : list Tweet)
  : option Q :=
  match voice_profile ≫=
          (fun vp => truthy_int (Schemas.average_tweet_length vp)) with
  | Some len => Some (inject_Z len)
  | None =>
      match patterns ≫=
              (fun p =>
                 if Qeq_bool (Analytics.average_tweet_length p) 0 then None
                 else Some (Analytics.average_tweet_length p)) with
      | Some len => Some len
      | None =>
          match tweets with
          | [] => Some 0.0%Q
          | _ =>
              py_div
                (of_nat (list_sum (List.map (fun t => String.length (text t))
                                     tweets)))
                (of_nat (List.length tweets))
          end
      end
  end.

Definition _score_length (avg_length : Q) : Q :=
  if Qleb avg_length 0 then 0.4
  else if Qltb avg_length 60 then 0.4
  else if Qltb avg_length 90 then 0.6
  else if Qleb avg_length 200 then 0.95
  else if Qleb avg_length 240 then 0.7
  else 0.4.

Definition _reply_ratio (tweets : list Tweet) : option Q :=
  match tweets with
  | [] => Some 0.0%Q
  | _ =>
      let replies := List.length (List.filter is_reply tweets) in
      py_div (of_nat replies) (of_nat (List.length tweets))
  end.

Definition _score_reply_ratio (ratio : Q) : Q :=
  let target := 0.45%Q in
  let distance := Qabs (ratio - target) in
  Qmax 0.2 (1.0 - distance / target).

Definition _average_hashtags (tweets : list Tweet) : option Q :=
  match tweets with
  | [] => Some 0.0%Q
  | _ =>
      let counts := List.map (fun t => count_tagged "#" (text t)) tweets in
      py_div (of_nat (list_sum counts)) (of_nat (List.length counts))
  end.

Definition _score_hashtags (rate : Q) : Q :=
  if Qleb rate 0.3 then 1.0
  else if Qleb rate 1.0 then 0.85
  else if Qleb rate 2.0 then 0.6
  else if Qleb rate 3.0 then 0.4
  else 0.2.

Definition has_url (s : string) : bool :=
  contains "http://" s || contains "https://" s || contains "www." s.

Definition _average_links (tweets : list Tweet) : option Q :=
  match tweets with
  | [] => Some 0.0%Q
  | _ =>
      let hits := List.length (List.filter (fun t => has_url (text t)) tweets) in
      py_div (of_nat hits) (of_nat (List.length tweets))
  end.

Definition _score_links (rate : Q) : Q :=
  if Qleb 0.05 rate && Qleb rate 0.2 then 0.9
  else if Qltb rate 0.05 then 0.6
  else if Qleb rate 0.35 then 0.7
  else 0.4.

(** [re.findall(r"\b[a-z]{4,}\b", s)]: the maximal runs of word characters
    that are made of four or more lower-case letters. *)
Definition long_lower_words (s : string) : list string :=
  List.filter
    (fun w => all_chars is_lower w && (4 <=? String.length w)%nat)
    (words s).

Definition topic_tokens (tweets : list Tweet) : list string :=
  List.concat
    (List.map
       (fun tweet =>
          let cleaned := strip_urls (lower (text tweet)) in
          List.filter (fun token => negb (existsb (String.eqb token) STOPWORDS))
            (long_lower_words cleaned))
       tweets).

(** The distinct elements in order of first occurrence, as the keys of a
    [Counter]. *)
Fixpoint distinct (l : list string) : list string :=
  match l with
  | [] => []
  | x :: l' => x :: List.filter (fun y => negb (String.eqb x y)) (distinct l')
  end.

Definition _score_topic_focus (tweets : list Tweet)
    (voice_profile : option VoiceProfile) : option (Q * Q) :=
  match voice_profile ≫= (fun vp =>
          match common_topics vp with [] => None | l => Some l end) with
  | Some topics =>
      let topic_count := List.length topics in
      let metric := of_nat topic_count in
      if (3 <=? topic_count)%nat && (topic_count <=? 7)%nat
      then Some (1.0, metric)
      else if (topic_count <=? 2)%nat then Some (0.5, metric)
      else if (topic_count <=? 12)%nat then Some (0.7, metric)
      else Some (0.4, metric)
  | None =>
      let tokens := topic_tokens tweets in
      match tokens with
      | [] => Some (0.4, 0.0)
      | _ =>
          let counts :=
            List.map (fun t => count_occ t tokens) (distinct tokens) in
          let total := list_sum counts in
          let top :=
            list_sum
              (List.map snd
                 (firstn 5
                    (sorted_desc (List.map (fun c => (of_nat c, c)) counts)))) in
          concentration ← py_div (of_nat top) (of_nat (Nat.max total 1));
          if Qleb 0.18 concentration then Some (1.0, concentration)
          else if Qleb 0.12 concentration then Some (0.8, concentration)
          else if Qleb 0.08 concentration then Some (0.6, concentration)
          else if Qleb 0.05 concentration then Some (0.4, concentration)
          else Some (0.2, concentration)
      end
  end%Q.

Definition _average_virality (tweets : list Tweet) : option Q :=
  match tweets with
  | [] => Some 0.4%Q
  | _ =>
      scores ←
        mapM
          (fun tweet =>
             let content_type := if is_reply tweet then REPLY else TWEET in
             r ← Virality.ViralityScorer.score (Str (text tweet)) content_type;
             Some (Virality.score r / 100.0)%Q)
          (firstn 20 tweets);
      match scores with
      | [] => Some 0.4%Q
      | _ => py_div (Qsum scores) (of_nat (List.length scores))
      end
  end.

Definition _score_profile_completeness (user_info : option UserInfo) : Q :=
  match user_info with
  | None => 0.5
  | Some ui =>
      let bio := default "" (bio ui) in
      if (80 <=? String.length (strip bio))%nat then 1.0
      else if (20 <=? String.length (strip bio))%nat then 0.7
      else if (0 <? String.length (strip bio))%nat then 0.5
      else 0.3
  end%Q.

Definition overall_weights : list (string * Q) :=
  [ ("engagement_quality", 0.25); ("shareability", 0.2); ("cadence", 0.15);
    ("topic_focus", 0.12); ("format_fit", 0.1);
    ("conversation_balance", 0.08); ("hashtag_hygiene", 0.05);
    ("link_balance", 0.03); ("profile_completeness", 0.02) ]%Q.

Definition _weighted_overall (scores : gmap string Q) : option Q :=
  let total := Qsum (List.map snd overall_weights) in
  let score :=
    Qsum (List.map (fun kw => (default 0.5 (scores !! kw.1) * kw.2)%Q)
            overall_weights) in
  q ← py_div score (Qmax total 0.000001);
  Some (py_round (q * 100) 1).

Definition below (scores : gmap string Q) (key : string) (bound : Q)
  : bool :=
  Qltb (default 1.0%Q (scores !! key)) bound.

Definition _build_recommendations (scores : gmap string Q)
  : list Recommendation :=
  let add (key : string) (r : Recommendation) :=
    if below scores key 0.6%Q then [r] else [] in
  firstn 6
    (add "topic_focus"
       {| title := "Sharpen topical focus"; priority := "high";
          why := "Posts cover too many themes, which weakens recommendation signals.";
          actions :=
            [ "Pick 2–3 core topics and publish within those for 2 weeks.";
              "Create a recurring series or format to reinforce your niche." ] |}
     ++ add "shareability"
       {| title := "Increase shareable formats"; priority := "high";
          why := "Recent posts are not triggering strong share signals.";
          actions :=
            [ "Publish 1–2 posts/week that include a framework, checklist, or strong takeaway.";
              "Open with a bold statement before supporting detail." ] |}
     ++ add "engagement_quality"
       {| title := "Strengthen engagement hooks"; priority := "high";
          why := "Average engagement rate is low for the current follower base.";
          actions :=
            [ "Use sharper hooks and clearer takes (avoid hedging).";
              "End posts with a specific, natural prompt for replies." ] |}
     ++ add "cadence"
       {| title := "Stabilize posting cadence"; priority := "medium";
          why := "Inconsistent posting reduces recency and distribution opportunities.";
          actions :=
            [ "Aim for 3–7 posts per week for the next month.";
              "Schedule posts during your best-performing hours." ] |}
     ++ add "conversation_balance"
       {| title := "Balance replies and originals"; priority := "medium";
          why := "Conversation signals are not balanced across content.";
          actions :=
            [ "Keep ~30–50% of weekly posts as replies or quote tweets.";
              "Respond to high-quality threads in your niche." ] |}
     ++ add "format_fit"
       {| title := "Tighten post length"; priority := "medium";
          why := "Average length is outside the best-performing range.";
          actions :=
            [ "Aim for 100–200 characters on single tweets.";
              "Use short lines or bullets for readability." ] |}
     ++ add "hashtag_hygiene"
       {| title := "Reduce hashtag usage"; priority := "low";
          why := "High hashtag density can look spammy to users.";
          actions :=
            [ "Limit to 0–1 hashtags per post.";
              "Replace hashtags with plain-language keywords." ] |}
     ++ add "link_balance"
       {| title := "Increase standalone value"; priority := "low";
          why := "Heavy link usage can reduce dwell and share signals.";
          actions :=
            [ "Include the key takeaway in the post itself.";
              "Use links sparingly and only when adding depth." ] |}
     ++ add "profile_completeness"
       {| title := "Improve profile clarity"; priority := "low";
          why := "A short bio weakens follow conversion.";
          actions :=
            [ "Add a clear value proposition in your bio.";
              "Highlight your niche and what people gain by following you." ] |})%list.

(** [str(h)] *)
Definition str_of_int (h : Z) : string :=
  NilZero.string_of_int (Z.to_int h).

Definition _build_steps (scores : gmap string Q) (metrics : Metrics)
  : list string :=
  let best_hours := m_best_posting_hours metrics in
  let step (b : bool) (s : string) := if b then [s] else [] in
  firstn 6
    (step (below scores "cadence" 0.7%Q)
       "Plan a 2-week schedule of 3–7 posts per week."
     ++ (match best_hours with
         | [] => []
         | _ =>
             let hours_str :=
               join ", "
                 (List.map (fun h => (str_of_int h ++ ":00")%string)
                    (firstn 3 best_hours)) in
             [ ("Post during your best hours: " ++ hours_str ++ ".")%string ]
         end)
     ++ step (below scores "shareability" 0.7%Q)
          "Publish one framework/list post and one strong-opinion post weekly."
     ++ step (below scores "conversation_balance" 0.7%Q)
          "Reply to 3–5 posts in your niche each week."
     ++ step (below scores "topic_focus" 0.7%Q)
          "Commit to 2–3 core themes for the next 10 posts."
     ++ step (below scores "format_fit" 0.7%Q)
          "Keep single tweets in the 100–200 character range.")%list.

Definition score_profile_health (username : string) (tweets : list Tweet)
    (user_info : option UserInfo) (voice_profile : option VoiceProfile)
  : option ProfileHealthResult :=
  patterns ← analyze_engagement_patterns tweets;
  let followers := user_info ≫= followers_count in
  let avg_metrics : gmap string Q :=
    match patterns with
    | Some p => average_metrics p
    | None => ∅
    end in
  let avg_likes := default 0%Q (avg_metrics !! "likes") in
  let avg_retweets := default 0%Q (avg_metrics !! "retweets") in
  let avg_replies := default 0%Q (avg_metrics !! "replies") in
  let avg_quotes := default 0%Q (avg_metrics !! "quotes") in
  let avg_engagement :=
    (avg_likes + avg_retweets * 2 + avg_replies + avg_quotes)%Q in
  engagement_rate ←
    py_div avg_engagement
      (Qmax (inject_Z (default 1%Z (truthy_int followers))) 1.0);
  '(cadence_score, posts_per_week) ← _score_cadence tweets;
  let engagement_score := _score_engagement_rate engagement_rate in
  avg_length ← _get_average_length voice_profile patterns tweets;
  let format_score := _score_length avg_length in
  reply_ratio ← _reply_ratio tweets;
  let conversation_score := _score_reply_ratio reply_ratio in
  hashtag_rate ← _average_hashtags tweets;
  let hashtag_score := _score_hashtags hashtag_rate in
  link_rate ← _average_links tweets;
  let link_score := _score_links link_rate in
  '(topic_focus_score, topic_focus_metric) ←
    _score_topic_focus tweets voice_profile;
  virality_score ← _average_virality tweets;
  let profile_score := _score_profile_completeness user_info in
  let scores : gmap string Q :=
    <["engagement_quality" := engagement_score]>
    (<["cadence" := cadence_score]>
    (<["topic_focus" := topic_focus_score]>
    (<["format_fit" := format_score]>
    (<["conversation_balance" := conversation_score]>
    (<["shareability" := virality_score]>
    (<["hashtag_hygiene" := hashtag_score]>
    (<["link_balance" := link_score]>
    (<["profile_completeness" := profile_score]> ∅)))))))) in
  overall_score ← _weighted_overall scores;
  let metrics :=
    {| followers := default 0%Z (truthy_int followers);
       avg_engagement := py_round avg_engagement 2;
       engagement_rate := py_round engagement_rate 4;
       posts_per_week := py_round posts_per_week 2;
       avg_length := py_round avg_length 1;
       reply_ratio := py_round reply_ratio 2;
       hashtag_rate := py_round hashtag_rate 2;
       link_rate := py_round link_rate 2;
       topic_focus := py_round topic_focus_metric 3;
       m_best_posting_hours :=
         match patterns with
         | Some p => best_posting_hours p
         | None => []
         end |} in
  Some {| username := username;
          overall_score := overall_score;
          scores := scores;
          metrics := metrics;
          recommendations := _build_recommendations scores;
          steps := _build_steps scores metrics |}.

End ProfileHealth.

(** ** analysis/profile_health.py in binary64

    The two sub-scores of [score_profile_health] that compare a computed
    number with a threshold or a target, with the arithmetic of the code:
    the path that ends in [scores["engagement_quality"]], from the averages
    of [analyze_engagement_patterns] on, and [_score_reply_ratio].  A result
    [Some v] is the value the code computes on this path; [None] stands for
    an [OverflowError] raised on it. *)

Module ProfileHealth64.
Import PyStr PyNum PyList Schemas Float64.

(** [analyze_engagement_patterns()["average_metrics"]]; [Some None] stands
    for the empty dictionary returned for no tweets. *)
Definition average_metrics (tweets : list Tweet)
  : option (option (gmap string Q)) :=
  match tweets with
  | [] => Some None
  | _ =>
      let n := Z.of_nat (List.length tweets) in
      let total f := sumZ (List.map (fun t => or0 (f t)) tweets) in
      avg_likes ← int_div (total like_count) n;
      avg_retweets ← int_div (total retweet_count) n;
      avg_replies ← int_div (total reply_count) n;
      avg_quotes ← int_div (total quote_count) n;
      likes ← round avg_likes 2;
      retweets ← round avg_retweets 2;
      replies ← round avg_replies 2;
      quotes ← round avg_quotes 2;
      Some (Some (<["likes" := likes]>
                  (<["retweets" := retweets]>
                  (<["replies" := replies]>
                  (<["quotes" := quotes]> ∅)))))
  end.

(** [float(followers or 1)] *)
Definition followers_or_1 (followers : option Z) : option Q :=
  of_int (match followers with
          | Some v => if (v =? 0)%Z then 1%Z else v
          | None => 1%Z
          end).

Definition engagement_rate (tweets : list Tweet)
    (user_info : option UserInfo) : option float :=
  patterns ← average_metrics tweets;
  let followers := user_info ≫= followers_count in
  let avg_metrics : gmap string Q :=
    match patterns with
    | Some m => m
    | None => ∅
    end in
  let avg_likes := default 0%Q (avg_metrics !! "likes") in
  let avg_retweets := default 0%Q (avg_metrics !! "retweets") in
  let avg_replies := default 0%Q (avg_metrics !! "replies") in
  let avg_quotes := default 0%Q (avg_metrics !! "quotes") in
  let avg_engagement :=
    add (add (add (Finite avg_likes) (mul (Finite avg_retweets) (Finite 2)))
           (Finite avg_replies))
      (Finite avg_quotes) in
  f ← followers_or_1 followers;
  div avg_engagement (max (Finite f) (Finite 1)).

Definition _score_engagement_rate (rate : float) : Q :=
  if ge rate (Finite (literal 0.02)) then literal 1.0
  else if ge rate (Finite (literal 0.01)) then literal 0.8
  else if ge rate (Finite (literal 0.005)) then literal 0.6
  else if ge rate (Finite (literal 0.002)) then literal 0.45
  else if ge rate (Finite (literal 0.001)) then literal 0.3
  else literal 0.2.

Definition _score_reply_ratio (ratio : float) : option float :=
  let target := Finite (literal 0.45) in
  let distance := abs (sub ratio target) in
  q ← div distance target;
  let score := max (Finite (literal 0.2)) (sub (Finite 1) q) in
  Some score.

(** [scores["engagement_quality"]] *)
Definition engagement_quality (tweets : list Tweet)
    (user_info : option UserInfo) : option Q :=
  rate ← engagement_rate tweets user_info;
  Some (_score_engagement_rate rate).

End ProfileHealth64.

(** ** utils/health_impact.py *)

Module HealthImpact.
Import PyStr PyNum PyList Schemas.

(** One entry of [impacts]: the dictionary with the keys "metric", "delta"
    and "reason". *)
Record Impact := {
  metric : string;
  delta : Q;
  reason : string;
}.

Record HealthImpact := {
  impacts : list Impact;
  followups : list string;
}.

Definition _length_score (avg_length : Q) (content_type : ContentType)
  : option Q :=
  let '(ideal_min, ideal_max) :=
    match content_type with
    | REPLY => (60, 200)
    | QUOTE => (80, 200)
    | THREAD => (120, 260)
    | TWEET => (100, 220)
    end%Z in
  let min_value := 30%Z in
  let max_value := 280%Z in
  if Qleb avg_length (inject_Z min_value)
     || Qleb (inject_Z max_value) avg_length then Some 0%Q
  else if Qltb avg_length (inject_Z ideal_min) then
    py_div (avg_length - inject_Z min_value)
           (inject_Z (Z.max (ideal_min - min_value) 1))
  else if Qltb (inject_Z ideal_max) avg_length then
    q ← py_div (inject_Z max_value - avg_length)
               (inject_Z (Z.max (max_value - ideal_max) 1));
    Some (Qmax 0 q)
  else Some 1%Q.

(** [if item not in deduped: deduped.append(item)] *)
Definition dedupe_step (deduped : list string) (item : string)
  : list string :=
  if existsb (String.eqb item) deduped then deduped else append deduped item.

Definition _followup_suggestions (content_type : ContentType)
    (share_potential reply_potential dwell_potential : Q) : list string :=
  let suggestions :=
    ((if Qltb share_potential 0.6 then ["Framework or checklist post"]
      else [])
     ++ (if Qltb reply_potential 0.6 then ["Opinionated reply prompt"]
         else [])
     ++ (if Qltb dwell_potential 0.6
         then ["Mini-thread (3–5 tweets) with a strong hook"] else [])
     ++ match content_type with
        | THREAD =>
            [ "Single crisp insight tweet"; "Quote tweet with a fresh angle" ]
        | TWEET =>
            [ "Short thread expanding this idea";
              "Reply to a top post in your niche" ]
        | _ => [ "Standalone tweet with a clear takeaway" ]
        end)%list in
  fold_left dedupe_step suggestions [].

Definition estimate_health_impact (content : Content)
    (content_type : ContentType) (virality_components : gmap string Q)
  : option HealthImpact :=
  let texts := match content with Lst l => l | Str s => [s] end in
  let lengths :=
    List.map (fun text => String.length (strip text))
      (List.filter (fun text => truthy (strip text)) texts) in
  avg_length ←
    (match lengths with
     | [] => Some 0%Q
     | _ => py_div (of_nat (list_sum lengths)) (of_nat (List.length lengths))
     end);
  let get (key : string) := default 0%Q (virality_components !! key) in
  let share_potential := get "share_potential" in
  let reply_potential := get "reply_potential" in
  let dwell_potential := get "dwell_potential" in
  let clarity := get "clarity" in
  let negative_risk := get "negative_risk" in
  length_score ← _length_score avg_length content_type;
  let share_delta := py_round (share_potential * 0.2) 2 in
  let impacts :=
    if Qltb 0.03 share_delta
    then [ {| metric := "shareability"; delta := share_delta;
              reason := "Structured insight increases the chance of reposts and shares." |} ]
    else [] in
  let conv_base :=
    (reply_potential
     + (match content_type with REPLY | QUOTE => 0.2 | _ => 0.0 end))%Q in
  let conversation_delta := py_round (Qmin 1.0 conv_base * 0.15) 2 in
  let impacts :=
    if Qltb 0.03 conversation_delta
    then append impacts
           {| metric := "conversation_balance"; delta := conversation_delta;
              reason := "Clear opinion or prompt can drive replies and discussion." |}
    else impacts in
  let format_delta := py_round (((length_score + clarity) / 2) * 0.1) 2 in
  let impacts :=
    if Qltb 0.02 format_delta
    then append impacts
           {| metric := "format_fit"; delta := format_delta;
              reason := "Length and readability align with high-performing formats." |}
    else impacts in
  let engagement_delta := py_round ((1 - negative_risk) * 0.08) 2 in
  let impacts :=
    if Qltb 0.6 negative_risk
    then append impacts
           {| metric := "engagement_quality"; delta := (-0.05)%Q;
              reason := "High risk of negative feedback could reduce engagement quality." |}
    else if Qltb 0.02 engagement_delta
    then append impacts
           {| metric := "engagement_quality"; delta := engagement_delta;
              reason := "Lower negative-signal risk can lift overall engagement quality." |}
    else impacts in
  let followups :=
    _followup_suggestions content_type share_potential reply_potential
      dwell_potential in
  Some {| impacts := firstn 4 impacts; followups := firstn 4 followups |}.

End HealthImpact.

(** ** analysis/voice_analyzer.py *)

Module VoiceAnalyzer.
Import PyStr PyNum PyList Schemas.

(** [s.find(sub)]: the index of the first occurrence, [None] for -1. *)
Fixpoint find (sub s : string) : option nat :=
  if startswith sub s then Some 0%nat
  else match s with
       | EmptyString => None
       | String _ s' => S <$> find sub s'
       end.

(** [s.find(sub, start)] for a [start] within the text. *)
Definition find_from (sub s : string) (start : nat) : option nat :=
  (fun i => (start + i)%nat) <$> find sub (drop start s).

(** [s[a:b]] *)
Definition slice (s : string) (a b : nat) : string := take (b - a) (drop a s).

(** [s.lstrip(chars)] for the characters of a class. *)
Fixpoint lstrip_chars (p : ascii -> bool) (s : string) : string :=
  match s with
  | EmptyString => EmptyString
  | String c s' => if p c then lstrip_chars p s' else s
  end.

(** The class of [": -"]. *)
Definition is_lead (c : ascii) : bool :=
  Ascii.eqb c ":" || Ascii.eqb c " " || Ascii.eqb c "-".

(** [s.split()]: the maximal runs of characters that are not white
    space. *)
Definition split_ws (s : string) : list string :=
  List.filter truthy (runs (fun c => negb (is_space c)) s).

(** [int(x)]: truncation towards zero. *)
Definition py_int (x : Q) : Z :=
  if Qltb x 0 then Qceiling x else Qfloor x.

(** The body of the loop of [_extract_section] for a keyword found at
    [idx]. *)
Definition section_at (text keyword : string) (idx : nat) : string :=
  let start := (idx + String.length keyword)%nat in
  let end_ :=
    Nat.min
      (default (String.length text) (find_from LF text start))
      (default (String.length text)
         ((fun i => (i + 200)%nat) <$> find_from ":" text start)) in
  let section := strip (slice text start end_) in
  let section := strip (lstrip_chars is_lead section) in
  match find "." section with
  | Some period_idx =>
      if (period_idx <? 200)%nat then take (period_idx + 1) section
      else take 200 section
  | None => take 200 section
  end.

Fixpoint _extract_section (text : string) (keywords : list string)
  : string :=
  match keywords with
  | [] => ""
  | keyword :: rest =>
      match find keyword (lower text) with
      | Some idx => section_at text keyword idx
      | None => _extract_section text rest
      end
  end.

(** One iteration of [for line in lines]. *)
Definition item_step (items : list string) (raw_line : string)
  : list string :=
  let line := strip raw_line in
  if is_empty line then items
  else if startswith "- " line || startswith "* " line
  then append items (strip (drop 2 line))
  else if head_is is_digit line
          && (String.eqb (take 2 (drop 1 line)) ". "
              || String.eqb (take 1 (drop 1 line)) ")")
  then append items
         (strip (drop (if String.eqb (take 2 (drop 1 line)) ". "
                       then 3 else 2) line))
  else if contains "," line && (List.length items =? 0)%nat
  then (items ++ List.map strip (split "," line))%list
  else items.

Definition _extract_list_items (text : string) : list string :=
  firstn 10 (fold_left item_step (split LF text) []).

(** [hashtag_usage[hashtag] = hashtag_usage.get(hashtag, 0) + 1] for the
    words of one tweet that start with "#". *)
Definition count_hashtags (usage : gmap string Z) (tweet : Tweet)
  : gmap string Z :=
  fold_left
    (fun usage word =>
       if startswith "#" word
       then let hashtag := lower word in
            <[hashtag := (default 0 (usage !! hashtag) + 1)%Z]> usage
       else usage)
    (split_ws (text tweet)) usage.

(** [x or "Analyzed from tweets"] *)
Definition or_default (s : string) : string :=
  if truthy s then s else "Analyzed from tweets".

(** [engagement_patterns] is stored as it is given and read nowhere here;
    it is left out, as in [Schemas.VoiceProfile]. *)
Definition _parse_analysis (analysis_text username : string)
    (tweets : list Tweet) : option VoiceProfile :=
  let writing_style :=
    _extract_section analysis_text ["writing style"; "style"] in
  let tone := _extract_section analysis_text ["tone"; "voice tone"] in
  let topics_text :=
    _extract_section analysis_text ["topics"; "themes"; "subjects"] in
  let common_topics := _extract_list_items topics_text in
  let hashtag_usage := fold_left count_hashtags tweets ∅ in
  avg_length ←
    (match tweets with
     | [] => Some None
     | _ =>
         q ← py_div
               (of_nat (list_sum (List.map (fun t => String.length (text t))
                                    tweets)))
               (of_nat (List.length tweets));
         Some (Some q)
     end);
  Some {| vp_username := username;
          writing_style := or_default writing_style;
          tone := or_default tone;
          common_topics := firstn 10 common_topics;
          hashtag_usage := hashtag_usage;
          average_tweet_length :=
            match avg_length with
            | Some q => if Qeq_bool q 0 then None else Some (py_int q)
            | None => None
            end |}.

End VoiceAnalyzer.

(** ** Specifications

    The vocabulary of the theorems: the predicates they are stated with, and,
    where the code departs from the spec, a definition that follows the
    spec's wording next to the one that follows the code. *)

Module Spec.
Import PyStr PyNum PyList Schemas.

(** The mean of a count over the posts, a missing count taken as 0.  For no
    posts it is 0, the value of a quotient by 0 in [Q]. *)
Definition mean (f : Tweet -> option Z) (tweets : list Tweet) : Q :=
  (inject_Z (sumZ (List.map (fun t => or0 (f t)) tweets))
   / of_nat (List.length tweets))%Q.

(** The engagement rate over exact rationals: each mean is rounded to two
    decimals before it is used. *)
Definition rounded_rate (tweets : list Tweet) (followers : Z) : Q :=
  let avg f := py_round (mean f tweets) 2 in
  ((avg like_count + avg retweet_count * 2 + avg reply_count
    + avg quote_count) / Qmax (inject_Z followers) 1)%Q.

(** A text without a character that is not white space. *)
Definition blank (s : string) : Prop := all_chars is_space s = true.

(** A line that is not empty and does not start with a digit. *)
Definition substantial (line : string) : bool :=
  truthy line && negb (head_is is_digit line).

(** A line that is purely numeric: digits only, and at least one. *)
Definition purely_numeric (line : string) : bool :=
  truthy line && all_chars is_digit line.

(** The single-post result as the spec words it: the first non-empty line
    that is not purely numeric, else the whole trimmed text. *)
Definition first_line_spec (generated_text : string) : string :=
  let text := strip generated_text in
  match List.find (fun line => truthy line && negb (purely_numeric line))
          (List.map strip (split LF text)) with
  | Some line => line
  | None => text
  end.

(** The lengths where the score of a trapezoid with hard bounds 30 and 280
    and ideal band [lo, hi] is given by [f]. *)
Definition trapezoid (lo hi : Z) (f : Z -> option Q) : Prop :=
  forall n : Z,
    ((n <= 30 \/ 280 <= n)%Z -> f n = Some 0%Q) /\
    ((30 < n < lo)%Z ->
       exists q, f n = Some q /\
         (q == inject_Z (n - 30) / inject_Z (lo - 30))%Q) /\
    ((lo <= n <= hi)%Z -> f n = Some 1%Q) /\
    ((hi < n < 280)%Z ->
       exists q, f n = Some q /\
         (q == inject_Z (280 - n) / inject_Z (280 - hi))%Q).

(** A sub-score between 0 and 1. *)
Definition unit_range (q : Q) : Prop := (0 <= q /\ q <= 1)%Q.


(** The timestamps of [n] posts, one a day from [t0] on. *)
Definition daily_from (t0 : datetime) (n : nat) : list (option datetime) :=
  List.map (fun i => Some (t0 + Z.of_nat i * MICROS_PER_DAY)%Z) (seq 0 n).

End Spec.

(** ** The engagement sub-score as the claim words it, in binary64 *)

Module Spec64.
Import PyNum PyList Schemas Float64.

(** The mean of a count over the posts, a missing count taken as 0: the
    sum divided by the number of posts, and 0 for no posts. *)
Definition mean (f : Tweet -> option Z) (tweets : list Tweet) : option Q :=
  match tweets with
  | [] => Some 0%Q
  | _ =>
      int_div (sumZ (List.map (fun t => or0 (f t)) tweets))
        (Z.of_nat (List.length tweets))
  end.

(** The mean rounded to two decimals. *)
Definition rounded_mean (f : Tweet -> option Z) (tweets : list Tweet)
  : option Q :=
  m ← mean f tweets; round m 2.

(** [avg_likes + avg_reposts * 2 + avg_replies + avg_quotes] over
    [max(followers, 1)], from left to right. *)
Definition rate_of (avg : (Tweet -> option Z) -> list Tweet -> option Q)
    (tweets : list Tweet) (followers : Z) : option float :=
  avg_likes ← avg like_count tweets;
  avg_reposts ← avg retweet_count tweets;
  avg_replies ← avg reply_count tweets;
  avg_quotes ← avg quote_count tweets;
  let avg_engagement :=
    add (add (add (Finite avg_likes) (mul (Finite avg_reposts) (Finite 2)))
           (Finite avg_replies))
      (Finite avg_quotes) in
  f ← of_int followers;
  div avg_engagement (max (Finite f) (Finite 1)).

(** The rate of the amended claim: over the rounded means. *)
Definition rounded_rate : list Tweet -> Z -> option float :=
  rate_of rounded_mean.

(** The rate of the claim as it stands: over the plain means. *)
Definition plain_rate : list Tweet -> Z -> option float := rate_of mean.

(** The total of each of the four counts is at most [bound] in absolute
    value. *)
Definition counts_within (bound : Z) (tweets : list Tweet) : Prop :=
  Forall
    (fun f =>
       (Z.abs (sumZ (List.map (fun t => or0 (f t)) tweets)) <= bound)%Z)
    [like_count; retweet_count; reply_count; quote_count].

(** The values of the table. *)
Definition table_values : list Q :=
  List.map literal [1.0; 0.8; 0.6; 0.45; 0.3; 0.2]%Q.

(** The table of the sub-score over a rate that is a number. *)
Definition table_steps (score : float -> Q) : Prop :=
  forall rate : Q,
    ((literal 0.02 <= rate -> score (Finite rate) = literal 1.0) /\
     (literal 0.01 <= rate < literal 0.02 ->
      score (Finite rate) = literal 0.8) /\
     (literal 0.005 <= rate < literal 0.01 ->
      score (Finite rate) = literal 0.6) /\
     (literal 0.002 <= rate < literal 0.005 ->
      score (Finite rate) = literal 0.45) /\
     (literal 0.001 <= rate < literal 0.002 ->
      score (Finite rate) = literal 0.3) /\
     (rate < literal 0.001 -> score (Finite rate) = literal 0.2))%Q.

End Spec64.

(** ** Concrete inputs *)

Module Inputs.
Import PyStr Schemas.

(** A thread of one segment that earns six notes and opens with a hook. *)
Definition seven_notes_text : string :=
  "The truth? Read this guide. Subscribe now. 3 rules. Be kind. Be fast. Be bold. Thoughts? See www.a.co now. Do it today. Go. Win. Repeat it again.".

(** Three numbered lines, "first", "second" and "third", behind the
    markers [m1], [m2] and [m3]. *)
Definition numbered (m1 m2 m3 : string) : string :=
  m1 ++ " first" ++ LF ++ m2 ++ " second" ++ LF ++ m3 ++ " third".

(** Two lines, the first of which starts with a digit. *)
Definition numbered_first_line : string :=
  "1. Hello world" ++ LF ++ "second line".

Definition post (likes : option Z) (at_time : option datetime)
    (body : string) : Tweet :=
  {| tweet_id := "1"; text := body; created_at := at_time;
     author_username := "someone"; like_count := likes;
     retweet_count := None; reply_count := None; quote_count := None;
     is_reply := false; is_quote := false; referenced_tweet_id := None |}.

(** Ten posts, one a day from day 0 to day 9. *)
Definition ten_daily_posts : list Tweet :=
  List.map
    (fun i => post None (Some (Z.of_nat i * MICROS_PER_DAY)%Z) "post")
    (seq 0 10).

(** Three posts with one like in all. *)
Definition three_posts_one_like : list Tweet :=
  [ post (Some 1%Z) None "a"; post None None "b"; post None None "c" ].

Definition post_with (likes replies : option Z) : Tweet :=
  {| tweet_id := "1"; text := "post"; created_at := None;
     author_username := "someone"; like_count := likes;
     retweet_count := None; reply_count := replies; quote_count := None;
     is_reply := false; is_quote := false; referenced_tweet_id := None |}.

(** Forty posts with one like in all. *)
Definition forty_posts_one_like : list Tweet :=
  post_with (Some 1%Z) None :: repeat (post_with None None) 39.

(** Ten posts with seven likes and one reply in all. *)
Definition ten_posts_seven_likes_one_reply : list Tweet :=
  post_with (Some 7%Z) (Some 1%Z) :: repeat (post_with None None) 9.

Definition account (n_followers : Z) : UserInfo :=
  {| ui_username := "someone"; ui_user_id := None; ui_display_name := None;
     bio := None; followers_count := Some n_followers;
     following_count := None; tweet_count := None |}.

End Inputs.

(** ** Further vocabulary

    The predicates and the measures that the further facts are stated
    with. *)

Module Props.
Import PyStr PyNum PyList Schemas ContentGenerator Virality Analytics
  ProfileHealth Spec.

(** The keys of the components of a virality result. *)
Definition component_names : list string :=
  [ "reply_potential"; "share_potential"; "click_potential";
    "dwell_potential"; "clarity"; "negative_risk" ].

(** A dictionary of components: known keys, values between 0 and 1. *)
Definition components_ok (m : gmap string Q) : Prop :=
  forall k v, m !! k = Some v -> In k component_names /\ unit_range v.

(** A result whose components are such a dictionary. *)
Definition components_in_range (r : ViralityResult) : Prop :=
  components_ok (components r).

(** The sums of the components of [i] results: known keys, values between
    0 and [i]. *)
Definition sums_below (acc : gmap string Q) (i : nat) : Prop :=
  forall k, (is_Some (acc !! k) -> In k component_names) /\
            (0 <= default 0 (acc !! k) /\ default 0 (acc !! k) <= of_nat i)%Q.

(** The result of [_score_text] on a text without content. *)
Definition empty_result : ViralityResult :=
  {| score := 0; components := ∅; notes := ["Empty content"] |}.

(** A text without white space at either end. *)
Definition trimmed (s : string) : Prop := strip s = s.

(** A sentence as the chunk loop keeps it: not empty, trimmed. *)
Definition piece (s : string) : Prop := s <> "" /\ trimmed s.

(** The sentences the fallback splitter works on. *)
Definition sentences_of (text : string) : list string :=
  List.map strip (split LF (replace ". " ("." ++ LF) text)).

(** A chunk within the target length, or one sentence on its own. *)
Definition chunk_ok (sentences : list string) (chunk : string) : Prop :=
  (String.length chunk <= 260)%nat \/ In chunk sentences.

(** The invariant of the chunk loop over the sentences [S]: the finished
    chunks are within the target length or single sentences, and
    [current_length] bounds the length of the current chunk, which is
    within the target length or a single sentence. *)
Definition chunk_inv (S : list string) (st : chunk_state) : Prop :=
  Forall (chunk_ok S) st.1.1 /\
  (st.1.2 = [] -> st.2 = 0%nat) /\
  (st.1.2 <> [] ->
     (String.length (join " " st.1.2) <= st.2)%nat /\
     ((st.2 <= 260)%nat \/ exists s, st.1.2 = [s] /\ In s S)).

(** [[p.strip() for p in generated_text.split("\n\n") if p.strip()]] *)
Definition paragraphs_of (g : string) : list string :=
  List.map strip
    (List.filter (fun p => truthy (strip p)) (split (LF ++ LF) g)).

(** Ten sentences in one block of 449 characters, without numbering. *)
Definition ten_sentences : string :=
  join " " (repeat "The quick brown fox jumps over the lazy dog." 10).

(** A character other than the line feed. *)
Definition not_lf (c : ascii) : bool := negb (Ascii.eqb c (ascii_of_nat 10)).

(** A text without a line feed. *)
Definition one_line (s : string) : Prop := all_chars not_lf s = true.

(** A character that may stand in a marker: no white space, colon or
    hyphen. *)
Definition marker_char (c : ascii) : bool :=
  negb (is_space c) && negb (is_marker_sep c).

(** A thread marker such as "2/5", "2)" or "2.": it starts with a digit,
    shows one of "/", ")" and "." in its first six characters, and holds no
    white space, colon or hyphen. *)
Definition marker_ok (m : string) : Prop :=
  head_is is_digit m = true /\ has_marker m = true /\
  all_chars marker_char m = true.

(** The text of a segment: not empty, trimmed, on one line. *)
Definition body_ok (t : string) : Prop :=
  t <> "" /\ strip t = t /\ one_line t.

(** The line of a segment: its marker, a space, its text. *)
Definition numbered_line (seg : string * string) : string :=
  seg.1 ++ " " ++ seg.2.

(** A segment with a proper marker and a proper text. *)
Definition segment_ok (seg : string * string) : Prop :=
  marker_ok seg.1 /\ body_ok seg.2.



(** The rank of a priority label: "high" before "medium" before "low". *)
Definition priority_rank (p : string) : nat :=
  if String.eqb p "high" then 0
  else if String.eqb p "medium" then 1
  else 2.

(** A list of ranks that never fall. *)
Fixpoint rising (l : list nat) : Prop :=
  match l with
  | [] => True
  | a :: l' => Forall (le a) l' /\ rising l'
  end.

(** A voice profile that lists no topic, or none at all. *)
Definition no_topics (voice_profile : option VoiceProfile) : Prop :=
  match voice_profile with
  | Some vp => common_topics vp = []
  | None => True
  end.










(** The components of [b] are at least as good as those of [a]: none of
    the five weighted ones is lower, and the negative risk is not
    higher. *)
Definition no_worse (a b : gmap string Q) : Prop :=
  Forall (fun kw : string * Q =>
            (default 0 (a !! kw.1) <= default 0 (b !! kw.1))%Q)
    ViralityScorer.weights /\
  (default 0 (b !! "negative_risk") <= default 0 (a !! "negative_risk"))%Q.

(** Two lists of pieces with the same non-empty pieces and the same first
    piece. *)
Definition same_words (l l' : list string) : Prop :=
  hd "" l = hd "" l' /\
  List.filter truthy (tl l) = List.filter truthy (tl l').

(** The content with each text trimmed. *)
Definition strip_content (content : Content) : Content :=
  match content with
  | Str s => Str (strip s)
  | Lst l => Lst (List.map strip l)
  end.

(** The names of the metrics an impact may speak of, in the order of the
    estimate. *)
Definition impact_metrics : list string :=
  [ "shareability"; "conversation_balance"; "format_fit";
    "engagement_quality" ].

(** A hashtag of the usage table: it starts with "#", is in lower case and
    was counted at least once. *)
Definition usage_ok (usage : gmap string Z) : Prop :=
  forall k n, usage !! k = Some n ->
    startswith "#" k = true /\ lower k = k /\ (1 <= n)%Z.

End Props.

(** * Facts *)

(** ** Numbers *)

Section NumFacts.
Import PyNum.
Local Open Scope Q_scope.

Lemma Qleb_true (a b : Q) : Qleb a b = true <-> a <= b.
Proof. apply Qle_bool_iff. Qed.

Lemma Qleb_false (a b : Q) : Qleb a b = false <-> b < a.
Proof.
  unfold Qleb. split; intros H.
  - apply Qnot_le_lt. intros Hle. apply Qle_bool_iff in Hle. congruence.
  - destruct (Qle_bool a b) eqn:E; [|reflexivity].
    apply Qle_bool_iff in E. exfalso. apply (Qlt_not_le _ _ H E).
Qed.

Lemma Qltb_true (a b : Q) : Qltb a b = true <-> a < b.
Proof.
  unfold Qltb. rewrite negb_true_iff. apply (Qleb_false b a).
Qed.

Lemma Qltb_false (a b : Q) : Qltb a b = false <-> b <= a.
Proof.
  unfold Qltb. rewrite negb_false_iff. apply (Qleb_true b a).
Qed.

Lemma of_nat_nonneg (n : nat) : 0 <= of_nat n.
Proof.
  unfold of_nat. change 0%Q with (inject_Z 0). rewrite <- Zle_Qle. lia.
Qed.

Lemma py_div_Some (a b : Q) :
  ~ b == 0 -> py_div a b = Some (a / b)%Q.
Proof.
  intros Hb. unfold py_div.
  destruct (Qeq_bool b 0) eqn:E; [|reflexivity].
  apply Qeq_bool_eq in E. contradiction.
Qed.

Lemma py_div_of_nat (a : Q) (n : nat) :
  (0 < n)%nat -> py_div a (of_nat n) = Some (a / of_nat n)%Q.
Proof.
  intros Hn. apply py_div_Some. unfold of_nat.
  change 0%Q with (inject_Z 0). rewrite inject_Z_injective. lia.
Qed.

Lemma py_div_inject_Z (a : Q) (z : Z) :
  z <> 0%Z -> py_div a (inject_Z z) = Some (a / inject_Z z)%Q.
Proof.
  intros Hz. apply py_div_Some.
  change 0%Q with (inject_Z 0). rewrite inject_Z_injective. exact Hz.
Qed.

Lemma round_half_even_bounds (x : Q) (a b : Z) :
  inject_Z a <= x -> x <= inject_Z b ->
  (a <= round_half_even x <= b)%Z.
Proof.
  intros Ha Hb. unfold round_half_even.
  assert (Hfa : (a <= Qfloor x)%Z).
  { rewrite <- (Qfloor_Z a). apply Qfloor_resp_le; exact Ha. }
  assert (Hfb : (Qfloor x <= b)%Z).
  { rewrite <- (Qfloor_Z b). apply Qfloor_resp_le; exact Hb. }
  destruct (Qltb (x - inject_Z (Qfloor x)) 0.5) eqn:E1; [lia|].
  apply Qltb_false in E1.
  assert (Hlt : (Qfloor x < b)%Z).
  { apply Z.nle_gt. intros Hge. rewrite Zle_Qle in Hge.
    pose proof (Qfloor_le x). lra. }
  destruct (Qltb 0.5 (x - inject_Z (Qfloor x))); [lia|].
  destruct (Z.even (Qfloor x)); lia.
Qed.

Lemma scale_pos (n : nat) : 0 < inject_Z (10 ^ Z.of_nat n).
Proof.
  change 0%Q with (inject_Z 0). rewrite <- Zlt_Qlt.
  apply Z.pow_pos_nonneg; lia.
Qed.

(** Rounding keeps a value between two integer bounds. *)
Lemma py_round_bounds (x : Q) (n : nat) (a b : Z) :
  inject_Z a <= x -> x <= inject_Z b ->
  inject_Z a <= py_round x n /\ py_round x n <= inject_Z b.
Proof.
  intros Ha Hb. unfold py_round.
  pose proof (scale_pos n) as Hs.
  set (s := (10 ^ Z.of_nat n)%Z) in *.
  destruct (round_half_even_bounds (x * inject_Z s) (a * s) (b * s)) as [H1 H2].
  - rewrite inject_Z_mult. apply Qmult_le_compat_r; [exact Ha|].
    apply Qlt_le_weak; exact Hs.
  - rewrite inject_Z_mult. apply Qmult_le_compat_r; [exact Hb|].
    apply Qlt_le_weak; exact Hs.
  - rewrite Zle_Qle, inject_Z_mult in H1. rewrite Zle_Qle, inject_Z_mult in H2.
    split.
    + apply Qle_shift_div_l; assumption.
    + apply Qle_shift_div_r; assumption.
Qed.

End NumFacts.

(** ** The virality scorer *)

Section ViralityFacts.
Import PyStr PyNum Schemas Virality.
Local Open Scope Q_scope.

Lemma bind_is_Some {A B : Type} (m : option A) (k : A -> option B) :
  is_Some m -> (forall a, is_Some (k a)) -> is_Some (m ≫= k).
Proof. intros [a ->] Hk. apply Hk. Qed.

Lemma _aggregate_score_bounds (c : gmap string Q) :
  0 <= ViralityScorer._aggregate_score c /\
  ViralityScorer._aggregate_score c <= 100.
Proof.
  unfold ViralityScorer._aggregate_score. split.
  - apply Q.le_max_l.
  - apply Q.max_lub; [discriminate|]. apply Q.le_min_l.
Qed.

Lemma _hook_score_cases (t : string) :
  ViralityScorer._hook_score t = 0 \/ ViralityScorer._hook_score t = 1 \/
  ViralityScorer._hook_score t = 0.3.
Proof.
  unfold ViralityScorer._hook_score.
  destruct (is_empty _); [auto|]. destruct (existsb _ _); auto.
Qed.

Lemma _length_score_is_Some (n : Z) (ct : ContentType) :
  is_Some (ViralityScorer._length_score n ct).
Proof.
  unfold ViralityScorer._length_score.
  destruct (ViralityScorer.ideal_band ct) as [lo hi] eqn:Eb.
  destruct (_ || _); [eauto|].
  destruct (n <? lo)%Z.
  - rewrite py_div_inject_Z; [eauto|lia].
  - destruct (hi <? n)%Z; [|eauto].
    rewrite py_div_inject_Z; [|lia]. simpl. eauto.
Qed.

(** No division of [_score_text] fails. *)
Lemma _score_text_is_Some (t : string) (ct : ContentType) :
  is_Some (ViralityScorer._score_text t ct).
Proof.
  unfold ViralityScorer._score_text.
  destruct (is_empty (strip t)); [eauto|].
  apply bind_is_Some.
  { destruct (0 <? _)%nat eqn:El; [|eauto].
    apply Nat.ltb_lt in El. rewrite (py_div_of_nat _ _ El). eauto. }
  intros uppercase_ratio. apply bind_is_Some.
  { destruct (List.map _ _) as [|n l]; [eauto|].
    rewrite py_div_of_nat; [eauto|]. simpl. lia. }
  intros avg_sentence_len. apply bind_is_Some.
  { apply _length_score_is_Some. }
  intros length_score. eauto.
Qed.

Lemma per_text_results_is_Some (texts : list string) (ct : ContentType) :
  is_Some (mapM (fun text => ViralityScorer._score_text text ct) texts).
Proof.
  apply mapM_is_Some_2, Forall_forall. intros x _.
  apply _score_text_is_Some.
Qed.

Lemma div_components_by_length {A : Type} (summed : gmap string Q)
    (x : A) (l : list A) :
  is_Some (ViralityScorer.div_components summed
             (of_nat (List.length (x :: l)))).
Proof.
  unfold ViralityScorer.div_components. destruct (_ =? _)%nat; [eauto|].
  destruct (Qeq_bool _ _) eqn:E; [|eauto].
  apply Qeq_bool_eq in E. unfold of_nat in E.
  change 0 with (inject_Z 0) in E. rewrite inject_Z_injective in E.
  simpl in E. lia.
Qed.

(** The scorer returns, and its score is between 0 and 100. *)
Lemma score_bounds (content : Content) (ct : ContentType) :
  exists r, ViralityScorer.score content ct = Some r /\
            0 <= score r /\ score r <= 100.
Proof.
  unfold ViralityScorer.score.
  set (texts := match content with Lst l => l | Str s => [s] end).
  destruct (per_text_results_is_Some texts ct) as [results ->].
  cbn [mbind option_bind].
  destruct results as [|r0 rs].
  { eexists; split; [reflexivity|]. cbn [score].
    split; [apply Qle_refl | discriminate]. }
  set (summed := fold_left _ _ _).
  destruct (div_components_by_length summed r0 rs) as [comps ->].
  cbn [mbind option_bind].
  pose proof (_aggregate_score_bounds comps) as [Hlo Hhi].
  destruct ct; try (destruct texts as [|first ?]);
    (eexists; split; [reflexivity|]; cbn [score]);
    try (apply (py_round_bounds _ 1 0 100); assumption).
  pose proof (_hook_score_cases first) as Hh.
  apply (py_round_bounds _ 1 0 100).
  - apply Q.min_glb; [discriminate|]. change (inject_Z 0) with 0.
    destruct Hh as [-> | [-> | ->]]; lra.
  - apply Q.le_min_l.
Qed.

(** C1: for every content, a string or a list of strings, and every content
    type, [ViralityScorer.score] returns a result, and the score of the
    result lies in the closed interval from 0 to 100. *)
Theorem score_in_0_100 (content : Content) (ct : ContentType) :
  exists r, ViralityScorer.score content ct = Some r /\
            0 <= score r /\ score r <= 100.
Proof. apply score_bounds. Qed.

(** C2, as the claim states it, fails on the empty string: the scorer turns
    it into the one-element list of texts, whose only result carries the
    note of an empty segment. *)
Lemma score_empty_string_note :
  ~ exists r, ViralityScorer.score (Str "") TWEET = Some r /\
              score r == 0 /\ components r = ∅ /\
              notes r = ["No content to score"].
Proof.
  intros (r & Hr & _ & _ & Hn).
  vm_compute in Hr. injection Hr as <-. discriminate Hn.
Qed.

(** C2, amended: the empty list gives score 0, no components and the note
    "No content to score"; the empty string gives score 0, no components
    and the note "Empty content"; both for every content type. *)
Theorem score_empty_content (ct : ContentType) :
  (exists r, ViralityScorer.score (Lst []) ct = Some r /\
             score r == 0 /\ components r = ∅ /\
             notes r = ["No content to score"]) /\
  (exists r, ViralityScorer.score (Str "") ct = Some r /\
             score r == 0 /\ components r = ∅ /\
             notes r = ["Empty content"]).
Proof.
  split; destruct ct; (eexists; split; [vm_compute; reflexivity|]);
    cbn [score components notes]; repeat split; reflexivity.
Qed.

(** C9 fails on the code: for a thread whose segments earn six different
    notes and whose first segment has a strong hook, the note "Strong hook"
    is put in front of the six notes that were kept, and the result has
    seven notes. *)
Theorem score_notes_seven :
  exists r, ViralityScorer.score (Lst [Inputs.seven_notes_text]) THREAD = Some r /\
            notes r =
              [ "Strong hook"; "Shareable insight"; "Strong reply prompt";
                "Clear click value"; "Good dwell potential";
                "Clarity could be tighter";
                "Risk: looks like engagement bait" ] /\
            List.length (notes r) = 7%nat.
Proof.
  eexists. split; [vm_compute; reflexivity|]. split; reflexivity.
Qed.

Lemma _length_score_shape (ct : ContentType) (lo hi : Z) :
  ViralityScorer.ideal_band ct = (lo, hi) ->
  (30 < lo)%Z -> (lo <= hi)%Z -> (hi < 280)%Z ->
  Spec.trapezoid lo hi (fun n => ViralityScorer._length_score n ct).
Proof.
  intros Hb Hlo Hmid Hhi n. unfold ViralityScorer._length_score.
  rewrite Hb.
  repeat split.
  - intros Hout.
    assert ((n <=? 30)%Z || (280 <=? n)%Z = true) as ->; [|reflexivity].
    apply orb_true_iff. destruct Hout; [left|right]; lia.
  - intros [H1 H2].
    assert ((n <=? 30)%Z || (280 <=? n)%Z = false) as ->.
    { apply orb_false_iff. split; lia. }
    assert ((n <? lo)%Z = true) as -> by lia.
    rewrite Z.max_l by lia.
    rewrite py_div_inject_Z by lia. eexists; split; [reflexivity|].
    reflexivity.
  - intros [H1 H2].
    assert ((n <=? 30)%Z || (280 <=? n)%Z = false) as ->.
    { apply orb_false_iff. split; lia. }
    assert ((n <? lo)%Z = false) as -> by lia.
    assert ((hi <? n)%Z = false) as -> by lia. reflexivity.
  - intros [H1 H2].
    assert ((n <=? 30)%Z || (280 <=? n)%Z = false) as ->.
    { apply orb_false_iff. split; lia. }
    assert ((n <? lo)%Z = false) as -> by lia.
    assert ((hi <? n)%Z = true) as -> by lia.
    rewrite Z.max_l by lia.
    rewrite py_div_inject_Z by lia. eexists; split; [reflexivity|].
    apply Q.max_r.
    apply Qle_shift_div_l.
    + change 0 with (inject_Z 0). rewrite <- Zlt_Qlt. lia.
    + rewrite Qmult_0_l. change 0 with (inject_Z 0). rewrite <- Zle_Qle. lia.
Qed.

(** C8: for every length and content type the length score is the
    trapezoid with hard bounds 30 and 280: 0 at and outside the hard
    bounds, 1 inside the ideal band of the content type (REPLY 60-200,
    QUOTE 80-200, THREAD 120-260, TWEET 100-220), and linear between a hard
    bound and the band. *)
Theorem _length_score_trapezoid :
  Spec.trapezoid 60 200 (fun n => ViralityScorer._length_score n REPLY) /\
  Spec.trapezoid 80 200 (fun n => ViralityScorer._length_score n QUOTE) /\
  Spec.trapezoid 120 260 (fun n => ViralityScorer._length_score n THREAD) /\
  Spec.trapezoid 100 220 (fun n => ViralityScorer._length_score n TWEET).
Proof.
  split; [|split; [|split]]; apply _length_score_shape;
    (reflexivity || lia).
Qed.

Lemma dict_fromkeys_NoDup (l : list string) :
  List.NoDup (ViralityScorer.dict_fromkeys l).
Proof.
  induction l as [|x l IH]; simpl; constructor.
  - intros Hin. apply filter_In in Hin as [_ Hx].
    rewrite String.eqb_refl in Hx. discriminate.
  - apply List.NoDup_filter. exact IH.
Qed.

Lemma In_firstn_list (n : nat) (x : string) (l : list string) :
  In x (firstn n l) -> In x l.
Proof.
  revert n. induction l as [|y l IH]; intros [|n] H; simpl in *;
    try contradiction.
  destruct H as [H|H]; [left; exact H|right; exact (IH n H)].
Qed.

Lemma NoDup_firstn_list (n : nat) (l : list string) :
  List.NoDup l -> List.NoDup (firstn n l).
Proof.
  revert n. induction l as [|x l IH]; intros [|n] H; simpl; try constructor.
  - inversion H; subst. intros Hin. apply In_firstn_list in Hin.
    contradiction.
  - inversion H; subst. apply IH. assumption.
Qed.

Lemma mem_false (x : string) (l : list string) :
  ViralityScorer.mem x l = false -> ~ In x l.
Proof.
  unfold ViralityScorer.mem. intros H Hin.
  assert (existsb (String.eqb x) l = true) as Ht.
  { apply existsb_exists. exists x. split; [exact Hin|apply String.eqb_refl]. }
  congruence.
Qed.

(** The notes of a result hold no entry twice; there are at most six of
    them, and at most seven for a thread, where "Strong hook" may be put in
    front of the six that were kept. *)
Theorem score_notes_shape (content : Content) (ct : ContentType) :
  exists r, ViralityScorer.score content ct = Some r /\
            List.NoDup (notes r) /\
            (List.length (notes r) <= 7)%nat /\
            (ct <> THREAD -> (List.length (notes r) <= 6)%nat).
Proof.
  unfold ViralityScorer.score.
  set (texts := match content with Lst l => l | Str s => [s] end).
  destruct (per_text_results_is_Some texts ct) as [results ->].
  cbn [mbind option_bind].
  destruct results as [|r0 rs].
  { eexists; split; [reflexivity|]. cbn [notes].
    split; [repeat constructor; intros []|]. split; [simpl; lia|]. simpl; lia. }
  set (summed := fold_left _ _ _).
  destruct (div_components_by_length summed r0 rs) as [comps ->].
  cbn [mbind option_bind].
  set (all_notes := List.concat _).
  pose proof (NoDup_firstn_list 6 _ (dict_fromkeys_NoDup all_notes)) as Hnd.
  pose proof (firstn_le_length 6 (ViralityScorer.dict_fromkeys all_notes)) as Hlen.
  destruct ct; try (destruct texts as [|first ?]);
    try (eexists; split; [reflexivity|]; cbn [notes];
         split; [exact Hnd|]; split; [lia|]; intros _; lia).
  eexists; split; [reflexivity|]. cbn [notes].
  destruct (Qltb 0.6 (ViralityScorer._hook_score first) && _) eqn:E.
  - apply andb_true_iff in E as [_ E]. apply negb_true_iff in E.
    split; [constructor; [apply mem_false, E|exact Hnd]|].
    split; [simpl; lia|]. intros H; contradiction.
  - split; [exact Hnd|]. split; [lia|]. intros H; contradiction.
Qed.

(** A string is scored as the one-element list that holds it. *)
Theorem score_scalar_as_list (s : string) (ct : ContentType) :
  ViralityScorer.score (Str s) ct = ViralityScorer.score (Lst [s]) ct.
Proof. reflexivity. Qed.

End ViralityFacts.

(** ** Strings *)

Section StringFacts.
Import PyStr Spec.

Lemma rstrip_empty (s : string) : rstrip s = "" <-> blank s.
Proof.
  unfold blank. induction s as [|c s IH]; simpl; [tauto|].
  destruct (rstrip s) eqn:Er; simpl.
  - destruct (is_space c); simpl; [|split; discriminate].
    split; intros _; [apply IH|]; reflexivity.
  - split; [discriminate|]. intros H. apply andb_true_iff in H as [_ H].
    apply IH in H. discriminate H.
Qed.

Lemma blank_lstrip (s : string) : blank (lstrip s) <-> blank s.
Proof.
  unfold blank. induction s as [|c s IH]; simpl; [tauto|].
  destruct (is_space c) eqn:Ec; simpl; [exact IH|].
  rewrite Ec. simpl. tauto.
Qed.

(** A text strips to the empty string exactly when it is blank. *)
Lemma strip_empty (s : string) : strip s = "" <-> blank s.
Proof. unfold strip. rewrite rstrip_empty. apply blank_lstrip. Qed.

Lemma truthy_true (s : string) : truthy s = true <-> s <> "".
Proof.
  destruct s; unfold truthy; simpl; split; intros H;
    solve [discriminate | congruence | reflexivity].
Qed.

Lemma blank_cons_head (c : ascii) (l : list string) :
  is_space c = true -> Forall blank l -> Forall blank (cons_head c l).
Proof.
  intros Hc Hl. destruct l as [|h t]; simpl.
  - constructor; [|constructor]. unfold blank. simpl. rewrite Hc. reflexivity.
  - inversion Hl; subst. constructor; [|assumption].
    unfold blank in *. simpl. rewrite Hc. assumption.
Qed.

(** The pieces of a blank text are blank. *)
Lemma blank_split_aux (sep : string) (s : string) :
  blank s -> forall skip, Forall blank (split_aux sep skip s).
Proof.
  unfold blank at 1. induction s as [|c s IH]; intros Hb skip;
    cbn [split_aux].
  - constructor; [reflexivity|constructor].
  - simpl in Hb. apply andb_true_iff in Hb as [Hc Hs].
    destruct skip; [|auto].
    destruct (startswith sep (String c s)).
    + constructor; [reflexivity|auto].
    + apply blank_cons_head; auto.
Qed.

Lemma join_truthy (sep x : string) (l : list string) :
  truthy x = true -> truthy (join sep (x :: l)) = true.
Proof.
  intros Hx. destruct x as [|c x]; [discriminate|].
  unfold join. simpl. destruct l; reflexivity.
Qed.

Lemma Forall_truthy_filter (l : list string) :
  Forall (fun s => truthy s = true) (List.filter truthy l).
Proof. apply Forall_forall. intros x Hx. apply filter_In in Hx. tauto. Qed.

End StringFacts.

(** ** The parser of generated content *)

Section ParserFacts.
Import PyStr Schemas ContentGenerator Spec.

Local Abbreviation all_truthy := (Forall (fun s : string => truthy s = true)).

(** The sentence loop keeps every chunk and every pending sentence
    non-empty. *)
Lemma chunk_step_truthy (st : chunk_state) (raw : string) :
  all_truthy st.1.1 -> all_truthy st.1.2 ->
  all_truthy (chunk_step st raw).1.1 /\ all_truthy (chunk_step st raw).1.2.
Proof.
  destruct st as [[chunks cur] len]. simpl. intros Hc Hcur.
  unfold chunk_step.
  destruct (is_empty (strip raw)) eqn:Ee; [simpl; auto|].
  assert (truthy (strip raw) = true) as Ht
    by (unfold truthy; rewrite Ee; reflexivity).
  destruct (_ && _) eqn:Eb; simpl.
  - split; [|repeat constructor; exact Ht].
    unfold append. apply Forall_app. split; [exact Hc|].
    constructor; [|constructor].
    apply andb_true_iff in Eb as [_ Eb].
    destruct cur as [|x cur]; [discriminate Eb|].
    apply join_truthy. inversion Hcur; assumption.
  - split; [exact Hc|]. unfold append. apply Forall_app.
    split; [exact Hcur|]. repeat constructor; exact Ht.
Qed.

Lemma chunk_fold_truthy (sentences : list string) (st : chunk_state) :
  all_truthy st.1.1 -> all_truthy st.1.2 ->
  all_truthy (fold_left chunk_step sentences st).1.1 /\
  all_truthy (fold_left chunk_step sentences st).1.2.
Proof.
  revert st. induction sentences as [|x l IH]; intros st H1 H2; simpl;
    [auto|].
  destruct (chunk_step_truthy st x H1 H2). apply IH; assumption.
Qed.

Lemma split_sentences_truthy (text : string) :
  all_truthy (split_sentences text).
Proof.
  unfold split_sentences.
  destruct (chunk_fold_truthy (split LF (replace ". " ("." ++ LF) text))
              ([], [], 0%nat)) as [H1 H2]; [constructor|constructor|].
  destruct (fold_left _ _ _) as [[chunks cur] len]. simpl in *.
  destruct cur as [|x cur]; [exact H1|].
  unfold append. apply Forall_app. split; [exact H1|].
  constructor; [|constructor]. apply join_truthy. inversion H2; assumption.
Qed.

Lemma smarter_split_truthy (g : string) (tweets : list string) :
  all_truthy tweets -> all_truthy (smarter_split g tweets).
Proof.
  intros Ht. unfold smarter_split.
  destruct (1 <? _)%nat.
  - apply Forall_forall. intros x Hx.
    apply in_map_iff in Hx as (p & <- & Hp).
    apply filter_In in Hp. tauto.
  - destruct (400 <? _)%nat; [|exact Ht].
    pose proof (split_sentences_truthy (strip g)) as Hs.
    destruct (split_sentences (strip g)) as [|c cs]; [exact Ht|].
    apply Forall_take. exact Hs.
Qed.

Lemma thread_step_blank (raw : string) :
  blank raw -> thread_step ([], []) raw = ([], []).
Proof.
  intros Hb. apply strip_empty in Hb. unfold thread_step. rewrite Hb.
  reflexivity.
Qed.

Lemma thread_fold_blank (lines : list string) :
  Forall blank lines -> fold_left thread_step lines ([], []) = ([], []).
Proof.
  induction 1 as [|x l Hx Hl IH]; simpl; [reflexivity|].
  rewrite thread_step_blank; assumption.
Qed.

Lemma filter_blank (l : list string) :
  Forall blank l -> List.filter (fun p => truthy (strip p)) l = [].
Proof.
  induction 1 as [|x l Hx Hl IH]; simpl; [reflexivity|].
  apply strip_empty in Hx. rewrite Hx. simpl. exact IH.
Qed.

Lemma parse_thread_blank (g : string) :
  blank g -> parse_thread g = [""].
Proof.
  intros Hb. unfold parse_thread, parse_markers.
  rewrite thread_fold_blank by (apply blank_split_aux; exact Hb).
  simpl. unfold smarter_split.
  rewrite filter_blank by (apply blank_split_aux; exact Hb).
  simpl. apply strip_empty in Hb. rewrite Hb. reflexivity.
Qed.

Lemma parse_thread_truthy (g : string) :
  strip g <> "" -> all_truthy (parse_thread g).
Proof.
  intros Hne. unfold parse_thread.
  assert (all_truthy
            (if (List.length (parse_markers g) <? 2)%nat
             then smarter_split g (parse_markers g)
             else parse_markers g)) as Ht.
  { destruct (_ <? _)%nat; [apply smarter_split_truthy|];
      apply Forall_truthy_filter. }
  match goal with |- Forall _ (match ?l with _ => _ end) =>
    destruct l end; [|exact Ht].
  constructor; [|constructor]. apply truthy_true. exact Hne.
Qed.

(** C4: the numbered text "1/3 first", "2/3 second", "3/3 third", one
    marker a line, parses as a thread into the segments "first", "second",
    "third"; so do the same lines numbered "1/5", "1)" and "1.". *)
Theorem parse_numbered_thread :
  _parse_generated_content (Inputs.numbered "1/3" "2/3" "3/3") THREAD
    = Lst ["first"; "second"; "third"] /\
  _parse_generated_content (Inputs.numbered "1/5" "2/5" "3/5") THREAD
    = Lst ["first"; "second"; "third"] /\
  _parse_generated_content (Inputs.numbered "1)" "2)" "3)") THREAD
    = Lst ["first"; "second"; "third"] /\
  _parse_generated_content (Inputs.numbered "1." "2." "3.") THREAD
    = Lst ["first"; "second"; "third"].
Proof. repeat split; vm_compute; reflexivity. Qed.

(** C5, as the claim states it, fails on the empty text: the last fallback
    returns the trimmed text as the only segment, and that is the empty
    string. *)
Lemma parse_thread_empty_segment :
  ~ exists l, _parse_generated_content "" THREAD = Lst l /\
              l <> [] /\ Forall (fun s => s <> "") l.
Proof.
  intros (l & Hl & _ & Hall). vm_compute in Hl. injection Hl as <-.
  inversion Hall as [|x xs Hx Hxs]. apply Hx. reflexivity.
Qed.

(** C5, amended: parsing a text as a thread returns a list with at least
    one element; every element is a non-empty string when the text has a
    character that is not white space, and for a blank text the result is
    the one-element list of the trimmed text, the empty string. *)
Theorem parse_thread_segments (g : string) :
  exists l, _parse_generated_content g THREAD = Lst l /\
            l <> [] /\
            (strip g <> "" -> Forall (fun s => s <> "") l) /\
            (strip g = "" -> l = [strip g]).
Proof.
  exists (parse_thread g). split; [reflexivity|]. split; [|split].
  - unfold parse_thread.
    match goal with |- match ?l with _ => _ end <> _ => destruct l end;
      discriminate.
  - intros Hne. eapply List.Forall_impl; [|apply parse_thread_truthy, Hne].
    intros s Hs. apply truthy_true, Hs.
  - intros He. rewrite He. apply parse_thread_blank, strip_empty, He.
Qed.

Lemma first_substantial_line_found (pre post : list string) (l : string) :
  Forall (fun p => substantial (strip p) = false) pre ->
  substantial (strip l) = true ->
  first_substantial_line (pre ++ l :: post) = Some (strip l).
Proof.
  intros Hpre Hl. induction Hpre as [|p pre Hp Hpre IH]; simpl.
  - unfold substantial in Hl. rewrite Hl. reflexivity.
  - unfold substantial in Hp. rewrite Hp. exact IH.
Qed.

Lemma first_substantial_line_none (lines : list string) :
  Forall (fun p => substantial (strip p) = false) lines ->
  first_substantial_line lines = None.
Proof.
  induction 1 as [|p l Hp Hl IH]; simpl; [reflexivity|].
  unfold substantial in Hp. rewrite Hp. exact IH.
Qed.

(** C10, as the claim states it, fails on two lines of which the first
    starts with a digit without being a number: the code skips that line,
    the spec's wording keeps it. *)
Lemma parse_single_skips_numbered_line :
  _parse_generated_content Inputs.numbered_first_line TWEET
    = Str "second line" /\
  first_line_spec Inputs.numbered_first_line = "1. Hello world" /\
  _parse_generated_content Inputs.numbered_first_line TWEET
    <> Str (first_line_spec Inputs.numbered_first_line).
Proof.
  split; [vm_compute; reflexivity|].
  split; [vm_compute; reflexivity|]. vm_compute. discriminate.
Qed.

(** C10, amended: for a content type other than THREAD, when the trimmed
    output has more than one line the result is the first line (trimmed)
    that is not empty and does not start with a digit; when there is one
    line only, or no such line, the result is the whole trimmed text. *)
Theorem parse_single_first_line (g : string) (ct : ContentType) :
  ct <> THREAD ->
  let text := strip g in
  let lines := split LF text in
  (forall pre l post,
     (1 < List.length lines)%nat ->
     lines = (pre ++ l :: post)%list ->
     Forall (fun p => substantial (strip p) = false) pre ->
     substantial (strip l) = true ->
     _parse_generated_content g ct = Str (strip l)) /\
  ((List.length lines <= 1)%nat \/
   Forall (fun p => substantial (strip p) = false) lines ->
   _parse_generated_content g ct = Str text).
Proof.
  intros Hct text lines.
  assert (_parse_generated_content g ct = Str (parse_single g)) as ->
    by (destruct ct; [reflexivity|contradiction|reflexivity|reflexivity]).
  unfold parse_single. fold text. fold lines. split.
  - intros pre l post Hlen Hsplit Hpre Hl.
    apply Nat.ltb_lt in Hlen. rewrite Hlen, Hsplit.
    rewrite first_substantial_line_found by assumption. reflexivity.
  - intros [Hlen | Hnone].
    + destruct (1 <? List.length lines)%nat eqn:E; [|reflexivity].
      apply Nat.ltb_lt in E. lia.
    + rewrite first_substantial_line_none by assumption.
      destruct (1 <? List.length lines)%nat; reflexivity.
Qed.

(** The amended C10 at the two lines "1. Hello world" and "second line". *)
Lemma parse_single_first_line_witness :
  TWEET <> THREAD /\
  _parse_generated_content Inputs.numbered_first_line TWEET
    = Str "second line".
Proof.
  split; [discriminate|].
  exact (proj1 (parse_single_first_line Inputs.numbered_first_line TWEET
                  ltac:(discriminate))
           ["1. Hello world"] "second line" []
           ltac:(vm_compute; lia) eq_refl
           ltac:(repeat constructor) eq_refl).
Defined.

End ParserFacts.

(** ** The profile health scorer *)

Section HealthFacts.
Import PyStr PyNum PyList Schemas Analytics ProfileHealth Spec.
Local Open Scope Q_scope.









Lemma nonempty_length_pos {A : Type} (x : A) (l : list A) :
  (0 < List.length (x :: l))%nat.
Proof. simpl. lia. Qed.






Lemma Qsum_acc (l : list Q) (a : Q) : fold_left Qplus l a == a + Qsum l.
Proof.
  unfold Qsum. revert a. induction l as [|x l IH]; intros a; simpl.
  - ring.
  - rewrite IH. rewrite (IH (0 + x)). ring.
Qed.

Lemma Qsum_cons (x : Q) (l : list Q) : Qsum (x :: l) == x + Qsum l.
Proof. unfold Qsum at 1. simpl. rewrite Qsum_acc. ring. Qed.


Lemma mapM_Forall_out {A B : Type} (f : A -> option B) (P : B -> Prop)
    (l : list A) :
  (forall a, exists b, f a = Some b /\ P b) ->
  exists k, mapM f l = Some k /\ Forall P k /\ List.length k = List.length l.
Proof.
  intros Hf. induction l as [|a l (k & Hk & HP & Hlen)].
  - exists []. repeat split; constructor.
  - destruct (Hf a) as (b & Hb & HPb). exists (b :: k).
    cbn [mapM]. rewrite Hb. cbn [mbind option_bind]. rewrite Hk. cbn.
    repeat split; [constructor; assumption | congruence].
Qed.











Lemma dated_times_map (tweets : list Tweet) :
  dated_times tweets = omap id (List.map created_at tweets).
Proof.
  unfold dated_times. induction tweets as [|t l IH]; [reflexivity|].
  cbn [omap list_omap List.map]. rewrite IH. reflexivity.
Qed.

Lemma _score_cadence_daily (tweets : list Tweet) (t0 : datetime) :
  List.map created_at tweets = daily_from t0 10 ->
  _score_cadence tweets = Some (0.9, 70 # 9).
Proof.
  intros Hd. unfold _score_cadence. rewrite dated_times_map, Hd.
  cbn [daily_from seq List.map omap list_omap id].
  cbn [mbind option_bind].
  match goal with |- context [days_between ?a ?b] =>
    assert (days_between a b = 9%Z) as -> end.
  { unfold days_between, maximum, minimum. cbn [fold_left].
    change (Z.of_nat 0) with 0%Z. change (Z.of_nat 1) with 1%Z.
    change (Z.of_nat 2) with 2%Z. change (Z.of_nat 3) with 3%Z.
    change (Z.of_nat 4) with 4%Z. change (Z.of_nat 5) with 5%Z.
    change (Z.of_nat 6) with 6%Z. change (Z.of_nat 7) with 7%Z.
    change (Z.of_nat 8) with 8%Z. change (Z.of_nat 9) with 9%Z.
    assert (0 < MICROS_PER_DAY)%Z as HD by reflexivity.
    generalize dependent MICROS_PER_DAY. intros D HD.
    repeat match goal with
      | |- context [Z.max (t0 + ?a * D) (t0 + ?b * D)] =>
          rewrite (Z.max_r (t0 + a * D) (t0 + b * D)) by lia
      | |- context [Z.min (t0 + ?a * D) (t0 + ?b * D)] =>
          rewrite (Z.min_l (t0 + a * D) (t0 + b * D)) by lia
      end.
    replace (t0 + 9 * D - (t0 + 0 * D))%Z with (9 * D)%Z by lia.
    apply Z.div_mul. lia. }
  vm_compute. reflexivity.
Qed.

(** C7, as the claim states it, fails on ten posts dated day 0 to day 9:
    [posts_per_week] is 70/9, more than a half away from 7, and rounds to
    7.8 and not to 7.0. *)
Lemma cadence_ten_daily_not_seven :
  exists s ppw,
    _score_cadence Inputs.ten_daily_posts = Some (s, ppw) /\
    ppw == 70 # 9 /\
    ~ Qabs (ppw - 7) <= 0.5 /\
    ~ py_round ppw 1 == 7.0.
Proof.
  do 2 eexists. split; [vm_compute; reflexivity|].
  split; [reflexivity|]. split.
  - apply Qlt_not_le. reflexivity.
  - vm_compute. discriminate.
Qed.


End HealthFacts.

(** ** The components of the virality score *)

Section ViralityRanges.
Import PyStr PyNum Schemas Virality Spec Props.
Local Open Scope Q_scope.

Lemma when_range (b : bool) (w : Q) :
  0 <= w -> 0 <= ViralityScorer.when b w /\ ViralityScorer.when b w <= w.
Proof. intros Hw. destruct b; simpl; split; lra. Qed.

Lemma Qmin_1_range (x : Q) : 0 <= x -> unit_range (Qmin 1 x).
Proof.
  intros Hx. split; [apply Q.min_glb; [discriminate|exact Hx]|apply Q.le_min_l].
Qed.

Lemma _length_score_range (n : Z) (ct : ContentType) :
  exists q, ViralityScorer._length_score n ct = Some q /\ unit_range q.
Proof.
  unfold ViralityScorer._length_score.
  assert (exists lo hi, ViralityScorer.ideal_band ct = (lo, hi) /\
            (30 < lo)%Z /\ (lo <= hi)%Z /\ (hi < 280)%Z) as (lo & hi & -> & Hlo & Hmid & Hhi).
  { destruct ct; do 2 eexists; (split; [reflexivity|lia]). }
  destruct (_ || _) eqn:Eout; [eexists; split; [reflexivity|split; discriminate]|].
  apply orb_false_iff in Eout as [E1 E2].
  apply Z.leb_gt in E1. apply Z.leb_gt in E2.
  destruct (n <? lo)%Z eqn:E3.
  - apply Z.ltb_lt in E3. rewrite Z.max_l by lia.
    rewrite py_div_inject_Z by lia. eexists; split; [reflexivity|].
    assert (0 < inject_Z (lo - 30)) as Hpos
      by (change 0 with (inject_Z 0); rewrite <- Zlt_Qlt; lia).
    split.
    + apply Qle_shift_div_l; [exact Hpos|]. rewrite Qmult_0_l.
      change 0 with (inject_Z 0). rewrite <- Zle_Qle. lia.
    + apply Qle_shift_div_r; [exact Hpos|]. rewrite Qmult_1_l.
      rewrite <- Zle_Qle. lia.
  - destruct (hi <? n)%Z eqn:E4; [|eexists; split; [reflexivity|split; discriminate]].
    apply Z.ltb_lt in E4. rewrite Z.max_l by lia.
    rewrite py_div_inject_Z by lia. cbn [mbind option_bind].
    eexists; split; [reflexivity|].
    assert (0 < inject_Z (280 - hi)) as Hpos
      by (change 0 with (inject_Z 0); rewrite <- Zlt_Qlt; lia).
    split; [apply Q.le_max_l|]. apply Q.max_lub; [discriminate|].
    apply Qle_shift_div_r; [exact Hpos|]. rewrite Qmult_1_l.
    rewrite <- Zle_Qle. lia.
Qed.

Lemma _clarity_score_range (a : Q) (len excl : nat) :
  unit_range (ViralityScorer._clarity_score a len excl).
Proof.
  unfold ViralityScorer._clarity_score.
  destruct (Qleb a 0); [split; discriminate|].
  split; [apply Q.le_max_l|]. apply Q.max_lub; [discriminate|apply Q.le_min_l].
Qed.

Lemma _negative_risk_range (t : string) (h m e : nat) (u : Q) :
  unit_range (ViralityScorer._negative_risk t h m e u).
Proof.
  unfold ViralityScorer._negative_risk. apply Qmin_1_range.
  repeat match goal with |- context [if ?b then _ else _] => destruct b end; lra.
Qed.

Lemma _hook_score_range (t : string) : unit_range (ViralityScorer._hook_score t).
Proof.
  destruct (_hook_score_cases t) as [-> | [-> | ->]]; split; discriminate.
Qed.

Lemma _score_text_components (t : string) (ct : ContentType) :
  exists r, ViralityScorer._score_text t ct = Some r /\ components_in_range r.
Proof.
  unfold ViralityScorer._score_text.
  destruct (is_empty (strip t)).
  { eexists; split; [reflexivity|]. intros k v Hk. cbn [components] in Hk.
    rewrite lookup_empty in Hk. discriminate. }
  match goal with |- context [mbind _ ?m] =>
    assert (is_Some m) as [ur ->] end.
  { destruct (0 <? _)%nat eqn:El; [|eauto].
    apply Nat.ltb_lt in El. rewrite (py_div_of_nat _ _ El). eauto. }
  cbn [mbind option_bind].
  match goal with |- context [mbind _ ?m] =>
    assert (is_Some m) as [avg ->] end.
  { destruct (List.map _ _) as [|n l]; [eauto|].
    rewrite py_div_of_nat; [eauto|]. simpl. lia. }
  cbn [mbind option_bind].
  destruct (_length_score_range (Z.of_nat (String.length (strip t))) ct)
    as (ls & -> & Hls0 & Hls1).
  cbn [mbind option_bind].
  eexists; split; [reflexivity|]. intros k v Hk. cbn [components] in Hk.
  pose proof (_hook_score_range (strip t)) as [Hh0 Hh1].
  repeat (apply lookup_insert_Some in Hk as [[<- <-] | [_ Hk]];
          [split; [simpl; tauto|];
           first [ apply _clarity_score_range | apply _negative_risk_range
                 | apply Qmin_1_range ] | ]).
  5: { rewrite lookup_empty in Hk. discriminate. }
  all: repeat match goal with |- context [ViralityScorer.when ?b ?w] =>
         let H := fresh in
         pose proof (when_range b w ltac:(discriminate)) as [H ?];
         generalize dependent (ViralityScorer.when b w); intros end.
  all: try lra.
  match goal with |- context [Qmin 1 ?x] =>
    assert (0 <= Qmin 1 x) by (apply Q.min_glb; [discriminate|lra]);
    generalize dependent (Qmin 1 x); intros end.
  lra.
Qed.

Lemma add_components_lookup (acc comps : gmap string Q) (k : string) :
  ViralityScorer.add_components acc comps !! k =
    match comps !! k with
    | Some v => Some (default 0 (acc !! k) + v)
    | None => acc !! k
    end.
Proof.
  unfold ViralityScorer.add_components. rewrite lookup_merge.
  destruct (acc !! k), (comps !! k); reflexivity.
Qed.

Lemma of_nat_S (i : nat) : of_nat (S i) == of_nat i + 1.
Proof.
  unfold of_nat. rewrite Nat2Z.inj_succ, <- Z.add_1_r, inject_Z_plus.
  reflexivity.
Qed.

Lemma add_components_below (acc : gmap string Q) (i : nat) (r : ViralityResult) :
  sums_below acc i -> components_in_range r ->
  sums_below (ViralityScorer.add_components acc (components r)) (S i).
Proof.
  intros Hacc Hr k. rewrite add_components_lookup, of_nat_S.
  destruct (Hacc k) as (Hin & H0 & H1).
  destruct (components r !! k) as [v|] eqn:Ek; simpl.
  - destruct (Hr k v Ek) as [Hk [? ?]]. split; [intros _; exact Hk|]. lra.
  - split; [exact Hin|]. lra.
Qed.

Lemma fold_components_below (rs : list ViralityResult) (acc : gmap string Q)
    (i : nat) :
  sums_below acc i -> Forall components_in_range rs ->
  sums_below
    (fold_left (fun a r => ViralityScorer.add_components a (components r)) rs acc)
    (i + List.length rs).
Proof.
  intros Hacc Hrs. revert acc i Hacc.
  induction Hrs as [|r rs Hr Hrs IH]; intros acc i Hacc; simpl.
  - rewrite Nat.add_0_r. exact Hacc.
  - rewrite <- Nat.add_succ_comm. apply IH.
    apply add_components_below; assumption.
Qed.

Lemma score_components_ok (content : Content) (ct : ContentType) :
  exists r, ViralityScorer.score content ct = Some r /\ components_in_range r.
Proof.
  unfold ViralityScorer.score.
  set (texts := match content with Lst l => l | Str s => [s] end).
  destruct (mapM_Forall_out (fun text => ViralityScorer._score_text text ct)
              components_in_range texts) as (results & -> & Hall & _).
  { intros t. apply _score_text_components. }
  cbn [mbind option_bind].
  destruct results as [|r0 rs].
  { eexists; split; [reflexivity|]. intros k v Hk. cbn [components] in Hk.
    rewrite lookup_empty in Hk. discriminate. }
  pose proof (fold_components_below (r0 :: rs) ∅ 0) as Hsum.
  cbv beta in Hsum. set (summed := fold_left _ _ _) in *.
  assert (sums_below summed (List.length (r0 :: rs))) as Hb.
  { apply Hsum; [|exact Hall]. intros k. rewrite lookup_empty. simpl.
    split; [intros [? ?]; discriminate|].
    split; [apply Qle_refl|apply Qle_refl]. }
  clear Hsum.
  assert (exists comps,
            ViralityScorer.div_components summed (of_nat (List.length (r0 :: rs)))
              = Some comps /\
            components_ok comps)
    as (comps & -> & Hcomps).
  { unfold ViralityScorer.div_components.
    destruct (size summed =? 0)%nat eqn:Es.
    - apply Nat.eqb_eq, map_size_empty_iff in Es. eexists; split; [reflexivity|].
      intros k v Hk. rewrite Es, lookup_empty in Hk. discriminate.
    - assert (0 < of_nat (List.length (r0 :: rs))) as Hpos.
      { unfold of_nat. change 0 with (inject_Z 0). rewrite <- Zlt_Qlt.
        simpl. lia. }
      destruct (Qeq_bool _ 0) eqn:E.
      { apply Qeq_bool_eq in E. rewrite E in Hpos. discriminate. }
      eexists; split; [reflexivity|]. intros k v Hk.
      rewrite lookup_fmap in Hk. destruct (Hb k) as (Hin & H0 & H1).
      destruct (summed !! k) as [s|]; [|discriminate].
      simpl in *. injection Hk as <-. split; [apply Hin; eauto|]. split.
      + apply Qle_shift_div_l; [exact Hpos|]. lra.
      + apply Qle_shift_div_r; [exact Hpos|]. lra. }
  cbn [mbind option_bind].
  destruct ct; try (destruct texts as [|first ?]);
    (eexists; split; [reflexivity|exact Hcomps]).
Qed.

(** The scorer returns for every content; the components of its result are
    among the six it knows, each between 0 and 1. *)
Theorem score_components (content : Content) (ct : ContentType) :
  exists r, ViralityScorer.score content ct = Some r /\ components_in_range r.
Proof. exact (score_components_ok content ct). Qed.

(* ---- blank texts ---- *)

Lemma blank_no_word (c : ascii) :
  is_space c = true -> is_word (lower_char c) = false.
Proof.
  destruct c as [[] [] [] [] [] [] [] []]; vm_compute; congruence.
Qed.

Lemma words_lower_blank (s : string) : blank s -> words (lower s) = [].
Proof.
  unfold blank, words.
  assert (forall s, all_chars is_space s = true ->
            Forall (fun p => truthy p = false) (runs is_word (lower s))) as H.
  { clear s. induction s as [|c s IH]; intros Hb; simpl.
    - repeat constructor.
    - simpl in Hb. apply andb_true_iff in Hb as [Hc Hs].
      rewrite (blank_no_word c Hc). constructor; [reflexivity|auto]. }
  intros Hb. specialize (H s Hb).
  induction H as [|p l Hp Hl IH]; simpl; [reflexivity|].
  rewrite Hp. exact IH.
Qed.

Lemma _hook_score_blank (s : string) : blank s -> ViralityScorer._hook_score s = 0.
Proof.
  intros Hb. unfold ViralityScorer._hook_score.
  rewrite words_lower_blank by exact Hb. reflexivity.
Qed.

Lemma _score_text_blank (s : string) (ct : ContentType) :
  blank s -> ViralityScorer._score_text s ct = Some empty_result.
Proof.
  intros Hb. apply strip_empty in Hb. unfold ViralityScorer._score_text.
  rewrite Hb. reflexivity.
Qed.

Lemma mapM_blank (texts : list string) (ct : ContentType) :
  Forall blank texts ->
  mapM (fun text => ViralityScorer._score_text text ct) texts
    = Some (repeat empty_result (List.length texts)).
Proof.
  induction 1 as [|t l Ht Hl IH]; [reflexivity|].
  cbn [mapM]. rewrite (_score_text_blank t ct Ht). cbn [mbind option_bind].
  rewrite IH. reflexivity.
Qed.

Lemma fold_empty_results (n : nat) :
  fold_left (fun a r => ViralityScorer.add_components a (components r))
    (repeat empty_result n) ∅ = ∅.
Proof.
  induction n as [|n IH]; [reflexivity|]. simpl.
  unfold ViralityScorer.add_components at 2. rewrite merge_empty. exact IH.
Qed.

Lemma dict_fromkeys_repeat (x : string) (n : nat) :
  ViralityScorer.dict_fromkeys (repeat x (S n)) = [x].
Proof.
  induction n as [|n IH]; [reflexivity|].
  change (repeat x (S (S n))) with (x :: repeat x (S n)).
  cbn [ViralityScorer.dict_fromkeys]. rewrite IH. simpl.
  rewrite String.eqb_refl. reflexivity.
Qed.

Lemma concat_notes_repeat (n : nat) :
  List.concat (List.map notes (repeat empty_result n)) = repeat "Empty content"%string n.
Proof. induction n as [|n IH]; [reflexivity|]. simpl. rewrite IH. reflexivity. Qed.

(** A list of texts that are all empty or white space scores 0, with no
    component and the one note "Empty content". *)
Theorem score_blank_texts (texts : list string) (ct : ContentType) :
  texts <> [] -> Forall blank texts ->
  exists r, ViralityScorer.score (Lst texts) ct = Some r /\
            score r == 0 /\ components r = ∅ /\
            notes r = ["Empty content"%string].
Proof.
  intros Hne Hb. unfold ViralityScorer.score.
  rewrite (mapM_blank texts ct Hb). cbn [mbind option_bind].
  destruct texts as [|t ts]; [contradiction|].
  cbn [List.length repeat].
  change (empty_result :: repeat empty_result (List.length ts))
    with (repeat empty_result (S (List.length ts))).
  rewrite fold_empty_results.
  change (ViralityScorer.div_components ∅ _) with (Some (∅ : gmap string Q)).
  cbn [mbind option_bind].
  rewrite concat_notes_repeat, dict_fromkeys_repeat.
  inversion Hb as [|? ? Ht Hts]; subst.
  rewrite (_hook_score_blank t Ht).
  destruct ct; (eexists; split; [reflexivity|]; cbn [score components notes];
                split; [vm_compute; reflexivity|split; reflexivity]).
Qed.

Lemma score_blank_texts_witness :
  Forall blank ["  "; ""] /\
  exists r, ViralityScorer.score (Lst ["  "; ""]) THREAD = Some r /\
            score r == 0 /\ components r = ∅ /\
            notes r = ["Empty content"%string].
Proof.
  assert (Forall blank ["  "; ""]) as Hb by (repeat constructor).
  split; [exact Hb|].
  apply (score_blank_texts ["  "; ""] THREAD); [discriminate|exact Hb].
Defined.

Lemma round_half_even_mono (x y : Q) :
  x <= y -> (round_half_even x <= round_half_even y)%Z.
Proof.
  intros Hxy. pose proof (Qfloor_resp_le x y Hxy) as Hf.
  unfold round_half_even.
  destruct (Z.eq_dec (Qfloor x) (Qfloor y)) as [E|E].
  - rewrite E.
    destruct (Qltb (x - inject_Z (Qfloor y)) 0.5) eqn:E1;
    destruct (Qltb (y - inject_Z (Qfloor y)) 0.5) eqn:E2;
    destruct (Qltb 0.5 (x - inject_Z (Qfloor y))) eqn:E3;
    destruct (Qltb 0.5 (y - inject_Z (Qfloor y))) eqn:E4;
    destruct (Z.even (Qfloor y)); try lia;
    repeat match goal with
      | H : Qltb _ _ = true |- _ => apply Qltb_true in H
      | H : Qltb _ _ = false |- _ => apply Qltb_false in H
      end; exfalso; lra.
  - assert (Qfloor x + 1 <= Qfloor y)%Z by lia.
    repeat match goal with |- context [if ?b then _ else _] => destruct b end;
      lia.
Qed.

Lemma py_round_mono (x y : Q) (n : nat) :
  x <= y -> py_round x n <= py_round y n.
Proof.
  intros Hxy. unfold py_round. pose proof (scale_pos n) as Hs.
  apply Qmult_le_compat_r.
  - rewrite <- Zle_Qle. apply round_half_even_mono.
    apply Qmult_le_compat_r; [exact Hxy|]. apply Qlt_le_weak, Hs.
  - apply Qlt_le_weak, Qinv_lt_0_compat, Hs.
Qed.

(** The score is the aggregate of the components rounded to one decimal;
    only a thread can score more, by the hook bonus of at most 6 points. *)
Theorem score_hook_bonus (content : Content) (ct : ContentType) :
  exists r, ViralityScorer.score content ct = Some r /\
    let base := ViralityScorer._aggregate_score (components r) in
    (ct <> THREAD -> score r == py_round base 1) /\
    py_round base 1 <= score r /\
    score r <= py_round (base + 6) 1.
Proof.
  unfold ViralityScorer.score.
  set (texts := match content with Lst l => l | Str s => [s] end).
  destruct (per_text_results_is_Some texts ct) as [results ->].
  cbn [mbind option_bind].
  destruct results as [|r0 rs].
  { eexists; split; [reflexivity|]. cbn [score components].
    split; [intros _; vm_compute; reflexivity|]. split; vm_compute; discriminate. }
  set (summed := fold_left _ _ _).
  destruct (div_components_by_length summed r0 rs) as [comps ->].
  cbn [mbind option_bind].
  pose proof (_aggregate_score_bounds comps) as [Hlo Hhi].
  assert (forall x, py_round x 1 <= py_round (x + 6) 1) as Hup
    by (intros x; apply py_round_mono; lra).
  destruct ct; try (destruct texts as [|first ?]);
    (eexists; split; [reflexivity|]; cbn [score components]);
    try (split; [intros _; reflexivity|]; split; [apply Qle_refl|apply Hup]).
  split; [intros H; contradiction|].
  pose proof (_hook_score_range first) as [Hh0 Hh1].
  split; apply py_round_mono.
  - apply Q.min_glb; [exact Hhi|]. lra.
  - eapply Qle_trans; [apply Q.le_min_r|]. lra.
Qed.

End ViralityRanges.

(** ** Trimmed segments, the sentence fallback and round trips *)

Section TrimFacts.
Import PyStr PyNum Schemas ContentGenerator Spec Props.

Lemma append_cons (c : ascii) (a b : string) :
  (String c a ++ b)%string = String c (a ++ b).
Proof. reflexivity. Qed.

Lemma append_nil (b : string) : ("" ++ b)%string = b.
Proof. reflexivity. Qed.

Lemma length_append (a b : string) :
  String.length (a ++ b) = (String.length a + String.length b)%nat.
Proof.
  induction a as [|c a IH]; [reflexivity|].
  rewrite append_cons. simpl. f_equal. exact IH.
Qed.

Lemma append_assoc (a b c : string) : ((a ++ b) ++ c = a ++ (b ++ c))%string.
Proof.
  induction a as [|x a IH]; [reflexivity|].
  rewrite !append_cons. f_equal. exact IH.
Qed.

Lemma lstrip_head (s : string) : head_is is_space (lstrip s) = false.
Proof.
  induction s as [|c s IH]; simpl; [reflexivity|].
  destruct (is_space c) eqn:E; [exact IH|]. simpl. exact E.
Qed.

Lemma lstrip_fixed (s : string) : head_is is_space s = false -> lstrip s = s.
Proof. destruct s as [|c s]; simpl; [reflexivity|]. intros ->. reflexivity. Qed.

Lemma rstrip_head (s : string) :
  head_is is_space s = false -> head_is is_space (rstrip s) = false.
Proof.
  destruct s as [|c s]; simpl; [reflexivity|]. intros Hc. rewrite Hc.
  rewrite andb_false_r. simpl. exact Hc.
Qed.

Lemma rstrip_idem (s : string) : rstrip (rstrip s) = rstrip s.
Proof.
  induction s as [|c s IH]; simpl; [reflexivity|].
  destruct (is_empty (rstrip s) && is_space c) eqn:E; [reflexivity|].
  simpl. rewrite IH, E. reflexivity.
Qed.

(** Trimming twice is trimming once. *)
Lemma strip_idem (s : string) : strip (strip s) = strip s.
Proof.
  unfold strip. rewrite (lstrip_fixed (rstrip (lstrip s))).
  - apply rstrip_idem.
  - apply rstrip_head, lstrip_head.
Qed.

Lemma strip_trimmed (s : string) : trimmed (strip s).
Proof. apply strip_idem. Qed.

Lemma trimmed_ends (s : string) :
  head_is is_space s = false -> rstrip s = s -> trimmed s.
Proof. intros Hh Hr. unfold trimmed, strip. rewrite lstrip_fixed; assumption. Qed.

Lemma trimmed_head (s : string) : trimmed s -> head_is is_space s = false.
Proof.
  unfold trimmed, strip. intros <-. apply rstrip_head, lstrip_head.
Qed.

Lemma trimmed_rstrip (s : string) : trimmed s -> rstrip s = s.
Proof.
  unfold trimmed, strip. intros H. rewrite <- H at 1. rewrite rstrip_idem.
  exact H.
Qed.

Lemma rstrip_append (a b : string) :
  rstrip b <> "" -> rstrip (a ++ b) = (a ++ rstrip b)%string.
Proof.
  intros Hb. induction a as [|c a IH]; [reflexivity|].
  rewrite !append_cons. cbn [rstrip]. rewrite IH.
  destruct (a ++ rstrip b)%string eqn:E; [|reflexivity].
  destruct a; [rewrite append_nil in E; contradiction|discriminate].
Qed.

Lemma head_append (a b : string) :
  a <> "" -> head_is is_space (a ++ b) = head_is is_space a.
Proof. destruct a; [contradiction|reflexivity]. Qed.

(** Joining trimmed, non-empty pieces with single spaces gives a trimmed
    text. *)
Lemma join_trimmed (l : list string) :
  l <> [] -> Forall (fun s => s <> "" /\ trimmed s) l ->
  join " " l <> "" /\ trimmed (join " " l).
Proof.
  intros Hne Hall. induction Hall as [|x l [Hx Ht] Hl IH]; [contradiction|].
  unfold join in *. destruct l as [|y l].
  - simpl. split; assumption.
  - destruct IH as [IHne IHt]; [discriminate|].
    change (concat " " (x :: y :: l)) with (x ++ " " ++ concat " " (y :: l))%string.
    split; [destruct x; [contradiction|discriminate]|].
    apply trimmed_ends.
    + rewrite head_append by exact Hx. apply trimmed_head, Ht.
    + assert (rstrip (" " ++ concat " " (y :: l)) = " " ++ concat " " (y :: l))%string
        as Hr.
      { rewrite rstrip_append; rewrite (trimmed_rstrip _ IHt);
          [reflexivity|exact IHne]. }
      rewrite rstrip_append; rewrite Hr; [reflexivity|discriminate].
Qed.

Lemma flush_trimmed (st : parse_state) :
  Forall trimmed st.1 -> Forall trimmed (flush st).
Proof.
  intros H. unfold flush. destruct st.2; [exact H|].
  unfold append. apply Forall_app. split; [exact H|].
  constructor; [apply strip_trimmed|constructor].
Qed.

Lemma thread_step_trimmed (st : parse_state) (line : string) :
  Forall trimmed st.1 -> Forall trimmed (thread_step st line).1.
Proof.
  intros H. unfold thread_step.
  repeat match goal with |- context [if ?b then _ else _] => destruct b end;
    simpl; first [apply flush_trimmed; exact H | exact H].
Qed.

Lemma thread_fold_trimmed (lines : list string) (st : parse_state) :
  Forall trimmed st.1 -> Forall trimmed (fold_left thread_step lines st).1.
Proof.
  revert st. induction lines as [|x l IH]; intros st H; simpl; [exact H|].
  apply IH, thread_step_trimmed, H.
Qed.

Lemma Forall_filter_keep {A : Type} (P : A -> Prop) (f : A -> bool)
    (l : list A) :
  Forall P l -> Forall P (List.filter f l).
Proof.
  intros H. apply Forall_forall. intros x Hx. apply filter_In in Hx as [Hx _].
  rewrite Forall_forall in H. apply H. exact Hx.
Qed.

Lemma parse_markers_trimmed (g : string) : Forall trimmed (parse_markers g).
Proof.
  unfold parse_markers. apply Forall_filter_keep, flush_trimmed.
  apply thread_fold_trimmed. constructor.
Qed.

Lemma chunk_step_pieces (st : chunk_state) (raw : string) :
  Forall trimmed st.1.1 -> Forall piece st.1.2 ->
  Forall trimmed (chunk_step st raw).1.1 /\ Forall piece (chunk_step st raw).1.2.
Proof.
  destruct st as [[chunks cur] len]. simpl. intros Hc Hcur.
  unfold chunk_step.
  destruct (is_empty (strip raw)) eqn:Ee; [simpl; auto|].
  assert (piece (strip raw)) as Hp.
  { split; [|apply strip_trimmed]. intros E. rewrite E in Ee. discriminate. }
  destruct (_ && _) eqn:Eb; simpl.
  - split; [|repeat constructor; apply Hp].
    unfold append. apply Forall_app. split; [exact Hc|].
    constructor; [|constructor].
    apply andb_true_iff in Eb as [_ Eb].
    apply join_trimmed; [|exact Hcur].
    intros E. rewrite E in Eb. discriminate.
  - split; [exact Hc|]. unfold append. apply Forall_app.
    split; [exact Hcur|]. repeat constructor; apply Hp.
Qed.

Lemma chunk_fold_pieces (sentences : list string) (st : chunk_state) :
  Forall trimmed st.1.1 -> Forall piece st.1.2 ->
  Forall trimmed (fold_left chunk_step sentences st).1.1 /\
  Forall piece (fold_left chunk_step sentences st).1.2.
Proof.
  revert st. induction sentences as [|x l IH]; intros st H1 H2; simpl;
    [auto|].
  destruct (chunk_step_pieces st x H1 H2). apply IH; assumption.
Qed.

Lemma split_sentences_trimmed (text : string) :
  Forall trimmed (split_sentences text).
Proof.
  unfold split_sentences.
  destruct (chunk_fold_pieces (split LF (replace ". " ("." ++ LF) text))
              ([], [], 0%nat)) as [H1 H2]; [constructor|constructor|].
  destruct (fold_left _ _ _) as [[chunks cur] len]. simpl in *.
  destruct cur as [|x cur]; [exact H1|].
  unfold append. apply Forall_app. split; [exact H1|].
  constructor; [|constructor]. apply join_trimmed; [discriminate|exact H2].
Qed.

Lemma smarter_split_trimmed (g : string) (tweets : list string) :
  Forall trimmed tweets -> Forall trimmed (smarter_split g tweets).
Proof.
  intros Ht. unfold smarter_split.
  destruct (1 <? _)%nat.
  - apply Forall_forall. intros x Hx.
    apply in_map_iff in Hx as (p & <- & Hp). apply strip_trimmed.
  - destruct (400 <? _)%nat; [|exact Ht].
    pose proof (split_sentences_trimmed (strip g)) as Hs.
    destruct (split_sentences (strip g)) as [|c cs]; [exact Ht|].
    apply Forall_take. exact Hs.
Qed.

(** Every segment of a parsed thread is trimmed. *)
Theorem parse_thread_trimmed (g : string) :
  Forall (fun s => strip s = s) (parse_thread g).
Proof.
  unfold parse_thread.
  assert (Forall trimmed
            (if (List.length (parse_markers g) <? 2)%nat
             then smarter_split g (parse_markers g)
             else parse_markers g)) as Ht.
  { destruct (_ <? _)%nat; [apply smarter_split_trimmed|];
      apply parse_markers_trimmed. }
  match goal with |- Forall _ (match ?l with _ => _ end) =>
    destruct l end; [|exact Ht].
  constructor; [apply strip_idem|constructor].
Qed.

Lemma join_snoc (cur : list string) (s : string) :
  cur <> [] -> join " " (append cur s) = (join " " cur ++ " " ++ s)%string.
Proof.
  unfold join, append. induction cur as [|x cur IH]; [contradiction|]. intros _.
  destruct cur as [|y cur]; [reflexivity|].
  change (concat " " ((x :: y :: cur) ++ [s])%list)
    with (x ++ " " ++ concat " " ((y :: cur) ++ [s])%list)%string.
  rewrite IH by discriminate.
  change (concat " " (x :: y :: cur)) with (x ++ " " ++ concat " " (y :: cur))%string.
  rewrite !append_assoc. reflexivity.
Qed.

Lemma chunk_step_inv (S : list string) (st : chunk_state) (raw : string) :
  In (strip raw) S -> chunk_inv S st -> chunk_inv S (chunk_step st raw).
Proof.
  destruct st as [[chunks cur] len]. unfold chunk_inv. simpl.
  intros Hin (Hc & Hlen0 & Hcur). unfold chunk_step.
  destruct (is_empty (strip raw)) eqn:Ee; [simpl; auto|].
  destruct (_ && _) eqn:Eb; simpl.
  - apply andb_true_iff in Eb as [_ Eb].
    assert (cur <> []) as Hne by (intros E; rewrite E in Eb; discriminate).
    destruct (Hcur Hne) as [Hl Hs].
    split; [|split; [discriminate|intros _; split;
      [unfold join; simpl; lia|right; eauto]]].
    unfold append. apply Forall_app. split; [exact Hc|].
    constructor; [|constructor]. unfold chunk_ok.
    destruct Hs as [Hs | (s & -> & Hs)]; [left; lia|right; exact Hs].
  - split; [exact Hc|]. split; [unfold append; destruct cur; discriminate|].
    intros _. destruct cur as [|x cur].
    + rewrite (Hlen0 eq_refl). unfold append, join. simpl.
      split; [lia|right; eauto].
    + destruct (Hcur ltac:(discriminate)) as [Hl Hs].
      rewrite join_snoc by discriminate.
      rewrite !length_append. change (String.length " ") with 1%nat.
      apply andb_false_iff in Eb as [Eb|Eb]; [|discriminate Eb].
      apply Nat.ltb_ge in Eb. split; [lia|left; lia].
Qed.

Lemma chunk_fold_inv (S : list string) (sentences : list string)
    (st : chunk_state) :
  Forall (fun raw => In (strip raw) S) sentences ->
  chunk_inv S st -> chunk_inv S (fold_left chunk_step sentences st).
Proof.
  intros Hall. revert st. induction Hall as [|x l Hx Hl IH]; intros st H;
    simpl; [exact H|].
  apply IH, chunk_step_inv; assumption.
Qed.

Lemma split_sentences_chunk_ok (text : string) :
  Forall (chunk_ok (sentences_of text)) (split_sentences text).
Proof.
  unfold split_sentences, sentences_of.
  set (raws := split LF (replace ". " ("." ++ LF) text)).
  pose proof (chunk_fold_inv (List.map strip raws) raws ([], [], 0%nat)) as H.
  destruct H as (Hc & _ & Hcur).
  { apply Forall_forall. intros x Hx. apply in_map. exact Hx. }
  { split; [constructor|]. split; [reflexivity|]. intros E. contradiction. }
  destruct (fold_left _ _ _) as [[chunks cur] len]. simpl in *.
  destruct cur as [|x cur]; [exact Hc|].
  destruct (Hcur ltac:(discriminate)) as [Hl Hs].
  unfold append. apply Forall_app. split; [exact Hc|].
  constructor; [|constructor]. unfold chunk_ok.
  destruct Hs as [Hs | (s & E & Hs)]; [left; lia|right].
  injection E as -> ->. exact Hs.
Qed.

(** A chunk of the sentence fallback is at most 260 characters long unless
    it is a single sentence. *)
Theorem split_sentences_chunks (text : string) :
  Forall (chunk_ok (sentences_of text)) (split_sentences text).
Proof. exact (split_sentences_chunk_ok text). Qed.

Lemma startswith_LF (c : ascii) (s : string) :
  startswith LF (String c s) = true -> is_space c = true.
Proof.
  unfold startswith, LF. cbn [String.prefix].
  match goal with |- context [ascii_dec ?a c] =>
    destruct (ascii_dec a c) as [<-|]; [|discriminate] end.
  intros _. reflexivity.
Qed.

Lemma blank_cons_head_inv (c : ascii) (l : list string) :
  Forall blank (cons_head c l) -> is_space c = true /\ Forall blank l.
Proof.
  destruct l as [|h t]; simpl; intros H; inversion H as [|? ? Hh Ht]; subst.
  - unfold blank in Hh. simpl in Hh. apply andb_true_iff in Hh as [Hc _].
    split; [exact Hc|constructor].
  - unfold blank in Hh. simpl in Hh. apply andb_true_iff in Hh as [Hc Hh].
    split; [exact Hc|]. constructor; assumption.
Qed.

(** A text whose lines are all blank is blank. *)
Lemma blank_lines (s : string) : Forall blank (split LF s) -> blank s.
Proof.
  unfold split, blank. induction s as [|c s IH]; [reflexivity|].
  cbn [split_aux]. destruct (startswith LF (String c s)) eqn:E.
  - intros H. inversion H as [|? ? _ Hs]; subst. simpl.
    rewrite (startswith_LF c s E). apply IH. exact Hs.
  - intros H. apply blank_cons_head_inv in H as [Hc Hs]. simpl.
    rewrite Hc. apply IH. exact Hs.
Qed.

Lemma blank_replace (s : string) :
  blank (replace ". " ("." ++ LF) s) -> blank s.
Proof.
  unfold replace, blank. induction s as [|c s IH]; [reflexivity|].
  cbn [replace_aux]. destruct (startswith ". " (String c s)).
  - intros H. discriminate H.
  - simpl. intros H. apply andb_true_iff in H as [Hc Hs]. rewrite Hc.
    apply IH. exact Hs.
Qed.

Lemma chunk_step_cur (st : chunk_state) (raw : string) :
  (chunk_step st raw).1.2 = [] -> st.1.2 = [] /\ blank raw.
Proof.
  destruct st as [[chunks cur] len]. unfold chunk_step. simpl.
  destruct (is_empty (strip raw)) eqn:Ee.
  - simpl. intros ->. split; [reflexivity|].
    apply strip_empty. destruct (strip raw); [reflexivity|discriminate].
  - destruct (_ && _); simpl; [discriminate|].
    unfold append. destruct cur; discriminate.
Qed.

Lemma chunk_fold_cur (sentences : list string) (st : chunk_state) :
  (fold_left chunk_step sentences st).1.2 = [] ->
  st.1.2 = [] /\ Forall blank sentences.
Proof.
  revert st. induction sentences as [|x l IH]; intros st H; simpl in *.
  - split; [exact H|constructor].
  - destruct (IH _ H) as [H1 H2]. destruct (chunk_step_cur st x H1) as [H3 H4].
    split; [exact H3|constructor; assumption].
Qed.

(** The sentence fallback finds a chunk in every text that is not blank. *)
Lemma split_sentences_nonempty (text : string) :
  strip text <> "" -> split_sentences text <> [].
Proof.
  intros Hne. unfold split_sentences.
  destruct (fold_left _ _ _) as [[chunks cur] len] eqn:Ef.
  destruct cur as [|x cur]; [|unfold append; destruct chunks; discriminate].
  exfalso. apply Hne. apply strip_empty, blank_replace, blank_lines.
  pose proof (chunk_fold_cur (split LF (replace ". " ("." ++ LF) text))
                ([], [], 0%nat)) as H.
  rewrite Ef in H. apply H. reflexivity.
Qed.

(** A text of more than 400 characters without numbered segments and
    without paragraphs is cut at its sentences: one to ten chunks, each at
    most 260 characters long unless it is a single sentence. *)
Theorem parse_thread_sentence_fallback (g : string) :
  (List.length (parse_markers g) < 2)%nat ->
  (List.length (paragraphs_of g) <= 1)%nat ->
  (400 < String.length (strip g))%nat ->
  parse_thread g = firstn 10 (split_sentences (strip g)) /\
  (1 <= List.length (parse_thread g) <= 10)%nat /\
  Forall (chunk_ok (sentences_of (strip g))) (parse_thread g).
Proof.
  intros Hm Hp Hlen.
  assert (strip (strip g) <> "") as Hne.
  { rewrite strip_idem. intros E. rewrite E in Hlen.
    apply Nat.ltb_lt in Hlen. discriminate Hlen. }
  pose proof (split_sentences_nonempty (strip g) Hne) as Hc.
  assert (parse_thread g = firstn 10 (split_sentences (strip g))) as E.
  { unfold parse_thread. apply Nat.ltb_lt in Hm. rewrite Hm.
    unfold smarter_split. fold (paragraphs_of g).
    assert ((1 <? List.length (paragraphs_of g))%nat = false) as ->
      by (apply Nat.ltb_ge; exact Hp).
    apply Nat.ltb_lt in Hlen. rewrite Hlen.
    destruct (split_sentences (strip g)) as [|c cs]; [contradiction|].
    reflexivity. }
  rewrite E. split; [reflexivity|]. split.
  - rewrite length_firstn.
    destruct (split_sentences (strip g)); [contradiction|].
    cbn [List.length]. lia.
  - apply Forall_take, split_sentences_chunk_ok.
Qed.

Lemma parse_thread_sentence_fallback_witness :
  (List.length (parse_markers ten_sentences) < 2)%nat /\
  (List.length (paragraphs_of ten_sentences) <= 1)%nat /\
  (400 < String.length (strip ten_sentences))%nat /\
  parse_thread ten_sentences
  = firstn 10 (split_sentences (strip ten_sentences)) /\
  (1 <= List.length (parse_thread ten_sentences) <= 10)%nat /\
  Forall (chunk_ok (sentences_of (strip ten_sentences)))
    (parse_thread ten_sentences).
Proof.
  assert ((List.length (parse_markers ten_sentences) < 2)%nat) as H1
    by (apply Nat.ltb_lt; vm_compute; reflexivity).
  assert ((List.length (paragraphs_of ten_sentences) <= 1)%nat) as H2
    by (apply Nat.leb_le; vm_compute; reflexivity).
  assert ((400 < String.length (strip ten_sentences))%nat) as H3
    by (apply Nat.ltb_lt; vm_compute; reflexivity).
  split; [exact H1|]. split; [exact H2|]. split; [exact H3|].
  apply (parse_thread_sentence_fallback ten_sentences H1 H2 H3).
Defined.

Lemma startswith_LF_eqb (c : ascii) (s : string) :
  startswith LF (String c s) = Ascii.eqb c (ascii_of_nat 10).
Proof.
  unfold startswith, LF. cbn [String.prefix].
  match goal with |- context [ascii_dec ?a c] =>
    destruct (ascii_dec a c) as [<-|Hne] end.
  - destruct s; reflexivity.
  - symmetry. apply Ascii.eqb_neq. congruence.
Qed.

Lemma one_line_cons_head (c : ascii) (l : list string) :
  not_lf c = true -> Forall one_line l -> Forall one_line (cons_head c l).
Proof.
  intros Hc Hl. destruct l as [|h t]; simpl.
  - constructor; [|constructor]. unfold one_line. simpl. rewrite Hc. reflexivity.
  - inversion Hl; subst. constructor; [|assumption].
    unfold one_line in *. simpl. rewrite Hc. assumption.
Qed.

(** The lines of a text hold no line feed. *)
Lemma split_LF_one_line (s : string) : Forall one_line (split LF s).
Proof.
  unfold split. induction s as [|c s IH]; cbn [split_aux].
  - constructor; [reflexivity|constructor].
  - rewrite startswith_LF_eqb. destruct (Ascii.eqb c _) eqn:E.
    + constructor; [reflexivity|exact IH].
    + apply one_line_cons_head; [unfold not_lf; rewrite E; reflexivity|exact IH].
Qed.

Lemma split_LF_single (s : string) : one_line s -> split LF s = [s].
Proof.
  unfold split, one_line. induction s as [|c s IH]; [reflexivity|].
  cbn [split_aux all_chars]. intros H. apply andb_true_iff in H as [Hc Hs].
  rewrite startswith_LF_eqb. unfold not_lf in Hc. apply negb_true_iff in Hc.
  rewrite Hc, (IH Hs). reflexivity.
Qed.

Lemma all_chars_lstrip (p : ascii -> bool) (s : string) :
  all_chars p s = true -> all_chars p (lstrip s) = true.
Proof.
  induction s as [|c s IH]; [reflexivity|]. simpl. intros H.
  destruct (is_space c); [|exact H].
  apply andb_true_iff in H as [_ H]. apply IH, H.
Qed.

Lemma all_chars_rstrip (p : ascii -> bool) (s : string) :
  all_chars p s = true -> all_chars p (rstrip s) = true.
Proof.
  induction s as [|c s IH]; [reflexivity|]. simpl. intros H.
  apply andb_true_iff in H as [Hc H].
  destruct (_ && _); [reflexivity|]. simpl. rewrite Hc. apply IH, H.
Qed.

Lemma all_chars_strip (p : ascii -> bool) (s : string) :
  all_chars p s = true -> all_chars p (strip s) = true.
Proof. intros H. apply all_chars_rstrip, all_chars_lstrip, H. Qed.

Lemma first_substantial_line_in (lines : list string) (r : string) :
  first_substantial_line lines = Some r ->
  exists l, In l lines /\ r = strip l.
Proof.
  induction lines as [|x l IH]; [discriminate|]. simpl.
  destruct (_ && _).
  - intros [= <-]. exists x. split; [left; reflexivity|reflexivity].
  - intros H. destruct (IH H) as (y & Hy & ->). exists y. split; [right; exact Hy|reflexivity].
Qed.

(** Parsing the result of the single-post parser again changes nothing. *)
Theorem parse_single_idempotent (g : string) :
  parse_single (parse_single g) = parse_single g.
Proof.
  assert (parse_single (strip g) = parse_single g) as Htext
    by (unfold parse_single; rewrite strip_idem; reflexivity).
  assert (forall l, one_line l -> parse_single (strip l) = strip l) as Hline.
  { intros l Hl. unfold parse_single. rewrite strip_idem.
    rewrite (split_LF_single (strip l)) by (apply all_chars_strip, Hl).
    reflexivity. }
  destruct (1 <? List.length (split LF (strip g)))%nat eqn:E.
  - destruct (first_substantial_line (split LF (strip g))) as [r|] eqn:Ef.
    + assert (parse_single g = r) as ->
        by (unfold parse_single; rewrite E, Ef; reflexivity).
      apply first_substantial_line_in in Ef as (l & Hl & ->).
      apply Hline. pose proof (split_LF_one_line (strip g)) as Hall.
      rewrite Forall_forall in Hall. apply Hall, Hl.
    + assert (parse_single g = strip g) as Hg
        by (unfold parse_single; rewrite E, Ef; reflexivity).
      rewrite Hg at 1. rewrite Htext. reflexivity.
  - assert (parse_single g = strip g) as Hg
      by (unfold parse_single; rewrite E; reflexivity).
    rewrite Hg at 1. rewrite Htext. reflexivity.
Qed.

Lemma startswith_append (p a b : string) :
  startswith p a = true -> startswith p (a ++ b) = true.
Proof.
  unfold startswith. revert a. induction p as [|c p IH]; intros a.
  - intros _. destruct (a ++ b)%string; reflexivity.
  - destruct a as [|d a]; [discriminate|]. rewrite append_cons.
    cbn [String.prefix]. destruct (ascii_dec c d); [apply IH|discriminate].
Qed.

Lemma startswith_empty (s : string) : startswith "" s = true.
Proof. destruct s; reflexivity. Qed.

Lemma contains_append (p a b : string) :
  contains p a = true -> contains p (a ++ b) = true.
Proof.
  induction a as [|c a IH].
  - simpl. intros Hp. destruct p; [|discriminate].
    rewrite append_nil. destruct b; [reflexivity|]. cbn [contains].
    apply orb_true_iff. left. apply startswith_empty.
  - rewrite append_cons. cbn [contains]. intros H.
    apply orb_true_iff in H as [H|H]; apply orb_true_iff.
    + left. rewrite <- append_cons. apply startswith_append, H.
    + right. apply IH, H.
Qed.

Lemma take_append (n : nat) (a b : string) :
  exists c, take n (a ++ b) = (take n a ++ c)%string.
Proof.
  revert a. induction n as [|n IH]; intros a.
  - exists "". reflexivity.
  - destruct a as [|x a].
    + exists (take (S n) b). reflexivity.
    + rewrite append_cons. cbn [take]. destruct (IH a) as [c ->].
      exists c. reflexivity.
Qed.

Lemma has_marker_append (m x : string) :
  has_marker m = true -> has_marker (m ++ x) = true.
Proof.
  unfold has_marker. intros H. apply existsb_exists in H as (p & Hp & H).
  apply existsb_exists. exists p. split; [exact Hp|].
  destruct (take_append 6 m x) as [c ->]. apply contains_append, H.
Qed.

Lemma scan_marker_end_marker (m t : string) (i : nat) :
  all_chars marker_char m = true -> (0 < i + String.length m)%nat ->
  scan_marker_end i (m ++ " " ++ t) = Some (i + String.length m + 1)%nat.
Proof.
  revert i. induction m as [|c m IH]; intros i Hm Hpos.
  - rewrite append_nil. change (" " ++ t)%string with (String " " t).
    cbn [scan_marker_end]. simpl in Hpos.
    assert ((0 <? i)%nat = true) as -> by (apply Nat.ltb_lt; lia).
    simpl. f_equal. lia.
  - rewrite append_cons. cbn [scan_marker_end all_chars] in *.
    apply andb_true_iff in Hm as [Hc Hm]. unfold marker_char in Hc.
    apply andb_true_iff in Hc as [_ Hc]. apply negb_true_iff in Hc.
    rewrite Hc, andb_false_r. rewrite IH; [|exact Hm|lia].
    f_equal. simpl. lia.
Qed.

Lemma drop_append (a b : string) : drop (String.length a) (a ++ b) = b.
Proof. induction a as [|c a IH]; [destruct b; reflexivity|]. exact IH. Qed.

Lemma marker_char_one_line (m : string) :
  all_chars marker_char m = true -> one_line m.
Proof.
  unfold one_line. induction m as [|c m IH]; [reflexivity|]. simpl.
  intros H. apply andb_true_iff in H as [Hc Hm]. rewrite (IH Hm), andb_true_r.
  unfold marker_char in Hc. apply andb_true_iff in Hc as [Hc _].
  unfold not_lf. destruct (Ascii.eqb c _) eqn:E; [|reflexivity].
  apply Ascii.eqb_eq in E. subst c. discriminate Hc.
Qed.

Lemma one_line_append (a b : string) :
  one_line a -> one_line b -> one_line (a ++ b).
Proof.
  unfold one_line. induction a as [|c a IH]; [intros _ H; exact H|].
  rewrite append_cons. simpl. intros H Hb. apply andb_true_iff in H as [Hc Ha].
  rewrite Hc. apply IH; assumption.
Qed.

Section NumberedLine.

Variables (m t : string).

Hypothesis Hm : marker_ok m.

Hypothesis Ht : body_ok t.

Lemma marker_nonempty : m <> "".
Proof. destruct Hm as [Hd _]. destruct m; [discriminate|discriminate]. Qed.

Lemma numbered_line_one_line : one_line (numbered_line (m, t)).
Proof.
  unfold numbered_line. simpl. destruct Hm as (_ & _ & Hc), Ht as (_ & _ & Hl).
  apply one_line_append; [apply marker_char_one_line, Hc|].
  apply (one_line_append " " t); [reflexivity|exact Hl].
Qed.

Lemma numbered_line_trimmed : strip (numbered_line (m, t)) = numbered_line (m, t).
Proof.
  unfold numbered_line. simpl. destruct Hm as (Hd & _ & Hc), Ht as (Hne & Hs & _).
  apply trimmed_ends.
  - rewrite head_append by apply marker_nonempty.
    destruct m as [|c m']; [discriminate|]. simpl in *.
    apply andb_true_iff in Hc as [Hc _]. unfold marker_char in Hc.
    apply andb_true_iff in Hc as [Hc _]. apply negb_true_iff, Hc.
  - assert (rstrip (" " ++ t) = " " ++ t)%string as Hr.
    { rewrite rstrip_append; rewrite (trimmed_rstrip t Hs);
        [reflexivity|exact Hne]. }
    rewrite rstrip_append; rewrite Hr; [reflexivity|discriminate].
Qed.

Lemma thread_step_numbered (st : parse_state) :
  thread_step st (numbered_line (m, t)) = (flush st, [t]).
Proof.
  unfold thread_step. rewrite numbered_line_trimmed.
  unfold numbered_line. simpl. destruct Hm as (Hd & Hk & Hc), Ht as (Hne & Hs & _).
  pose proof marker_nonempty as Hmne.
  assert (is_empty (m ++ " " ++ t) = false) as ->
    by (destruct m; [contradiction|reflexivity]).
  assert (truthy (m ++ " " ++ t) = true) as ->
    by (destruct m; [contradiction|reflexivity]).
  assert (head_is is_digit (m ++ " " ++ t) = true) as ->
    by (destruct m; [contradiction|exact Hd]).
  rewrite (has_marker_append m _ Hk). simpl.
  unfold marker_end. rewrite (scan_marker_end_marker m t 0 Hc)
    by (destruct m; [contradiction|simpl; lia]).
  simpl. replace (String.length m + 1)%nat with (String.length (m ++ " ")).
  - rewrite <- append_assoc, drop_append, Hs.
    destruct t; [contradiction|reflexivity].
  - rewrite length_append. reflexivity.
Qed.

End NumberedLine.

Lemma split_LF_append (x r : string) :
  one_line x -> split LF (x ++ LF ++ r) = x :: split LF r.
Proof.
  unfold split, one_line. induction x as [|c x IH].
  - intros _. rewrite append_nil.
    change (LF ++ r)%string with (String (ascii_of_nat 10) r).
    cbn [split_aux]. rewrite startswith_LF_eqb, Ascii.eqb_refl. reflexivity.
  - rewrite append_cons. cbn [split_aux all_chars]. intros H.
    apply andb_true_iff in H as [Hc Hx].
    rewrite startswith_LF_eqb. unfold not_lf in Hc. apply negb_true_iff in Hc.
    rewrite Hc, (IH Hx). reflexivity.
Qed.

(** Joining lines with line feeds and splitting again gives the lines
    back. *)
Lemma split_LF_join (lines : list string) :
  lines <> [] -> Forall one_line lines -> split LF (join LF lines) = lines.
Proof.
  induction lines as [|x [|y rest] IH]; intros Hne Hl.
  - contradiction.
  - apply (split_LF_single x). inversion Hl; assumption.
  - inversion Hl as [|? ? Hx Hrest]; subst.
    unfold join in *. cbn [String.concat].
    rewrite (split_LF_append x _ Hx). f_equal.
    apply IH; [discriminate|exact Hrest].
Qed.

Lemma flush_single (tweets : list string) (t : string) :
  strip t = t -> flush (tweets, [t]) = append tweets t.
Proof. intros Ht. unfold flush. simpl. rewrite Ht. reflexivity. Qed.

Lemma thread_fold_numbered (segs : list (string * string)) (st : parse_state) :
  Forall segment_ok segs ->
  flush (fold_left thread_step (map numbered_line segs) st)
  = (flush st ++ map snd segs)%list.
Proof.
  revert st. induction segs as [|[m t] segs IH]; intros st Hs.
  - simpl. rewrite app_nil_r. reflexivity.
  - inversion Hs as [|? ? [Hm Ht] Hrest]; subst. simpl in Hm, Ht.
    cbn [map fold_left]. rewrite (thread_step_numbered m t Hm Ht st).
    rewrite (IH _ Hrest). rewrite flush_single by apply Ht.
    unfold append. rewrite <- app_assoc. reflexivity.
Qed.

Lemma filter_truthy_bodies (segs : list (string * string)) :
  Forall segment_ok segs -> List.filter truthy (map snd segs) = map snd segs.
Proof.
  induction 1 as [|[m t] segs [_ (Hne & _)] _ IH]; [reflexivity|].
  simpl in *. destruct t; [contradiction|]. simpl. rewrite IH. reflexivity.
Qed.

(** Round trip: a thread written as numbered lines is parsed back to its
    segments. *)
Theorem parse_thread_numbered (segs : list (string * string)) :
  (2 <= List.length segs)%nat -> Forall segment_ok segs ->
  parse_thread (join LF (map numbered_line segs)) = map snd segs.
Proof.
  intros Hlen Hs.
  assert (parse_markers (join LF (map numbered_line segs)) = map snd segs) as Hp.
  { unfold parse_markers. rewrite split_LF_join.
    - rewrite (thread_fold_numbered segs _ Hs). simpl.
      apply filter_truthy_bodies, Hs.
    - destruct segs; [simpl in Hlen; lia|discriminate].
    - clear Hlen. induction Hs as [|[m t] segs [Hm Ht] _ IH]; constructor.
      + apply numbered_line_one_line; assumption.
      + exact IH. }
  unfold parse_thread. rewrite Hp.
  assert ((List.length (map snd segs) <? 2)%nat = false) as ->
    by (apply Nat.ltb_ge; rewrite length_map; exact Hlen).
  destruct segs; [simpl in Hlen; lia|reflexivity].
Qed.

Lemma parse_thread_numbered_witness :
  parse_thread
    (join LF (map numbered_line
       [("1/3", "first"); ("2/3", "second"); ("3/3", "third")]))
  = ["first"; "second"; "third"].
Proof.
  apply (parse_thread_numbered
           [("1/3", "first"); ("2/3", "second"); ("3/3", "third")]).
  - simpl. lia.
  - repeat constructor; try reflexivity; discriminate.
Defined.

End TrimFacts.

(** ** The sub-scores and the recommendations *)

Section HealthMore.
Import PyStr PyNum PyList Schemas Analytics ProfileHealth Spec Props.
Local Open Scope Q_scope.

Ltac Qcases :=
  repeat match goal with
  | |- context [if Qleb ?a ?b then _ else _] =>
      let E := fresh "E" in
      destruct (Qleb a b) eqn:E;
      [apply Qleb_true in E | apply Qleb_false in E]
  | |- context [if Qltb ?a ?b then _ else _] =>
      let E := fresh "E" in
      destruct (Qltb a b) eqn:E;
      [apply Qltb_true in E | apply Qltb_false in E]
  end.

(** A higher engagement rate never scores lower. *)
Theorem _score_engagement_rate_mono (a b : Q) :
  a <= b -> _score_engagement_rate a <= _score_engagement_rate b.
Proof.
  intros Hab. unfold _score_engagement_rate. Qcases; lra.
Qed.

Lemma _score_engagement_rate_mono_witness :
  _score_engagement_rate 0.004 <= _score_engagement_rate 0.015.
Proof. apply (_score_engagement_rate_mono 0.004 0.015). discriminate. Defined.

Lemma _score_reply_ratio_rising (ratio : Q) :
  ratio <= 0.45 -> _score_reply_ratio ratio == Qmax 0.2 (ratio * (20 # 9)).
Proof.
  intros H. unfold _score_reply_ratio.
  rewrite Qabs_neg by lra.
  apply Q.max_compat; [reflexivity|].
  unfold Qdiv. change (/ 0.45) with (100 # 45). ring.
Qed.

Lemma _score_reply_ratio_falling (ratio : Q) :
  0.45 <= ratio ->
  _score_reply_ratio ratio == Qmax 0.2 (2 - ratio * (20 # 9)).
Proof.
  intros H. unfold _score_reply_ratio.
  rewrite Qabs_pos by lra.
  apply Q.max_compat; [reflexivity|].
  unfold Qdiv. change (/ 0.45) with (100 # 45). ring.
Qed.

(** Over the rationals the conversation score rises with the reply ratio up
    to 0.45 and falls from there on, between 0.2 and 1. *)
Lemma _score_reply_ratio_shape (a b : Q) :
  (a <= b -> b <= 0.45 -> _score_reply_ratio a <= _score_reply_ratio b) /\
  (0.45 <= a -> a <= b -> _score_reply_ratio b <= _score_reply_ratio a) /\
  (_score_reply_ratio a == 1 <-> a == 0.45) /\
  0.2 <= _score_reply_ratio a <= 1 /\
  _score_reply_ratio 0 == 0.2 /\
  _score_reply_ratio 1 == 0.2.
Proof.
  split; [|split; [|split; [|split; [|split; reflexivity]]]].
  - intros Hab Hb.
    rewrite (_score_reply_ratio_rising a), (_score_reply_ratio_rising b) by lra.
    apply Q.max_le_compat_l. lra.
  - intros Ha Hab.
    rewrite (_score_reply_ratio_falling a), (_score_reply_ratio_falling b)
      by lra.
    apply Q.max_le_compat_l. lra.
  - destruct (Qlt_le_dec a 0.45) as [Hlt|Hge].
    + rewrite (_score_reply_ratio_rising a) by lra.
      destruct (Q.max_spec 0.2 (a * (20 # 9))) as [[? ->]|[? ->]];
        split; intros Heq; lra.
    + rewrite (_score_reply_ratio_falling a) by lra.
      destruct (Q.max_spec 0.2 (2 - a * (20 # 9))) as [[? ->]|[? ->]];
        split; intros Heq; lra.
  - destruct (Qlt_le_dec a 0.45) as [Hlt|Hge].
    + rewrite (_score_reply_ratio_rising a) by lra.
      destruct (Q.max_spec 0.2 (a * (20 # 9))) as [[? ->]|[? ->]]; lra.
    + rewrite (_score_reply_ratio_falling a) by lra.
      destruct (Q.max_spec 0.2 (2 - a * (20 # 9))) as [[? ->]|[? ->]]; lra.
Qed.

Lemma insert_desc_perm {A : Type} (x : Q * A) (l : list (Q * A)) :
  Permutation (insert_desc x l) (x :: l).
Proof.
  induction l as [|y l IH]; [reflexivity|]. simpl.
  destruct (Qltb x.1 y.1); [|reflexivity].
  rewrite IH. apply perm_swap.
Qed.

(** Sorting rearranges a list. *)
Lemma sorted_desc_perm {A : Type} (l : list (Q * A)) :
  Permutation (sorted_desc l) l.
Proof.
  unfold sorted_desc. induction l as [|x l IH]; [reflexivity|]. simpl.
  rewrite insert_desc_perm, IH. reflexivity.
Qed.

Lemma maximum_spec (x : Z) (l : list Z) :
  In (maximum x l) (x :: l) /\ forall y, In y (x :: l) -> (y <= maximum x l)%Z.
Proof.
  unfold maximum. revert x. induction l as [|z l IH]; intros x.
  - split; [left; reflexivity|]. intros y [<-|[]]. simpl. lia.
  - destruct (IH (Z.max x z)) as [Hin Hmax]. cbn [fold_left]. split.
    + destruct Hin as [Hin|Hin]; [|right; right; exact Hin].
      rewrite <- Hin. destruct (Z.max_spec x z) as [[_ ->]|[_ ->]];
        [right; left|left]; reflexivity.
    + intros y [<-|[<-|Hy]].
      * etransitivity; [apply Z.le_max_l|]. apply Hmax. left. reflexivity.
      * etransitivity; [apply Z.le_max_r|]. apply Hmax. left. reflexivity.
      * apply Hmax. right. exact Hy.
Qed.

Lemma minimum_spec (x : Z) (l : list Z) :
  In (minimum x l) (x :: l) /\ forall y, In y (x :: l) -> (minimum x l <= y)%Z.
Proof.
  unfold minimum. revert x. induction l as [|z l IH]; intros x.
  - split; [left; reflexivity|]. intros y [<-|[]]. simpl. lia.
  - destruct (IH (Z.min x z)) as [Hin Hmin]. cbn [fold_left]. split.
    + destruct Hin as [Hin|Hin]; [|right; right; exact Hin].
      rewrite <- Hin. destruct (Z.min_spec x z) as [[_ ->]|[_ ->]];
        [left|right; left]; reflexivity.
    + intros y [<-|[<-|Hy]].
      * etransitivity; [|apply Z.le_min_l]. apply Hmin. left. reflexivity.
      * etransitivity; [|apply Z.le_min_r]. apply Hmin. left. reflexivity.
      * apply Hmin. right. exact Hy.
Qed.

Lemma maximum_perm (x x' : Z) (l l' : list Z) :
  Permutation (x :: l) (x' :: l') -> maximum x l = maximum x' l'.
Proof.
  intros Hp.
  destruct (maximum_spec x l) as [Hin Hmax].
  destruct (maximum_spec x' l') as [Hin' Hmax'].
  apply Z.le_antisymm.
  - apply Hmax'. apply (Permutation_in _ Hp), Hin.
  - apply Hmax. apply (Permutation_in _ (Permutation_sym Hp)), Hin'.
Qed.

Lemma minimum_perm (x x' : Z) (l l' : list Z) :
  Permutation (x :: l) (x' :: l') -> minimum x l = minimum x' l'.
Proof.
  intros Hp.
  destruct (minimum_spec x l) as [Hin Hmin].
  destruct (minimum_spec x' l') as [Hin' Hmin'].
  apply Z.le_antisymm.
  - apply Hmin. apply (Permutation_in _ (Permutation_sym Hp)), Hin'.
  - apply Hmin'. apply (Permutation_in _ Hp), Hin.
Qed.

(** The cadence score and the posts per week do not depend on the order of
    the posts. *)
Theorem _score_cadence_perm (tweets tweets' : list Tweet) :
  Permutation tweets tweets' -> _score_cadence tweets = _score_cadence tweets'.
Proof.
  intros Hp. unfold _score_cadence.
  assert (Permutation (dated_times tweets) (dated_times tweets')) as Hd.
  { unfold dated_times. rewrite Hp. reflexivity. }
  pose proof (Permutation_length Hd) as Hlen.
  destruct (dated_times tweets) as [|t [|t2 rest]];
    destruct (dated_times tweets') as [|t' [|t2' rest']];
    try discriminate Hlen; try reflexivity.
  rewrite (maximum_perm _ _ _ _ Hd), (minimum_perm _ _ _ _ Hd), Hlen.
  reflexivity.
Qed.

Lemma _score_cadence_perm_witness :
  _score_cadence (rev Inputs.ten_daily_posts)
  = _score_cadence Inputs.ten_daily_posts.
Proof.
  apply (_score_cadence_perm (rev Inputs.ten_daily_posts) Inputs.ten_daily_posts).
  apply Permutation_sym, Permutation_rev.
Defined.














Lemma sublist_pick {A : Type} (b : bool) (r : A) (l k : list A) :
  sublist l k -> sublist ((if b then [r] else []) ++ l)%list (r :: k).
Proof.
  intros H. destruct b; simpl; [apply sublist_skip|apply sublist_cons]; exact H.
Qed.

Lemma sublist_pick_last {A : Type} (b : bool) (r : A) :
  sublist (if b then [r] else []) [r].
Proof. destruct b; [reflexivity|apply sublist_nil_l]. Qed.

Lemma sublist_Forall_keep {A : Type} (P : A -> Prop) (l k : list A) :
  sublist l k -> Forall P k -> Forall P l.
Proof.
  induction 1 as [|x l k _ IH|x l k _ IH]; intros Hk.
  - constructor.
  - inversion Hk; subst. constructor; auto.
  - inversion Hk; subst. auto.
Qed.

Lemma rising_sublist (l k : list nat) : sublist l k -> rising k -> rising l.
Proof.
  induction 1 as [|x l k Hs IH|x l k Hs IH]; intros Hk.
  - exact I.
  - destruct Hk as [Hx Hk]. split; [|exact (IH Hk)].
    exact (sublist_Forall_keep _ _ _ Hs Hx).
  - destruct Hk as [_ Hk]. exact (IH Hk).
Qed.

Lemma sublist_map {A B : Type} (f : A -> B) (l k : list A) :
  sublist l k -> sublist (List.map f l) (List.map f k).
Proof.
  induction 1; simpl; [constructor|apply sublist_skip|apply sublist_cons];
    assumption.
Qed.

(** The recommendations come in the order of their priority, and no two
    of them carry the same title. *)
Theorem _build_recommendations_order (scores : gmap string Q) :
  rising (List.map (fun r => priority_rank (priority r))
            (_build_recommendations scores)) /\
  List.NoDup (List.map title (_build_recommendations scores)).
Proof.
  unfold _build_recommendations. cbv zeta.
  match goal with |- context [firstn 6 ?l] => set (all := l) end.
  assert (exists catalogue,
            sublist all catalogue /\
            List.map (fun r => priority_rank (priority r)) catalogue
              = [0; 0; 0; 1; 1; 1; 2; 2; 2]%nat /\
            NoDup (List.map title catalogue)) as (cat & Hsub & Hp & Ht).
  { eexists. split; [|split].
    - unfold all. do 8 apply sublist_pick. apply sublist_pick_last.
    - reflexivity.
    - apply (bool_decide_unpack _). vm_compute. exact I. }
  assert (sublist (firstn 6 all) cat) as Hs
    by (etransitivity; [apply sublist_take|exact Hsub]).
  clearbody all. split.
  - apply (rising_sublist _ _ (sublist_map _ _ _ Hs)). rewrite Hp.
    simpl. repeat split; repeat constructor.
  - apply NoDup_ListNoDup.
    eapply sublist_NoDup; [exact Ht|apply (sublist_map _ _ _ Hs)].
Qed.

Lemma list_sum_firstn (n : nat) (l : list nat) :
  (list_sum (firstn n l) <= list_sum l)%nat.
Proof.
  revert n. induction l as [|x l IH]; intros [|n]; simpl; try lia.
  specialize (IH n). lia.
Qed.

Lemma list_sum_perm (l k : list nat) :
  Permutation l k -> list_sum l = list_sum k.
Proof. induction 1; simpl; lia. Qed.

Lemma keyed_counts_perm (counts : list nat) :
  Permutation
    (List.map snd (sorted_desc (List.map (fun c => (of_nat c, c)) counts)))
    counts.
Proof.
  rewrite sorted_desc_perm, List.map_map. simpl. rewrite List.map_id.
  reflexivity.
Qed.

Lemma of_nat_le (a b : nat) : (a <= b)%nat -> of_nat a <= of_nat b.
Proof. intros H. unfold of_nat. rewrite <- Zle_Qle. lia. Qed.

Lemma of_nat_pos (n : nat) : (0 < n)%nat -> 0 < of_nat n.
Proof.
  intros H. unfold of_nat. change 0 with (inject_Z 0). rewrite <- Zlt_Qlt. lia.
Qed.

Lemma count_occ_head (x : string) (l : list string) :
  (1 <= count_occ x (x :: l))%nat.
Proof. unfold count_occ. simpl. rewrite String.eqb_refl. simpl. lia. Qed.

(** Without listed topics the topic metric is the share of the five most
    frequent topic words among all of them: it lies between 0 and 1, and is
    1, with a full score, when the posts use five distinct words or fewer. *)
Theorem _score_topic_focus_tokens (tweets : list Tweet)
    (vp : option VoiceProfile) :
  no_topics vp ->
  exists s c, _score_topic_focus tweets vp = Some (s, c) /\
    0 <= c /\ c <= 1 /\
    (topic_tokens tweets <> [] ->
     (List.length (distinct (topic_tokens tweets)) <= 5)%nat ->
     s = 1.0 /\ c == 1).
Proof.
  intros Hvp. unfold _score_topic_focus.
  assert (vp ≫= (fun vp => match common_topics vp with
                            | [] => None | l => Some l end) = None) as ->.
  { destruct vp as [p|]; [|reflexivity]. simpl in *. rewrite Hvp. reflexivity. }
  destruct (topic_tokens tweets) as [|tok toks] eqn:Et.
  { do 2 eexists. split; [reflexivity|].
    split; [discriminate|]. split; [discriminate|]. intros H. contradiction. }
  set (tokens := tok :: toks).
  set (counts := List.map (fun t => count_occ t tokens) (distinct tokens)).
  set (top := list_sum (List.map snd (firstn 5 (sorted_desc _)))).
  assert (top <= list_sum counts)%nat as Htop.
  { unfold top. rewrite <- firstn_map.
    etransitivity; [apply list_sum_firstn|].
    rewrite (list_sum_perm _ _ (keyed_counts_perm counts)). lia. }
  assert (1 <= list_sum counts)%nat as Htotal.
  { unfold counts, tokens. cbn [distinct List.map].
    unfold list_sum. cbn [fold_right].
    pose proof (count_occ_head tok toks). lia. }
  rewrite py_div_of_nat by lia. cbn [mbind option_bind].
  rewrite Nat.max_l by lia.
  set (c := of_nat top / of_nat (list_sum counts)).
  pose proof (of_nat_pos _ Htotal) as Hpos.
  assert (0 <= c) as Hc0.
  { apply Qle_shift_div_l; [exact Hpos|]. rewrite Qmult_0_l. apply of_nat_nonneg. }
  assert (c <= 1) as Hc1.
  { apply Qle_shift_div_r; [exact Hpos|]. rewrite Qmult_1_l.
    apply of_nat_le, Htop. }
  assert ((List.length (distinct tokens) <= 5)%nat -> c == 1) as Hfew.
  { intros Hlen. unfold c.
    assert (top = list_sum counts) as ->.
    { unfold top. rewrite firstn_all2.
      - apply list_sum_perm, keyed_counts_perm.
      - rewrite (Permutation_length (sorted_desc_perm _)), length_map.
        unfold counts. rewrite length_map. exact Hlen. }
    apply Qmult_inv_r. intros H0. rewrite H0 in Hpos.
    exact (Qlt_irrefl _ Hpos). }
  destruct (Qleb 0.18 c) eqn:E1.
  { do 2 eexists. split; [reflexivity|]. repeat split; auto. }
  assert (~ c == 1) as Hne.
  { intros H1. apply Qleb_false in E1. rewrite H1 in E1. discriminate E1. }
  repeat (match goal with |- context [if ?b then _ else _] => destruct b end;
          [do 2 eexists; split; [reflexivity|];
           split; [exact Hc0|]; split; [exact Hc1|];
           intros _ Hlen; exfalso; exact (Hne (Hfew Hlen))|]).
  do 2 eexists; split; [reflexivity|].
  split; [exact Hc0|]; split; [exact Hc1|].
  intros _ Hlen; exfalso; exact (Hne (Hfew Hlen)).
Qed.

Lemma _score_topic_focus_tokens_witness :
  no_topics None /\
  exists s c,
    _score_topic_focus [Inputs.post None None "alpha beta gamma"] None
      = Some (s, c) /\
    0 <= c /\ c <= 1 /\
    (topic_tokens [Inputs.post None None "alpha beta gamma"] <> [] ->
     (List.length
        (distinct (topic_tokens [Inputs.post None None "alpha beta gamma"]))
      <= 5)%nat ->
     s = 1.0 /\ c == 1).
Proof.
  split; [exact I|].
  apply (_score_topic_focus_tokens
           [Inputs.post None None "alpha beta gamma"] None). exact I.
Defined.







End HealthMore.

(** ** The best posting hours *)

Section AnalyticsFacts.
Import PyStr PyNum PyList Schemas Analytics ProfileHealth Spec Props.


























End AnalyticsFacts.

(** ** Monotony and white space *)

Section ViralityInvariance.
Import PyStr PyNum Schemas Virality Spec Props.
Local Open Scope Q_scope.

(** Better components never give a lower score. *)
Theorem _aggregate_score_mono (a b : gmap string Q) :
  no_worse a b ->
  ViralityScorer._aggregate_score a <= ViralityScorer._aggregate_score b.
Proof.
  intros [Hpos Hneg]. unfold ViralityScorer._aggregate_score.
  apply Q.max_le_compat_l, Q.min_le_compat_l.
  unfold ViralityScorer.weights in *. cbn [List.map fst snd].
  rewrite !Qsum_cons. change (Qsum []) with 0.
  repeat (match goal with H : Forall _ (_ :: _) |- _ =>
            apply Forall_cons_1 in H as [? H] end).
  cbn [fst snd] in *. lra.
Qed.

Lemma _aggregate_score_mono_witness :
  no_worse (<["negative_risk" := 0.5]> ∅) (<["clarity" := 1]> ∅) /\
  ViralityScorer._aggregate_score (<["negative_risk" := 0.5]> ∅)
  <= ViralityScorer._aggregate_score (<["clarity" := 1]> ∅).
Proof.
  assert (no_worse (<["negative_risk" := 0.5]> ∅) (<["clarity" := 1]> ∅))
    as H.
  { split; [repeat constructor; vm_compute; discriminate|].
    vm_compute. discriminate. }
  split; [exact H|]. apply (_aggregate_score_mono _ _ H).
Defined.

Lemma space_no_word (c : ascii) : is_space c = true -> is_word c = false.
Proof. destruct c as [[] [] [] [] [] [] [] []]; vm_compute; congruence. Qed.

Lemma lower_char_space (c : ascii) : is_space (lower_char c) = is_space c.
Proof. destruct c as [[] [] [] [] [] [] [] []]; reflexivity. Qed.

Lemma lower_lstrip (s : string) : lower (lstrip s) = lstrip (lower s).
Proof.
  induction s as [|c s IH]; [reflexivity|]. simpl.
  rewrite lower_char_space. destruct (is_space c); [exact IH|reflexivity].
Qed.

Lemma lower_is_empty (s : string) : is_empty (lower s) = is_empty s.
Proof. destruct s; reflexivity. Qed.

Lemma lower_rstrip (s : string) : lower (rstrip s) = rstrip (lower s).
Proof.
  induction s as [|c s IH]; [reflexivity|]. simpl.
  rewrite <- IH, lower_is_empty, lower_char_space.
  destruct (is_empty (rstrip s) && is_space c); reflexivity.
Qed.

Lemma lower_strip (s : string) : lower (strip s) = strip (lower s).
Proof. unfold strip. rewrite lower_rstrip, lower_lstrip. reflexivity. Qed.

Lemma words_lstrip (s : string) : words (lstrip s) = words s.
Proof.
  unfold words. induction s as [|c s IH]; [reflexivity|]. simpl.
  destruct (is_space c) eqn:E; [|reflexivity].
  rewrite (space_no_word c E). simpl. exact IH.
Qed.

Lemma runs_cons (p : ascii -> bool) (s : string) :
  runs p s = hd "" (runs p s) :: tl (runs p s).
Proof.
  destruct s as [|c s]; [reflexivity|]. simpl.
  destruct (p c); [|reflexivity].
  destruct (runs p s); reflexivity.
Qed.

Lemma same_words_filter (l l' : list string) :
  l = hd "" l :: tl l -> l' = hd "" l' :: tl l' ->
  same_words l l' -> List.filter truthy l = List.filter truthy l'.
Proof.
  intros -> -> [Hh Ht]. simpl in *. rewrite Hh, Ht. reflexivity.
Qed.

Lemma runs_rstrip (s : string) :
  same_words (runs is_word (rstrip s)) (runs is_word s).
Proof.
  induction s as [|c s IH]; [split; reflexivity|].
  pose proof (same_words_filter _ _ (runs_cons is_word (rstrip s))
                (runs_cons is_word s) IH) as Hf.
  cbn [rstrip]. destruct (is_empty (rstrip s) && is_space c) eqn:E.
  - apply andb_true_iff in E as [Er Ec].
    destruct (rstrip s); [|discriminate].
    cbn [runs]. rewrite (space_no_word c Ec). split; [reflexivity|].
    simpl in *. exact Hf.
  - cbn [runs]. destruct (is_word c).
    + destruct IH as [Hh Ht].
      rewrite (runs_cons is_word (rstrip s)), (runs_cons is_word s).
      simpl. rewrite Hh. split; [reflexivity|exact Ht].
    + split; [reflexivity|exact Hf].
Qed.

Lemma words_rstrip (s : string) : words (rstrip s) = words s.
Proof.
  unfold words.
  apply same_words_filter; [apply runs_cons..|apply runs_rstrip].
Qed.

(** White space around a text holds no word. *)
Lemma words_strip (s : string) : words (strip s) = words s.
Proof. unfold strip. rewrite words_rstrip, words_lstrip. reflexivity. Qed.

Lemma _hook_score_strip (s : string) :
  ViralityScorer._hook_score (strip s) = ViralityScorer._hook_score s.
Proof.
  unfold ViralityScorer._hook_score.
  rewrite lower_strip, words_strip. reflexivity.
Qed.

Lemma _score_text_strip (s : string) (ct : ContentType) :
  ViralityScorer._score_text (strip s) ct = ViralityScorer._score_text s ct.
Proof. unfold ViralityScorer._score_text. rewrite strip_idem. reflexivity. Qed.

Lemma mapM_score_text_strip (l : list string) (ct : ContentType) :
  mapM (fun text => ViralityScorer._score_text text ct) (List.map strip l)
  = mapM (fun text => ViralityScorer._score_text text ct) l.
Proof.
  induction l as [|x l IH]; [reflexivity|].
  cbn [List.map mapM]. rewrite _score_text_strip, IH. reflexivity.
Qed.

(** White space around the texts does not change the result. *)
Theorem score_strip_content (content : Content) (ct : ContentType) :
  ViralityScorer.score (strip_content content) ct
  = ViralityScorer.score content ct.
Proof.
  assert (forall l, ViralityScorer.score (Lst (List.map strip l)) ct
                    = ViralityScorer.score (Lst l) ct) as H.
  { intros l. unfold ViralityScorer.score.
    rewrite mapM_score_text_strip.
    destruct (mapM _ l) as [rs|]; [|reflexivity]. cbn [mbind option_bind].
    destruct rs as [|r rs]; [reflexivity|].
    destruct (ViralityScorer.div_components _ _); [|reflexivity].
    cbn [mbind option_bind].
    destruct ct; try reflexivity.
    destruct l as [|x l]; [reflexivity|]. cbn [List.map].
    rewrite _hook_score_strip. reflexivity. }
  destruct content as [s|l]; [exact (H [s])|exact (H l)].
Qed.

End ViralityInvariance.

(** ** The health impact estimate *)

Section HealthImpactFacts.
Import PyStr PyNum Schemas Virality Spec Props HealthImpact.
Local Open Scope Q_scope.

Lemma Qleb_inject_Z (a b : Z) : Qleb (inject_Z a) (inject_Z b) = (a <=? b)%Z.
Proof.
  destruct (Z.leb_spec a b) as [H|H].
  - apply Qleb_true. rewrite <- Zle_Qle. exact H.
  - apply Qleb_false. rewrite <- Zlt_Qlt. exact H.
Qed.

Lemma Qltb_inject_Z (a b : Z) : Qltb (inject_Z a) (inject_Z b) = (a <? b)%Z.
Proof.
  unfold Qltb. fold (Qleb (inject_Z b) (inject_Z a)).
  rewrite Qleb_inject_Z, Z.ltb_antisym. reflexivity.
Qed.

Lemma inject_Z_sub (a b : Z) : inject_Z a - inject_Z b == inject_Z (a - b).
Proof.
  unfold Qminus, Z.sub. rewrite inject_Z_plus, inject_Z_opp. reflexivity.
Qed.

(** On a whole number of characters the length score of the health impact
    is that of the virality scorer. *)
Theorem _length_score_agrees (n : Z) (ct : ContentType) :
  exists q q',
    HealthImpact._length_score (inject_Z n) ct = Some q /\
    ViralityScorer._length_score n ct = Some q' /\ q == q'.
Proof.
  unfold HealthImpact._length_score, ViralityScorer._length_score,
    ViralityScorer.ideal_band.
  assert (forall lo hi : Z, (30 < lo)%Z -> (hi < 280)%Z ->
    exists q q',
      (if Qleb (inject_Z n) (inject_Z 30) || Qleb (inject_Z 280) (inject_Z n)
       then Some 0
       else if Qltb (inject_Z n) (inject_Z lo)
       then py_div (inject_Z n - inject_Z 30) (inject_Z (Z.max (lo - 30) 1))
       else if Qltb (inject_Z hi) (inject_Z n)
       then q ← py_div (inject_Z 280 - inject_Z n)
                  (inject_Z (Z.max (280 - hi) 1));
            Some (Qmax 0 q)
       else Some 1) = Some q /\
      (if (n <=? 30)%Z || (280 <=? n)%Z then Some 0
       else if (n <? lo)%Z
       then py_div (inject_Z (n - 30)) (inject_Z (Z.max (lo - 30) 1))
       else if (hi <? n)%Z
       then q ← py_div (inject_Z (280 - n)) (inject_Z (Z.max (280 - hi) 1));
            Some (Qmax 0 q)
       else Some 1) = Some q' /\ q == q') as H.
  { intros lo hi Hlo Hhi. rewrite !Qleb_inject_Z, !Qltb_inject_Z.
    destruct (_ || _); [do 2 eexists; repeat split; reflexivity|].
    destruct (n <? lo)%Z.
    { rewrite !py_div_inject_Z by lia.
      do 2 eexists. split; [reflexivity|]. split; [reflexivity|].
      rewrite inject_Z_sub. reflexivity. }
    destruct (hi <? n)%Z; [|do 2 eexists; repeat split; reflexivity].
    rewrite !py_div_inject_Z by lia. cbn [mbind option_bind].
    do 2 eexists. split; [reflexivity|]. split; [reflexivity|].
    rewrite inject_Z_sub. reflexivity. }
  destruct ct; apply H; lia.
Qed.

(** There is always a follow-up to suggest, no suggestion comes twice, and
    there are five of them only when a tweet or a thread is weak on sharing,
    replies and dwell time at once. *)
Theorem _followup_suggestions_shape (ct : ContentType) (sp rp dp : Q) :
  let f := _followup_suggestions ct sp rp dp in
  List.NoDup f /\ (1 <= List.length f <= 5)%nat /\
  (List.length f = 5%nat <->
   (ct = THREAD \/ ct = TWEET) /\ sp < 0.6 /\ rp < 0.6 /\ dp < 0.6).
Proof.
  unfold _followup_suggestions.
  destruct (Qltb sp 0.6) eqn:E1;
    [apply Qltb_true in E1|apply Qltb_false in E1];
  (destruct (Qltb rp 0.6) eqn:E2;
    [apply Qltb_true in E2|apply Qltb_false in E2]);
  (destruct (Qltb dp 0.6) eqn:E3;
    [apply Qltb_true in E3|apply Qltb_false in E3]);
  destruct ct;
  (split; [apply NoDup_ListNoDup, (bool_decide_unpack _); vm_compute; exact I|]);
  (split; [split; apply Nat.leb_le; vm_compute; reflexivity|]);
  (split;
   [ intros H; first [discriminate H | repeat split; auto]
   | intros (Hct & H1 & H2 & H3);
     first [ reflexivity
           | exfalso; destruct Hct; discriminate
           | exfalso; lra ] ]).
Qed.

Lemma impact_length_score_is_Some (x : Q) (ct : ContentType) :
  is_Some (HealthImpact._length_score x ct).
Proof.
  unfold HealthImpact._length_score.
  destruct ct; cbv zeta beta iota;
    repeat (match goal with |- context [if ?b then _ else _] =>
              destruct b end; [eauto|]);
    rewrite ?py_div_inject_Z by discriminate; eauto.
Qed.

Lemma _followup_suggestions_distinct (ct : ContentType) (sp rp dp : Q) :
  List.NoDup (_followup_suggestions ct sp rp dp) /\
  (1 <= List.length (_followup_suggestions ct sp rp dp))%nat.
Proof.
  unfold _followup_suggestions.
  destruct (Qltb sp 0.6), (Qltb rp 0.6), (Qltb dp 0.6), ct;
    (split; [apply NoDup_ListNoDup, (bool_decide_unpack _); vm_compute; exact I
            |apply Nat.leb_le; vm_compute; reflexivity]).
Qed.

Lemma firstn_fold_dedupe (ct : ContentType) (sp rp dp : Q) :
  let f := firstn 4 (_followup_suggestions ct sp rp dp) in
  f <> [] /\ List.NoDup f.
Proof.
  destruct (_followup_suggestions_distinct ct sp rp dp) as [Hnd Hlen].
  cbv zeta. split.
  - destruct (_followup_suggestions ct sp rp dp); [simpl in Hlen; lia|].
    discriminate.
  - apply NoDup_firstn_list, Hnd.
Qed.

(** The estimate returns for every content and every dictionary of
    components.  Its impacts go through the four metrics in their order,
    each at most once; every change is above 0.02, but for the loss of 0.05
    in engagement quality that a negative risk above 0.6 brings.  There are
    one to four follow-ups, none twice. *)
Theorem estimate_health_impact_shape (content : Content)
    (ct : ContentType) (comps : gmap string Q) :
  exists hi, estimate_health_impact content ct comps = Some hi /\
    sublist (List.map metric (impacts hi)) impact_metrics /\
    Forall (fun i =>
              0.02 < delta i \/
              (metric i = "engagement_quality"%string /\ delta i == -0.05 /\
               0.6 < default 0 (comps !! "negative_risk")))
      (impacts hi) /\
    followups hi <> [] /\ (List.length (followups hi) <= 4)%nat /\
    List.NoDup (followups hi).
Proof.
  unfold estimate_health_impact.
  match goal with |- context [mbind _ ?m] =>
    assert (is_Some m) as [avg ->] end.
  { destruct (List.map _ _) as [|n l]; [eauto|].
    rewrite py_div_of_nat; [eauto|]. simpl. lia. }
  cbn [mbind option_bind].
  destruct (impact_length_score_is_Some avg ct) as [ls ->].
  cbn [mbind option_bind].
  eexists. split; [reflexivity|]. cbn [impacts followups].
  split; [|split].
  - repeat match goal with |- context [if ?b then _ else _] =>
      destruct b end; unfold append; simpl;
      repeat first [ apply sublist_nil_l | apply sublist_skip
                   | apply sublist_cons ].
  - repeat match goal with |- context [py_round ?x 2] =>
      let d := fresh "d" in generalize (py_round x 2); intros d end.
    repeat match goal with |- context [if Qltb ?a ?b then _ else _] =>
      let E := fresh "E" in
      destruct (Qltb a b) eqn:E; [apply Qltb_true in E|clear E] end;
    unfold append; cbn [app firstn];
    repeat (constructor; cbn [delta metric];
            [first [ left; lra
                   | right; split; [reflexivity|split; [reflexivity|assumption]] ]
            |]);
    constructor.
  - destruct (firstn_fold_dedupe ct (default 0 (comps !! "share_potential"))
                (default 0 (comps !! "reply_potential"))
                (default 0 (comps !! "dwell_potential"))) as [Hne Hnd].
    split; [exact Hne|]. split; [rewrite length_firstn; lia|exact Hnd].
Qed.

Lemma impact_length_score_range (x : Q) (ct : ContentType) (q : Q) :
  HealthImpact._length_score x ct = Some q -> unit_range q.
Proof.
  unfold HealthImpact._length_score.
  assert (forall lo hi : Z, (30 < lo)%Z -> (hi < 280)%Z ->
    (if Qleb x (inject_Z 30) || Qleb (inject_Z 280) x then Some 0
     else if Qltb x (inject_Z lo)
     then py_div (x - inject_Z 30) (inject_Z (Z.max (lo - 30) 1))
     else if Qltb (inject_Z hi) x
     then q ← py_div (inject_Z 280 - x) (inject_Z (Z.max (280 - hi) 1));
          Some (Qmax 0 q)
     else Some 1) = Some q -> unit_range q) as H.
  { intros lo hi Hlo Hhi.
    destruct (_ || _) eqn:Eout; [intros [= <-]; split; discriminate|].
    apply orb_false_iff in Eout as [E1 E2].
    apply Qleb_false in E1. apply Qleb_false in E2.
    destruct (Qltb x (inject_Z lo)) eqn:E3.
    - apply Qltb_true in E3. rewrite Z.max_l by lia.
      rewrite py_div_inject_Z by lia. intros [= <-].
      assert (0 < inject_Z (lo - 30)) as Hpos
        by (change 0 with (inject_Z 0); rewrite <- Zlt_Qlt; lia).
      split.
      + apply Qle_shift_div_l; [exact Hpos|]. rewrite Qmult_0_l. lra.
      + apply Qle_shift_div_r; [exact Hpos|].
        rewrite <- inject_Z_sub. lra.
    - destruct (Qltb (inject_Z hi) x) eqn:E4;
        [|intros [= <-]; split; discriminate].
      apply Qltb_true in E4. rewrite Z.max_l by lia.
      rewrite py_div_inject_Z by lia. cbn [mbind option_bind]. intros [= <-].
      assert (0 < inject_Z (280 - hi)) as Hpos
        by (change 0 with (inject_Z 0); rewrite <- Zlt_Qlt; lia).
      split; [apply Q.le_max_l|]. apply Q.max_lub; [discriminate|].
      apply Qle_shift_div_r; [exact Hpos|].
      rewrite <- inject_Z_sub. lra. }
  destruct ct; apply H; lia.
Qed.

Lemma py_round_le (x b : Q) (n : nat) :
  x <= b -> py_round b n == b -> py_round x n <= b.
Proof. intros Hx Hb. rewrite <- Hb. apply py_round_mono, Hx. Qed.

(** With components between 0 and 1 no impact is below -0.05 or above
    0.2. *)
Lemma estimate_health_impact_deltas (content : Content) (ct : ContentType)
    (comps : gmap string Q) :
  (forall k, unit_range (default 0 (comps !! k))) ->
  exists hi, estimate_health_impact content ct comps = Some hi /\
    Forall (fun i => -0.05 <= delta i /\ delta i <= 0.2) (impacts hi).
Proof.
  intros Hc. unfold estimate_health_impact.
  match goal with |- context [mbind _ ?m] =>
    assert (is_Some m) as [avg ->] end.
  { destruct (List.map _ _) as [|n l]; [eauto|].
    rewrite py_div_of_nat; [eauto|]. simpl. lia. }
  cbn [mbind option_bind].
  destruct (impact_length_score_is_Some avg ct) as [ls Hls].
  rewrite Hls. apply impact_length_score_range in Hls as [Hl0 Hl1].
  cbn [mbind option_bind].
  eexists. split; [reflexivity|]. cbn [impacts].
  destruct (Hc "share_potential") as [Hs0 Hs1].
  destruct (Hc "reply_potential") as [Hr0 Hr1].
  destruct (Hc "clarity") as [Hy0 Hy1].
  destruct (Hc "negative_risk") as [Hn0 Hn1].
  generalize dependent (default 0 (comps !! "share_potential")).
  generalize dependent (default 0 (comps !! "reply_potential")).
  generalize dependent (default 0 (comps !! "clarity")).
  generalize dependent (default 0 (comps !! "negative_risk")).
  intros nr Hn0 Hn1 cl Hy0 Hy1 rp Hr0 Hr1 sp Hs0 Hs1.
  assert (py_round (sp * 0.2) 2 <= 0.2) as H1
    by (apply py_round_le; [lra|vm_compute; reflexivity]).
  assert (py_round (Qmin 1.0 (rp + match ct with
                                   | REPLY | QUOTE => 0.2
                                   | _ => 0.0
                                   end) * 0.15) 2 <= 0.2) as H2.
  { apply py_round_le; [|vm_compute; reflexivity].
    match goal with |- ?m * _ <= _ =>
      assert (m <= 1) as Hm
        by (eapply Qle_trans; [apply Q.le_min_l|discriminate]);
      generalize dependent m; intros end.
    lra. }
  assert (py_round ((ls + cl) / 2 * 0.1) 2 <= 0.2) as H3.
  { apply py_round_le; [|vm_compute; reflexivity].
    unfold Qdiv. change (/ 2) with (1 # 2). lra. }
  assert (py_round ((1 - nr) * 0.08) 2 <= 0.2) as H4
    by (apply py_round_le; [lra|vm_compute; reflexivity]).
  revert H1 H2 H3 H4.
  repeat match goal with |- context [py_round ?x 2] =>
    let d := fresh "d" in generalize (py_round x 2); intros d end.
  intros H1 H2 H3 H4.
  repeat match goal with |- context [if Qltb ?a ?b then _ else _] =>
    let E := fresh "E" in
    destruct (Qltb a b) eqn:E; [apply Qltb_true in E|clear E] end;
  unfold append; cbn [app firstn];
  repeat (constructor; cbn [delta]; [split; first [lra|discriminate]|]);
  constructor.
Qed.

(** Scoring a content and estimating its impact from the components of
    the score always works, and no impact is then below -0.05 or above
    0.2. *)
Theorem estimate_after_score (content : Content) (ct : ContentType) :
  exists r hi,
    ViralityScorer.score content ct = Some r /\
    estimate_health_impact content ct (components r) = Some hi /\
    Forall (fun i => -0.05 <= delta i /\ delta i <= 0.2) (impacts hi).
Proof.
  destruct (score_components_ok content ct) as (r & Hr & Hok).
  destruct (estimate_health_impact_deltas content ct (components r))
    as (hi & Hhi & Hd).
  { intros k. destruct (components r !! k) as [v|] eqn:Ek.
    - apply (Hok k v Ek).
    - split; discriminate. }
  exists r, hi. auto.
Qed.

End HealthImpactFacts.

(** ** The voice analyzer *)

Section VoiceFacts.
Import PyStr PyNum PyList Schemas ProfileHealth Spec Props VoiceAnalyzer.

Lemma length_take (n : nat) (s : string) : (String.length (take n s) <= n)%nat.
Proof.
  revert s. induction n as [|n IH]; intros [|c s]; simpl; try lia.
  specialize (IH s). lia.
Qed.

Lemma all_chars_take (p : ascii -> bool) (n : nat) (s : string) :
  all_chars p s = true -> all_chars p (take n s) = true.
Proof.
  revert s. induction n as [|n IH]; intros [|c s]; simpl; auto.
  intros H. apply andb_true_iff in H as [-> H]. apply IH, H.
Qed.

Lemma all_chars_lstrip_chars (p q : ascii -> bool) (s : string) :
  all_chars p s = true -> all_chars p (lstrip_chars q s) = true.
Proof.
  induction s as [|c s IH]; [reflexivity|]. simpl. intros H.
  destruct (q c); [|exact H]. apply andb_true_iff in H as [_ H]. apply IH, H.
Qed.

(** A text holds no line feed before the first one. *)
Lemma find_LF_take (s : string) (n : nat) :
  (n <= default (String.length s) (find LF s))%nat -> one_line (take n s).
Proof.
  unfold one_line. revert n. induction s as [|c s IH]; intros n.
  - destruct n; reflexivity.
  - destruct n as [|n]; [reflexivity|]. cbn [find take all_chars].
    rewrite startswith_LF_eqb. unfold not_lf.
    destruct (Ascii.eqb c _); [simpl; lia|]. simpl. intros Hn.
    apply IH. destruct (find LF s); simpl in *; lia.
Qed.

Lemma length_drop (n : nat) (s : string) :
  String.length (drop n s) = (String.length s - n)%nat.
Proof.
  revert s. induction n as [|n IH]; intros [|c s]; simpl; try lia. apply IH.
Qed.

Lemma slice_one_line (text : string) (start e : nat) :
  (start <= String.length text)%nat ->
  (e <= default (String.length text) (find_from LF text start))%nat ->
  one_line (slice text start e).
Proof.
  intros Hs He. unfold slice. apply find_LF_take.
  unfold find_from in He. destruct (find LF (drop start text)); simpl in *.
  - lia.
  - rewrite length_drop. lia.
Qed.

Lemma find_bound (sub s : string) (i : nat) :
  find sub s = Some i -> (i + String.length sub <= String.length s)%nat.
Proof.
  revert i. induction s as [|c s IH]; intros i; cbn [find].
  - destruct (startswith sub "") eqn:E; [|discriminate].
    intros [= <-]. destruct sub; [simpl; lia|discriminate].
  - destruct (startswith sub (String c s)) eqn:E.
    + intros [= <-]. clear IH. unfold startswith in E.
      assert (forall a b, String.prefix a b = true ->
                (String.length a <= String.length b)%nat) as H.
      { induction a as [|x a IHa]; intros [|y b]; simpl; try lia;
          try discriminate.
        destruct (ascii_dec x y); [|discriminate].
        intros Hp. specialize (IHa b Hp). lia. }
      apply H in E. lia.
    + destruct (find sub s) as [j|]; [|discriminate].
      intros [= <-]. specialize (IH j eq_refl). simpl. lia.
Qed.

Lemma length_lower (s : string) : String.length (lower s) = String.length s.
Proof. induction s; simpl; congruence. Qed.

Lemma section_at_short (text keyword : string) (idx : nat) :
  (idx + String.length keyword <= String.length text)%nat ->
  (String.length (section_at text keyword idx) <= 200)%nat /\
  one_line (section_at text keyword idx).
Proof.
  intros Hidx. unfold section_at.
  set (start := (idx + String.length keyword)%nat).
  set (e := Nat.min _ _).
  set (section := strip (lstrip_chars is_lead (strip (slice text start e)))).
  assert (one_line section) as Hl.
  { unfold section, one_line. apply all_chars_strip, all_chars_lstrip_chars,
      all_chars_strip.
    apply slice_one_line; [exact Hidx|]. unfold e. apply Nat.le_min_l. }
  assert (forall n, (n <= 200)%nat ->
            (String.length (take n section) <= 200)%nat /\
            one_line (take n section)) as H.
  { intros n Hn. split.
    - pose proof (length_take n section). lia.
    - apply all_chars_take, Hl. }
  destruct (find "." section) as [p|]; [|apply H; lia].
  destruct (p <? 200)%nat eqn:E; [|apply H; lia].
  apply Nat.ltb_lt in E. apply H. lia.
Qed.

Lemma _extract_section_bounds (text : string) (keywords : list string) :
  (String.length (_extract_section text keywords) <= 200)%nat /\
  one_line (_extract_section text keywords).
Proof.
  induction keywords as [|keyword rest IH]; [split; [simpl; lia|reflexivity]|].
  cbn [_extract_section].
  destruct (find keyword (lower text)) as [idx|] eqn:E; [|exact IH].
  apply section_at_short. apply find_bound in E.
  rewrite length_lower in E. exact E.
Qed.

(** An extracted section has 200 characters at most, on one line. *)
Theorem _extract_section_short (text : string) (keywords : list string) :
  (String.length (_extract_section text keywords) <= 200)%nat /\
  one_line (_extract_section text keywords).
Proof. exact (_extract_section_bounds text keywords). Qed.

Lemma item_step_trimmed (items : list string) (raw_line : string) :
  Forall trimmed items -> Forall trimmed (item_step items raw_line).
Proof.
  intros Hi. unfold item_step.
  repeat match goal with |- context [if ?b then _ else _] =>
    match b with
    | String.eqb _ _ => fail 1
    | _ => destruct b
    end end; try exact Hi.
  - unfold append. apply Forall_app. split; [exact Hi|].
    constructor; [apply strip_trimmed|constructor].
  - unfold append. apply Forall_app. split; [exact Hi|].
    constructor; [apply strip_trimmed|constructor].
  - apply Forall_app. split; [exact Hi|].
    apply List.Forall_map. apply List.Forall_forall. intros x _.
    apply strip_trimmed.
Qed.

Lemma Forall_firstn_keep {A : Type} (P : A -> Prop) (n : nat) (l : list A) :
  Forall P l -> Forall P (firstn n l).
Proof.
  intros H. revert n. induction H as [|x l Hx _ IH]; intros [|n]; simpl;
    constructor; auto.
Qed.

(** The items of a one-line text: none, one bulleted or numbered item, or
    the pieces between its commas. *)
Lemma _extract_list_items_one_line (text : string) :
  one_line text ->
  _extract_list_items text = firstn 10 (item_step [] text).
Proof.
  intros H. unfold _extract_list_items. rewrite (split_LF_single text H).
  reflexivity.
Qed.

Lemma rstrip_prefix (s : string) : exists t, s = (rstrip s ++ t)%string.
Proof.
  induction s as [|c s [t IH]]; [exists ""; reflexivity|]. cbn [rstrip].
  destruct (is_empty (rstrip s) && is_space c).
  - exists (String c s). reflexivity.
  - exists t. rewrite append_cons, <- IH. reflexivity.
Qed.

Lemma contains_strip (sub s : string) :
  contains sub (strip s) = true -> contains sub s = true.
Proof.
  assert (forall s, contains sub (lstrip s) = true -> contains sub s = true)
    as Hl.
  { clear s. induction s as [|c s IH]; [auto|]. cbn [lstrip].
    destruct (is_space c); [|auto]. intros H. cbn [contains].
    rewrite (IH H). apply orb_true_r. }
  intros H. apply Hl. unfold strip in H.
  destruct (rstrip_prefix (lstrip s)) as [t Ht]. rewrite Ht.
  apply contains_append, H.
Qed.

Lemma item_step_no_comma (line : string) :
  contains "," line = false -> (List.length (item_step [] line) <= 1)%nat.
Proof.
  intros Hc. unfold item_step. cbv zeta.
  assert (contains "," (strip line) = false) as ->.
  { destruct (contains "," (strip line)) eqn:E; [|reflexivity].
    apply contains_strip in E. congruence. }
  cbn [andb].
  repeat match goal with |- context [if ?b then _ else _] =>
    destruct b end; cbn [List.length append app]; lia.
Qed.

Lemma _parse_analysis_is_Some (a u : string) (tweets : list Tweet) :
  exists vp, _parse_analysis a u tweets = Some vp /\
    common_topics vp
    = firstn 10 (_extract_list_items
                   (_extract_section a ["topics"; "themes"; "subjects"])) /\
    hashtag_usage vp = fold_left count_hashtags tweets ∅.
Proof.
  unfold _parse_analysis. destruct tweets as [|t l].
  - eexists. cbn [mbind option_bind]. split; [reflexivity|].
    split; reflexivity.
  - rewrite py_div_of_nat by apply nonempty_length_pos.
    cbn [mbind option_bind]. eexists. split; [reflexivity|].
    split; reflexivity.
Qed.

(** Parsing an analysis always gives a profile, with ten topics at most,
    each of them trimmed; and with one topic at most when the section of the
    topics holds no comma, for a section never goes beyond its line. *)
Theorem _parse_analysis_topics (a u : string) (tweets : list Tweet) :
  exists vp, _parse_analysis a u tweets = Some vp /\
    (List.length (common_topics vp) <= 10)%nat /\
    Forall (fun topic => strip topic = topic) (common_topics vp) /\
    (contains "," (_extract_section a ["topics"; "themes"; "subjects"])
     = false ->
     (List.length (common_topics vp) <= 1)%nat).
Proof.
  destruct (_parse_analysis_is_Some a u tweets) as (vp & Hvp & Ht & _).
  exists vp. split; [exact Hvp|]. rewrite Ht.
  pose proof (_extract_section_bounds a ["topics"; "themes"; "subjects"])
    as [_ Hline].
  rewrite (_extract_list_items_one_line _ Hline).
  split; [rewrite length_firstn; lia|]. split.
  - do 2 apply Forall_firstn_keep. apply item_step_trimmed. constructor.
  - intros Hc. apply item_step_no_comma in Hc.
    rewrite !length_firstn. lia.
Qed.

(** With the topics of a parsed analysis the topic focus is scored by
    their number alone, and, as there are ten at most, never with the 0.4 of
    more than twelve topics. *)
Theorem _score_topic_focus_parsed (a u : string) (tweets posts : list Tweet)
    (vp : VoiceProfile) :
  _parse_analysis a u tweets = Some vp ->
  common_topics vp <> [] ->
  exists s,
    _score_topic_focus posts (Some vp)
    = Some (s, of_nat (List.length (common_topics vp))) /\
    (s = 1.0 \/ s = 0.5 \/ s = 0.7)%Q.
Proof.
  intros Hvp Hne.
  destruct (_parse_analysis_is_Some a u tweets) as (vp' & Hvp' & Ht & _).
  assert (vp' = vp) as -> by congruence.
  assert (List.length (common_topics vp) <= 10)%nat as Hlen
    by (rewrite Ht, length_firstn; lia).
  unfold _score_topic_focus. cbn [mbind option_bind].
  destruct (common_topics vp) as [|t ts]; [contradiction|].
  cbn [mbind option_bind].
  destruct (_ && _); [eexists; split; [reflexivity|auto]|].
  destruct (_ <=? 2)%nat; [eexists; split; [reflexivity|auto]|].
  destruct (_ <=? 12)%nat eqn:E; [eexists; split; [reflexivity|auto]|].
  apply Nat.leb_gt in E. lia.
Qed.

Lemma _score_topic_focus_parsed_witness :
  exists vp,
    _parse_analysis "Topics: ai, ml, data" "someone" [] = Some vp /\
    common_topics vp = ["ai"; "ml"; "data"] /\
    exists s,
      _score_topic_focus [] (Some vp)
      = Some (s, of_nat (List.length (common_topics vp))) /\
      (s = 1.0 \/ s = 0.5 \/ s = 0.7)%Q.
Proof.
  eexists. split; [reflexivity|]. split; [reflexivity|].
  apply (_score_topic_focus_parsed "Topics: ai, ml, data" "someone" [] []);
    [reflexivity|discriminate].
Defined.

Lemma lower_char_idem (c : ascii) : lower_char (lower_char c) = lower_char c.
Proof. destruct c as [[] [] [] [] [] [] [] []]; reflexivity. Qed.

Lemma lower_idem (s : string) : lower (lower s) = lower s.
Proof.
  induction s as [|c s IH]; [reflexivity|]. simpl.
  rewrite lower_char_idem, IH. reflexivity.
Qed.

Lemma startswith_hash_lower (w : string) :
  startswith "#" w = true -> startswith "#" (lower w) = true.
Proof.
  assert (forall (c : ascii) (s : string),
            startswith "#" (String c s) = Ascii.eqb c "#") as H.
  { intros c s. unfold startswith. cbn [String.prefix].
    match goal with |- context [ascii_dec ?a c] =>
      destruct (ascii_dec a c) as [<-|Hne] end.
    - destruct s; reflexivity.
    - symmetry. apply Ascii.eqb_neq. congruence. }
  destruct w as [|c w]; [intros H0; exact H0|]. cbn [lower].
  rewrite !H. intros E. apply Ascii.eqb_eq in E. subst c. reflexivity.
Qed.

Lemma count_hashtags_ok (usage : gmap string Z) (tweet : Tweet) :
  usage_ok usage -> usage_ok (count_hashtags usage tweet).
Proof.
  unfold count_hashtags. generalize (split_ws (text tweet)). intros ws.
  revert usage. induction ws as [|w ws IH]; intros usage Hu; [exact Hu|].
  cbn [fold_left]. apply IH.
  destruct (startswith "#" w) eqn:E; [|exact Hu].
  intros k n. rewrite lookup_insert.
  destruct (decide (lower w = k)) as [<-|_]; [|apply Hu].
  intros [= <-]. split; [apply startswith_hash_lower, E|].
  split; [apply lower_idem|].
  destruct (usage !! lower w) as [m|] eqn:Em; simpl; [|lia].
  destruct (Hu _ _ Em) as (_ & _ & Hm). lia.
Qed.

(** The hashtags counted for a profile start with "#", are in lower case
    and have a count of one at least. *)
Theorem _parse_analysis_hashtags (a u : string) (tweets : list Tweet) :
  exists vp, _parse_analysis a u tweets = Some vp /\
    forall k n, hashtag_usage vp !! k = Some n ->
      startswith "#" k = true /\ lower k = k /\ (1 <= n)%Z.
Proof.
  destruct (_parse_analysis_is_Some a u tweets) as (vp & Hvp & _ & Hh).
  exists vp. split; [exact Hvp|]. rewrite Hh.
  assert (forall l usage, usage_ok usage ->
            usage_ok (fold_left count_hashtags l usage)) as H.
  { induction l as [|t l IH]; intros usage Hu; [exact Hu|].
    cbn [fold_left]. apply IH, count_hashtags_ok, Hu. }
  apply H. intros k n Hk. rewrite lookup_empty in Hk. discriminate.
Qed.

End VoiceFacts.

(** ** The health scorer without posts *)

Section EmptyProfile.
Import PyStr PyNum PyList Schemas Analytics ProfileHealth Spec Props.
Local Open Scope Q_scope.







End EmptyProfile.

(** ** The cadence of posts in any order *)

Section CadenceOrder.
Import PyStr PyNum PyList Schemas Analytics ProfileHealth Spec Props.
Local Open Scope Q_scope.

(** The cadence depends on the dates of the posts only, in any order. *)
Lemma _score_cadence_dated (tweets tweets' : list Tweet) :
  Permutation (List.map created_at tweets) (List.map created_at tweets') ->
  _score_cadence tweets = _score_cadence tweets'.
Proof.
  intros Hp. unfold _score_cadence.
  assert (Permutation (dated_times tweets) (dated_times tweets')) as Hd
    by (rewrite !dated_times_map, Hp; reflexivity).
  pose proof (Permutation_length Hd) as Hlen.
  destruct (dated_times tweets) as [|t [|t2 rest]];
    destruct (dated_times tweets') as [|t' [|t2' rest']];
    try discriminate Hlen; try reflexivity.
  rewrite (maximum_perm _ _ _ _ Hd), (minimum_perm _ _ _ _ Hd), Hlen.
  reflexivity.
Qed.

(** C7, amended: ten posts dated one day apart, listed in any order, span
    nine days, so that [posts_per_week] is 10 / 9 * 7 = 70/9, reported as
    7.78, and the cadence sub-score is 0.9. *)
Theorem cadence_ten_daily_posts (tweets : list Tweet) (t0 : datetime) :
  Permutation (List.map created_at tweets) (daily_from t0 10) ->
  exists ppw, _score_cadence tweets = Some (0.9, ppw) /\
              ppw == 70 # 9 /\ py_round ppw 2 == 7.78.
Proof.
  intros Hp. exists (70 # 9).
  split; [|split; [reflexivity|vm_compute; reflexivity]].
  set (listed := List.map (fun d => Inputs.post None d "post")
                   (daily_from t0 10)).
  assert (List.map created_at listed = daily_from t0 10) as Hl
    by (unfold listed; rewrite List.map_map; apply List.map_id).
  rewrite (_score_cadence_dated tweets listed) by (rewrite Hl; exact Hp).
  exact (_score_cadence_daily listed t0 Hl).
Qed.

(** The amended C7 at ten posts dated day 0 to day 9, the newest first. *)
Lemma cadence_ten_daily_posts_witness :
  Permutation (List.map created_at (rev Inputs.ten_daily_posts))
    (daily_from 0%Z 10) /\
  exists ppw, _score_cadence (rev Inputs.ten_daily_posts) = Some (0.9, ppw) /\
              ppw == 70 # 9 /\ py_round ppw 2 == 7.78.
Proof.
  assert (Permutation (List.map created_at (rev Inputs.ten_daily_posts))
            (daily_from 0%Z 10)) as Hp.
  { change (List.map created_at (rev Inputs.ten_daily_posts))
      with (rev (daily_from 0%Z 10)).
    symmetry. apply Permutation_rev. }
  split; [exact Hp|].
  exact (cadence_ten_daily_posts (rev Inputs.ten_daily_posts) 0%Z Hp).
Defined.

End CadenceOrder.

(** ** Rounding to binary64 *)

Section Float64Facts.
Import PyNum Float64.
Local Open Scope Q_scope.

Lemma pow2_pos (z : Z) : 0 < 2 ^ z.
Proof. apply Qpower_0_lt. reflexivity. Qed.

Lemma pow2_add (a b : Z) : 2 ^ (a + b) == 2 ^ a * 2 ^ b.
Proof. apply Qpower_plus. discriminate. Qed.

Lemma pow2_le (a b : Z) : (a <= b)%Z -> 2 ^ a <= 2 ^ b.
Proof. intros H. apply Qpower_le_compat_l; [exact H|discriminate]. Qed.

Lemma pow2_lt_inv (a b : Z) : 2 ^ a < 2 ^ b -> (a < b)%Z.
Proof. intros H. apply (Qpower_lt_compat_l_inv 2); [exact H|reflexivity]. Qed.

Lemma pow2_inject (n : Z) : (0 <= n)%Z -> 2 ^ n == inject_Z (2 ^ n).
Proof. intros H. rewrite (Zpower_Qpower 2 n H). reflexivity. Qed.

(** A positive integer lies between two powers of two. *)
Lemma log2_bounds (n : Z) :
  (0 < n)%Z -> 2 ^ Z.log2 n <= inject_Z n /\ inject_Z n < 2 * 2 ^ Z.log2 n.
Proof.
  intros Hn. destruct (Z.log2_spec n Hn) as [Hlo Hhi].
  pose proof (Z.log2_nonneg n) as H0.
  rewrite (pow2_inject _ H0). split.
  - rewrite <- Zle_Qle. exact Hlo.
  - change 2 with (inject_Z 2) at 1. rewrite <- inject_Z_mult, <- Zlt_Qlt.
    rewrite Z.pow_succ_r in Hhi by exact H0. exact Hhi.
Qed.

Lemma quotient_between (q N M A B D : Q) :
  0 < M -> q * M == N -> A <= N -> N < 2 * A -> B <= M -> M < 2 * B ->
  0 < B -> D * B == A ->
  (D <= q -> q < 2 * D) /\ (q < D -> D < 2 * q).
Proof.
  intros HM Hq HA1 HA2 HB1 HB2 HB HD. split; intros H.
  - apply (Qmult_lt_r _ _ M HM). nra.
  - apply (Qmult_lt_r _ _ M HM). nra.
Qed.

Lemma ilog2_spec (q : Q) :
  0 < q -> 2 ^ ilog2 q <= q /\ q < 2 ^ (ilog2 q + 1).
Proof.
  intros Hq. unfold ilog2.
  destruct q as [n m].
  assert (0 < n)%Z as Hn by (unfold Qlt in Hq; simpl in Hq; lia).
  cbn [Qnum Qden].
  destruct (log2_bounds n Hn) as [Hn1 Hn2].
  destruct (log2_bounds (Zpos m) eq_refl) as [Hm1 Hm2].
  set (a := Z.log2 n) in *. set (b := Z.log2 (Z.pos m)) in *.
  assert ((n # m) * inject_Z (Z.pos m) == inject_Z n) as Hnm.
  { unfold Qeq, Qmult, inject_Z. simpl. lia. }
  assert (2 ^ (a - b) * 2 ^ b == 2 ^ a) as Hd.
  { rewrite <- pow2_add. apply Qpower_comp; [reflexivity|lia]. }
  assert (0 < inject_Z (Z.pos m)) as Hm0 by reflexivity.
  destruct (quotient_between (n # m) _ _ _ _ _ Hm0 Hnm Hn1 Hn2 Hm1 Hm2
              (pow2_pos b) Hd) as [Hge Hlt].
  assert (2 ^ (a - b + 1) == 2 * 2 ^ (a - b)) as Hd2
    by (rewrite pow2_add; change (2 ^ 1) with 2; ring).
  assert (2 * 2 ^ (a - b - 1) == 2 ^ (a - b)) as Hd3.
  { change 2 with (2 ^ 1) at 1. rewrite <- pow2_add.
    apply Qpower_comp; [reflexivity|lia]. }
  destruct (Qleb (2 ^ (a - b)) (n # m)) eqn:E;
    [apply Qleb_true in E|apply Qleb_false in E].
  - split; [exact E|]. rewrite Hd2. exact (Hge E).
  - split.
    + specialize (Hlt E). lra.
    + replace (a - b - 1 + 1)%Z with (a - b)%Z by lia. exact E.
Qed.

Lemma pow2_split (e k : Z) :
  (0 <= k)%Z -> 2 ^ (e + k) == inject_Z (2 ^ k) * 2 ^ e.
Proof. intros Hk. rewrite pow2_add, (pow2_inject k Hk). ring. Qed.

Lemma nearest_zero (q : Q) : q == 0 -> nearest q = 0.
Proof.
  intros H. unfold nearest. apply Qeq_bool_iff in H. rewrite H. reflexivity.
Qed.

Lemma nearest_eq (q : Q) :
  ~ q == 0 ->
  nearest q
  == inject_Z (round_half_even (q / 2 ^ exponent q)) * 2 ^ exponent q.
Proof.
  intros H. unfold nearest.
  destruct (Qeq_bool q 0) eqn:E; [apply Qeq_bool_iff in E; contradiction|].
  cbv zeta. apply Qred_correct.
Qed.

(** A number between two multiples of its last bit is rounded to a number
    between them. *)
Lemma nearest_between (q : Q) (lo hi : Z) :
  ~ q == 0 ->
  inject_Z lo * 2 ^ exponent q <= q -> q <= inject_Z hi * 2 ^ exponent q ->
  inject_Z lo * 2 ^ exponent q <= nearest q /\
  nearest q <= inject_Z hi * 2 ^ exponent q.
Proof.
  intros H0 Hlo Hhi. rewrite (nearest_eq q H0).
  pose proof (pow2_pos (exponent q)) as Hp.
  assert (inject_Z lo <= q / 2 ^ exponent q) as Hlo'.
  { apply Qle_shift_div_l; assumption. }
  assert (q / 2 ^ exponent q <= inject_Z hi) as Hhi'.
  { apply Qle_shift_div_r; assumption. }
  destruct (round_half_even_bounds _ _ _ Hlo' Hhi') as [H1 H2].
  rewrite Zle_Qle in H1, H2.
  split; apply Qmult_le_compat_r; assumption || apply Qlt_le_weak, Hp.
Qed.

Lemma Qabs_pos_lt (q : Q) : ~ q == 0 -> 0 < Qabs q.
Proof.
  intros H. destruct (Qlt_le_dec q 0) as [Hlt|Hle].
  - rewrite Qabs_neg by lra. lra.
  - rewrite Qabs_pos by lra.
    destruct (Qlt_le_dec 0 q) as [Hp|Hn]; [exact Hp|].
    exfalso. apply H. lra.
Qed.

Lemma exponent_upper (q : Q) :
  ~ q == 0 -> Qabs q < 2 ^ (exponent q + 53).
Proof.
  intros H. destruct (ilog2_spec _ (Qabs_pos_lt q H)) as [_ Hhi].
  eapply Qlt_le_trans; [exact Hhi|]. apply pow2_le. unfold exponent. lia.
Qed.

Lemma exponent_lower (q : Q) :
  ~ q == 0 -> (-1074 < exponent q)%Z -> 2 ^ (exponent q + 52) <= Qabs q.
Proof.
  intros H He. destruct (ilog2_spec _ (Qabs_pos_lt q H)) as [Hlo _].
  eapply Qle_trans; [|exact Hlo]. apply pow2_le. unfold exponent in *. lia.
Qed.

Lemma exponent_mono (a b : Q) :
  ~ a == 0 -> Qabs a <= Qabs b -> (exponent a <= exponent b)%Z.
Proof.
  intros Ha Hab.
  assert (~ b == 0) as Hb.
  { intros E. pose proof (Qabs_pos_lt a Ha) as Hp.
    rewrite E in Hab. change (Qabs 0) with 0 in Hab. lra. }
  destruct (ilog2_spec _ (Qabs_pos_lt a Ha)) as [Hlo _].
  destruct (ilog2_spec _ (Qabs_pos_lt b Hb)) as [_ Hhi].
  assert (ilog2 (Qabs a) < ilog2 (Qabs b) + 1)%Z as Hlt.
  { apply pow2_lt_inv. lra. }
  unfold exponent. lia.
Qed.

Lemma nearest_nonneg (q : Q) : 0 <= q -> 0 <= nearest q.
Proof.
  intros Hq. destruct (Qeq_dec q 0) as [E|E].
  - rewrite (nearest_zero q E). lra.
  - pose proof (exponent_upper q E) as Hu. rewrite Qabs_pos in Hu by exact Hq.
    rewrite pow2_split in Hu by lia.
    destruct (nearest_between q 0 (2 ^ 53) E) as [H _];
      [change (inject_Z 0) with 0; lra|lra|].
    change (inject_Z 0) with 0 in H. lra.
Qed.

Lemma nearest_nonpos (q : Q) : q <= 0 -> nearest q <= 0.
Proof.
  intros Hq. destruct (Qeq_dec q 0) as [E|E].
  - rewrite (nearest_zero q E). lra.
  - pose proof (exponent_upper q E) as Hu. rewrite Qabs_neg in Hu by exact Hq.
    rewrite pow2_split in Hu by lia.
    destruct (nearest_between q (- 2 ^ 53) 0 E) as [_ H];
      [rewrite inject_Z_opp; lra|change (inject_Z 0) with 0; lra|].
    change (inject_Z 0) with 0 in H. lra.
Qed.

Lemma nearest_same_exponent (a b : Q) :
  ~ a == 0 -> ~ b == 0 -> exponent a = exponent b -> a <= b ->
  nearest a <= nearest b.
Proof.
  intros Ha Hb He Hab. rewrite (nearest_eq a Ha), (nearest_eq b Hb), He.
  pose proof (pow2_pos (exponent b)) as Hp.
  apply Qmult_le_compat_r; [|lra].
  rewrite <- Zle_Qle. apply round_half_even_mono.
  apply Qmult_le_compat_r; [exact Hab|].
  apply Qlt_le_weak, Qinv_lt_0_compat, Hp.
Qed.

(** Rounding to the nearest binary64 number keeps the order. *)
Lemma nearest_mono (a b : Q) : a <= b -> nearest a <= nearest b.
Proof.
  intros Hab.
  destruct (Qlt_le_dec 0 a) as [Ha|Ha].
  - (* both positive *)
    assert (~ a == 0) as Ha0 by lra. assert (~ b == 0) as Hb0 by lra.
    assert (exponent a <= exponent b)%Z as He
      by (apply exponent_mono; [exact Ha0|rewrite !Qabs_pos by lra; exact Hab]).
    destruct (Z.eq_dec (exponent a) (exponent b)) as [E|E];
      [apply nearest_same_exponent; assumption|].
    pose proof (exponent_upper a Ha0) as Hu.
    rewrite Qabs_pos, pow2_split in Hu by lia || lra.
    assert (-1074 < exponent b)%Z as Hb1 by (unfold exponent in *; lia).
    pose proof (exponent_lower b Hb0 Hb1) as Hl.
    rewrite Qabs_pos, pow2_split in Hl by lia || lra.
    destruct (nearest_between a 0 (2 ^ 53) Ha0) as [_ H1];
      [change (inject_Z 0) with 0; lra|lra|].
    destruct (nearest_between b (2 ^ 52) (2 ^ 53) Hb0) as [H2 _];
      [exact Hl| |].
    { pose proof (exponent_upper b Hb0) as Hu'.
      rewrite Qabs_pos, pow2_split in Hu' by lia || lra. lra. }
    eapply Qle_trans; [exact H1|]. eapply Qle_trans; [|exact H2].
    rewrite <- !pow2_split by lia. apply pow2_le. lia.
  - destruct (Qlt_le_dec b 0) as [Hb|Hb].
    + (* both negative *)
      assert (~ a == 0) as Ha0 by lra. assert (~ b == 0) as Hb0 by lra.
      assert (exponent b <= exponent a)%Z as He
        by (apply exponent_mono; [exact Hb0|rewrite !Qabs_neg by lra; lra]).
      destruct (Z.eq_dec (exponent a) (exponent b)) as [E|E];
        [apply nearest_same_exponent; assumption|].
      pose proof (exponent_upper b Hb0) as Hu.
      rewrite Qabs_neg, pow2_split in Hu by lia || lra.
      assert (-1074 < exponent a)%Z as Ha1 by (unfold exponent in *; lia).
      pose proof (exponent_lower a Ha0 Ha1) as Hl.
      rewrite Qabs_neg, pow2_split in Hl by lia || lra.
      destruct (nearest_between b (- 2 ^ 53) 0 Hb0) as [H1 _];
        [rewrite inject_Z_opp; lra|change (inject_Z 0) with 0; lra|].
      destruct (nearest_between a (- 2 ^ 53) (- 2 ^ 52) Ha0) as [_ H2];
        [|rewrite inject_Z_opp; lra|].
      { pose proof (exponent_upper a Ha0) as Hu'.
        rewrite Qabs_neg, pow2_split in Hu' by lia || lra.
        rewrite inject_Z_opp. lra. }
      eapply Qle_trans; [exact H2|]. eapply Qle_trans; [|exact H1].
      rewrite !inject_Z_opp.
      assert (inject_Z (2 ^ 53) * 2 ^ exponent b
              <= inject_Z (2 ^ 52) * 2 ^ exponent a) as Hp.
      { rewrite <- !pow2_split by lia. apply pow2_le. lia. }
      lra.
    + eapply Qle_trans; [apply nearest_nonpos, Ha|apply nearest_nonneg, Hb].
Qed.

Lemma nearest_proper (a b : Q) : a == b -> nearest a == nearest b.
Proof.
  intros H. apply Qle_antisym; apply nearest_mono; rewrite H; apply Qle_refl.
Qed.

Lemma ilog2_unique (q : Q) (k : Z) :
  2 ^ k <= q -> q < 2 ^ (k + 1) -> ilog2 q = k.
Proof.
  intros Hlo Hhi. pose proof (pow2_pos k) as Hp.
  destruct (ilog2_spec q) as [H1 H2]; [lra|].
  assert (ilog2 q < k + 1)%Z by (apply pow2_lt_inv; lra).
  assert (k < ilog2 q + 1)%Z by (apply pow2_lt_inv; lra).
  lia.
Qed.

(** A power of two and its opposite are binary64 numbers, overflow apart. *)
Lemma nearest_pow2 (k : Z) (q : Q) :
  (-1022 <= k)%Z -> Qabs q == 2 ^ k -> nearest q == q.
Proof.
  intros Hk Hq. pose proof (pow2_pos k) as Hp.
  assert (~ q == 0) as H0.
  { intros E. rewrite E in Hq. change (Qabs 0) with 0 in Hq. lra. }
  assert (exponent q = (k - 52)%Z) as He.
  { unfold exponent. rewrite (ilog2_unique (Qabs q) k); [lia|lra|].
    rewrite Hq. apply Qpower_lt_compat_l; [lia|reflexivity]. }
  assert (inject_Z (2 ^ 52) * 2 ^ (k - 52) == 2 ^ k) as Hv.
  { rewrite <- pow2_split by lia. apply Qpower_comp; [reflexivity|lia]. }
  destruct (Qlt_le_dec q 0) as [Hneg|Hpos].
  - rewrite Qabs_neg in Hq by lra.
    destruct (nearest_between q (- 2 ^ 52) (- 2 ^ 52) H0) as [H1 H2];
      rewrite ?He, ?inject_Z_opp; try lra.
    rewrite He, inject_Z_opp in H1, H2. lra.
  - rewrite Qabs_pos in Hq by lra.
    destruct (nearest_between q (2 ^ 52) (2 ^ 52) H0) as [H1 H2];
      rewrite ?He; try lra.
    rewrite He in H1, H2. lra.
Qed.

(** A result between -2^k and 2^k does not overflow, up to k = 1000. *)
Lemma rounded_bounded (k : Z) (x : Q) :
  (0 <= k <= 1000)%Z -> - 2 ^ k <= x -> x <= 2 ^ k ->
  rounded x = Finite (nearest x) /\
  checked x = Some (nearest x) /\
  - 2 ^ k <= nearest x /\ nearest x <= 2 ^ k.
Proof.
  intros Hk Hlo Hhi. pose proof (pow2_pos k) as Hpos.
  assert (nearest (2 ^ k) == 2 ^ k) as Hp
    by (apply (nearest_pow2 k); [lia|apply Qabs_pos; lra]).
  assert (nearest (- 2 ^ k) == - 2 ^ k) as Hn.
  { apply (nearest_pow2 k); [lia|]. rewrite Qabs_opp. apply Qabs_pos. lra. }
  assert (- 2 ^ k <= nearest x) as H1
    by (rewrite <- Hn; apply nearest_mono, Hlo).
  assert (nearest x <= 2 ^ k) as H2
    by (rewrite <- Hp; apply nearest_mono, Hhi).
  assert (overflows (nearest x) = false) as Ho.
  { unfold overflows. apply Qleb_false.
    assert (2 ^ k < 2 ^ 1024) as Hlt
      by (apply Qpower_lt_compat_l; [lia|reflexivity]).
    apply Qabs_case; intros _; lra. }
  unfold rounded, checked. cbv zeta. rewrite Ho. auto.
Qed.

End Float64Facts.

(** ** The conversation score in binary64 *)

Section ReplyRatio64.
Import PyNum Float64 ProfileHealth64.
Local Open Scope Q_scope.

Lemma literal_reply_ratio :
  0.4 < literal 0.45 /\ literal 0.45 < 0.5 /\ literal 0.2 <= 1.
Proof. repeat split; vm_compute; reflexivity || discriminate. Qed.

(** The conversation score of a ratio between 0 and 1, operation by
    operation: nothing overflows. *)
Lemma _score_reply_ratio_finite (r : Q) :
  0 <= r -> r <= 1 ->
  _score_reply_ratio (Finite r)
  = Some
      (let d := nearest (r + - literal 0.45) in
       let q := nearest (Qabs d / literal 0.45) in
       let s := nearest (1 + - q) in
       if Qltb (literal 0.2) s then Finite s else Finite (literal 0.2)).
Proof.
  intros H0 H1. destruct literal_reply_ratio as (HT1 & HT2 & _).
  unfold _score_reply_ratio, sub, neg, abs, add, max, gt. cbv zeta.
  set (T := literal 0.45) in *.
  destruct (rounded_bounded 2 (r + - T)) as (-> & _ & Hd1 & Hd2);
    [lia|change (2 ^ 2) with 4; lra|change (2 ^ 2) with 4; lra|].
  change (2 ^ 2) with 4 in Hd1, Hd2.
  set (d := nearest (r + - T)) in *.
  assert (0 <= Qabs d /\ Qabs d <= 4) as [Ha1 Ha2].
  { split; [apply Qabs_nonneg|]. apply Qabs_case; intros _; lra. }
  assert (0 < T) as HT by lra.
  assert (0 <= Qabs d / T /\ Qabs d / T <= 2 ^ 10) as [Hq1 Hq2].
  { split.
    - apply Qle_shift_div_l; [exact HT|]. lra.
    - apply Qle_shift_div_r; [exact HT|]. change (2 ^ 10) with 1024. lra. }
  unfold div.
  assert (is_zero (Finite T) = false) as -> by reflexivity.
  destruct (rounded_bounded 10 (Qabs d / T)) as (-> & _ & _ & Hn2);
    [lia|change (2 ^ 10) with 1024 in *; lra|exact Hq2|].
  pose proof (nearest_nonneg _ Hq1) as Hn1.
  set (q := nearest (Qabs d / T)) in *.
  cbn [mbind option_bind].
  destruct (rounded_bounded 10 (1 + - q)) as (-> & _);
    [lia|change (2 ^ 10) with 1024 in *; lra
    |change (2 ^ 10) with 1024 in *; lra|].
  reflexivity.
Qed.

Lemma _score_reply_ratio_order (a b : Q) :
  0 <= a -> a <= b -> b <= 1 ->
  exists sa sb,
    _score_reply_ratio (Finite a) = Some (Finite sa) /\
    _score_reply_ratio (Finite b) = Some (Finite sb) /\
    (b <= literal 0.45 -> sa <= sb) /\
    (literal 0.45 <= a -> sb <= sa) /\
    literal 0.2 <= sa /\ sa <= 1.
Proof.
  intros H0 Hab H1. destruct literal_reply_ratio as (HT1 & HT2 & HL).
  rewrite (_score_reply_ratio_finite a), (_score_reply_ratio_finite b) by lra.
  cbv zeta.
  set (T := literal 0.45) in *. set (L := literal 0.2) in *.
  assert (0 < T) as HT by lra.
  pose proof (nearest_mono (a + - T) (b + - T)) as Hd.
  set (da := nearest (a + - T)) in *. set (db := nearest (b + - T)) in *.
  assert (forall x y, Qabs x <= Qabs y ->
            nearest (1 + - nearest (Qabs y / T))
            <= nearest (1 + - nearest (Qabs x / T))) as Hs.
  { intros x y Hxy.
    assert (nearest (Qabs x / T) <= nearest (Qabs y / T)) as Hq.
    { apply nearest_mono. apply Qmult_le_compat_r; [exact Hxy|].
      apply Qlt_le_weak, Qinv_lt_0_compat, HT. }
    apply nearest_mono. lra. }
  assert (nearest (1 + - nearest (Qabs da / T)) <= 1) as Hone.
  { assert (0 <= nearest (Qabs da / T)) as Hq.
    { apply nearest_nonneg. apply Qle_shift_div_l; [exact HT|].
      pose proof (Qabs_nonneg da). lra. }
    apply (Qle_trans _ (nearest 1)); [apply nearest_mono; lra|].
    vm_compute. discriminate. }
  set (sa := nearest (1 + - nearest (Qabs da / T))) in *.
  set (sb := nearest (1 + - nearest (Qabs db / T))) in *.
  exists (if Qltb L sa then sa else L), (if Qltb L sb then sb else L).
  split; [destruct (Qltb L sa); reflexivity|].
  split; [destruct (Qltb L sb); reflexivity|].
  assert (forall x y : Q, x <= y ->
            (if Qltb L x then x else L) <= (if Qltb L y then y else L))
    as Hmax.
  { intros x y Hxy.
    destruct (Qltb L x) eqn:Ex; [apply Qltb_true in Ex|apply Qltb_false in Ex];
    (destruct (Qltb L y) eqn:Ey;
       [apply Qltb_true in Ey|apply Qltb_false in Ey]); lra. }
  split; [|split; [|split]].
  - intros Hb. apply Hmax. apply (Hs db da).
    assert (db <= 0) as Hdb by (apply nearest_nonpos; lra).
    assert (da <= db) as Hle by (apply Hd; lra).
    rewrite !Qabs_neg by lra. lra.
  - intros Ha. apply Hmax. apply (Hs da db).
    assert (0 <= da) as Hda by (apply nearest_nonneg; lra).
    assert (da <= db) as Hle by (apply Hd; lra).
    rewrite !Qabs_pos by lra. lra.
  - destruct (Qltb L sa) eqn:E; [apply Qltb_true in E; lra|lra].
  - destruct (Qltb L sa) eqn:E; [exact Hone|exact HL].
Qed.

End ReplyRatio64.

(** ** The engagement path returns *)

Section EngagementReturns.
Import PyStr PyNum PyList Schemas Float64 ProfileHealth64 Spec64.
Local Open Scope Q_scope.

Lemma pow2_1000 : 2 ^ 1000 == inject_Z (2 ^ 1000).
Proof. apply pow2_inject. lia. Qed.

Lemma inject_Z_abs_bounds (z b : Z) :
  (Z.abs z <= b)%Z -> - inject_Z b <= inject_Z z /\ inject_Z z <= inject_Z b.
Proof.
  intros H. rewrite <- inject_Z_opp, <- !Zle_Qle. lia.
Qed.

Lemma rounded_mean_returns (f : Tweet -> option Z) (tweets : list Tweet) :
  (Z.abs (sumZ (List.map (fun t => or0 (f t)) tweets)) <= 2 ^ 1000)%Z ->
  is_Some (rounded_mean f tweets).
Proof.
  intros Hb. unfold rounded_mean, mean.
  pose proof (pow2_pos 1000) as Hp.
  assert (forall m, - 2 ^ 1000 <= m -> m <= 2 ^ 1000 -> is_Some (round m 2))
    as Hround.
  { intros m H1 H2. unfold round.
    destruct (py_round_bounds m 2 (- 2 ^ 1000) (2 ^ 1000)) as [H3 H4];
      [rewrite inject_Z_opp, <- pow2_1000; exact H1
      |rewrite <- pow2_1000; exact H2|].
    rewrite inject_Z_opp, <- pow2_1000 in H3. rewrite <- pow2_1000 in H4.
    destruct (rounded_bounded 1000 (py_round m 2)) as (_ & -> & _);
      [lia|exact H3|exact H4|]. eexists. reflexivity. }
  destruct tweets as [|t l].
  - cbn [mbind option_bind]. apply Hround; lra.
  - set (total := sumZ _) in *. unfold int_div.
    assert (1 <= Z.of_nat (List.length (t :: l)))%Z as Hn
      by (cbn [List.length]; lia).
    set (n := Z.of_nat _) in *.
    destruct (n =? 0)%Z eqn:E; [apply Z.eqb_eq in E; lia|].
    destruct (inject_Z_abs_bounds total _ Hb) as [H1 H2].
    rewrite <- pow2_1000 in H1, H2.
    assert (1 <= inject_Z n) as HN
      by (change 1 with (inject_Z 1); rewrite <- Zle_Qle; exact Hn).
    destruct (rounded_bounded 1000 (inject_Z total / inject_Z n))
      as (_ & -> & H3 & H4); [lia| | |].
    + apply Qle_shift_div_l; [lra|]. nra.
    + apply Qle_shift_div_r; [lra|]. nra.
    + cbn [mbind option_bind]. apply Hround; assumption.
Qed.

Lemma divisor_not_zero (f : Q) : is_zero (max (Finite f) (Finite 1)) = false.
Proof.
  unfold max, gt.
  destruct (Qltb f 1) eqn:E; [reflexivity|]. apply Qltb_false in E.
  cbn [is_zero]. destruct (Qeq_bool f 0) eqn:E0; [|reflexivity].
  apply Qeq_bool_iff in E0. lra.
Qed.

Lemma _score_engagement_rate_values (rate : float) :
  In (_score_engagement_rate rate) table_values.
Proof.
  unfold _score_engagement_rate, table_values.
  repeat match goal with
         | |- context [if ?b then _ else _] => destruct b
         end; simpl; tauto.
Qed.

(** With totals of the counts and a number of followers up to 2^1000 in
    absolute value, the engagement path returns. *)
Lemma rounded_rate_returns (tweets : list Tweet) (followers : Z) :
  counts_within (2 ^ 1000) tweets ->
  (Z.abs followers <= 2 ^ 1000)%Z ->
  is_Some (rounded_rate tweets followers).
Proof.
  unfold counts_within. intros Hc Hf. unfold rounded_rate, rate_of.
  inversion_clear Hc as [|? ? H1 Hc1]. inversion_clear Hc1 as [|? ? H2 Hc2].
  inversion_clear Hc2 as [|? ? H3 Hc3]. inversion_clear Hc3 as [|? ? H4 _].
  destruct (rounded_mean_returns _ _ H1) as [a1 ->].
  destruct (rounded_mean_returns _ _ H2) as [a2 ->].
  destruct (rounded_mean_returns _ _ H3) as [a3 ->].
  destruct (rounded_mean_returns _ _ H4) as [a4 ->].
  cbn [mbind option_bind].
  destruct (inject_Z_abs_bounds followers _ Hf) as [Hf1 Hf2].
  rewrite <- pow2_1000 in Hf1, Hf2.
  unfold of_int.
  destruct (rounded_bounded 1000 (inject_Z followers)) as (_ & -> & _);
    [lia|exact Hf1|exact Hf2|].
  cbn [mbind option_bind]. unfold div. rewrite divisor_not_zero.
  eexists. reflexivity.
Qed.

End EngagementReturns.

(** ** The two sub-scores in binary64 *)

Section Binary64Facts.
Import PyStr PyNum PyList Schemas Float64 ProfileHealth64 Spec64.
Local Open Scope Q_scope.

Lemma followers_divisor {A : Type} (followers : option Z)
    (avg_engagement : float) (k : float -> option A) :
  (f ← followers_or_1 followers;
   div avg_engagement (max (Finite f) (Finite 1))) ≫= k
  = (f ← of_int (default 0%Z followers);
     div avg_engagement (max (Finite f) (Finite 1))) ≫= k.
Proof.
  assert (forall z, (z =? 0)%Z = false ->
            followers_or_1 (Some z) = of_int z) as Hnz
    by (intros z Hz; unfold followers_or_1; rewrite Hz; reflexivity).
  assert ((f ← followers_or_1 None;
           div avg_engagement (max (Finite f) (Finite 1))) ≫= k
          = (f ← of_int 0;
             div avg_engagement (max (Finite f) (Finite 1))) ≫= k)
    as H01 by reflexivity.
  destruct followers as [z|]; [|exact H01]. cbn [default].
  destruct (z =? 0)%Z eqn:E.
  - apply Z.eqb_eq in E. subst z. exact H01.
  - rewrite (Hnz z E). reflexivity.
Qed.

Lemma rounded_mean_no_posts (f : Tweet -> option Z) :
  rounded_mean f [] = Some 0.
Proof. reflexivity. Qed.

Lemma literal_thresholds :
  literal 0.001 < literal 0.002 /\ literal 0.002 < literal 0.005 /\
  literal 0.005 < literal 0.01 /\ literal 0.01 < literal 0.02.
Proof. repeat split; vm_compute; reflexivity. Qed.

Lemma _score_engagement_rate_steps : table_steps _score_engagement_rate.
Proof.
  intros rate. unfold _score_engagement_rate, ge.
  destruct literal_thresholds as (H1 & H2 & H3 & H4).
  revert H1 H2 H3 H4.
  generalize (literal 0.001) (literal 0.002) (literal 0.005) (literal 0.01)
    (literal 0.02).
  intros a b c d e H1 H2 H3 H4.
  destruct (Qleb e rate) eqn:Ee; [apply Qleb_true in Ee | apply Qleb_false in Ee];
  (destruct (Qleb d rate) eqn:Ed; [apply Qleb_true in Ed | apply Qleb_false in Ed]);
  (destruct (Qleb c rate) eqn:Ec; [apply Qleb_true in Ec | apply Qleb_false in Ec]);
  (destruct (Qleb b rate) eqn:Eb; [apply Qleb_true in Eb | apply Qleb_false in Eb]);
  (destruct (Qleb a rate) eqn:Ea; [apply Qleb_true in Ea | apply Qleb_false in Ea]);
  try (exfalso; lra);
  repeat split; intros H; first [reflexivity | exfalso; lra].
Qed.

(** The code's path to the sub-score against the rate of the rounded
    means. *)
Lemma engagement_quality_refines (tweets : list Tweet)
    (ui : option UserInfo) :
  engagement_quality tweets ui
  = (rate ← rounded_rate tweets (default 0%Z (ui ≫= followers_count));
     Some (_score_engagement_rate rate)).
Proof.
  unfold engagement_quality, engagement_rate, rounded_rate, rate_of.
  destruct tweets as [|t l].
  - exact (followers_divisor (ui ≫= followers_count) _ _).
  - unfold average_metrics, rounded_mean, mean. cbv beta iota zeta.
    generalize (Z.of_nat (List.length (t :: l))). intros n.
    generalize (t :: l). intros tweets.
    destruct (int_div (sumZ (List.map (fun t => or0 (like_count t)) tweets)) n)
      as [al|]; cbn [mbind option_bind]; [|reflexivity].
    destruct (int_div (sumZ (List.map (fun t => or0 (retweet_count t)) tweets)) n)
      as [ar|]; cbn [mbind option_bind]; [|destruct (round al 2); reflexivity].
    destruct (int_div (sumZ (List.map (fun t => or0 (reply_count t)) tweets)) n)
      as [ap|]; cbn [mbind option_bind];
      [|destruct (round al 2); [destruct (round ar 2)|]; reflexivity].
    destruct (int_div (sumZ (List.map (fun t => or0 (quote_count t)) tweets)) n)
      as [aq|]; cbn [mbind option_bind];
      [|destruct (round al 2);
        [destruct (round ar 2); [destruct (round ap 2)|]|]; reflexivity].
    cbn [mbind option_bind].
    destruct (round al 2) as [likes|]; [|reflexivity].
    destruct (round ar 2) as [retweets|]; [|reflexivity].
    destruct (round ap 2) as [replies|]; [|reflexivity].
    destruct (round aq 2) as [quotes|]; [|reflexivity].
    exact (followers_divisor (ui ≫= followers_count) _ _).
Qed.

(** C6, amended: the engagement sub-score is the threshold table applied to
    [rate = avg_engagement / max(followers, 1)], where [avg_engagement] is
    likes + reposts * 2 + replies + quotes over the means of the counts
    (missing counts taken as 0, a mean of 0 for no posts), each mean rounded
    to two decimals first, and all of it in binary64 arithmetic from left to
    right; the table gives 1.0 from 0.02, 0.8 from 0.01, 0.6 from 0.005,
    0.45 from 0.002, 0.3 from 0.001 and 0.2 below.  With totals of the
    counts and a number of followers up to 2^1000 in absolute value nothing
    overflows, and the sub-score is one of the six values. *)
Theorem engagement_quality_rounded_means (tweets : list Tweet)
    (ui : option UserInfo) :
  engagement_quality tweets ui
  = (rate ← rounded_rate tweets (default 0%Z (ui ≫= followers_count));
     Some (_score_engagement_rate rate)) /\
  table_steps _score_engagement_rate /\
  (counts_within (2 ^ 1000) tweets ->
   (Z.abs (default 0%Z (ui ≫= followers_count)) <= 2 ^ 1000)%Z ->
   exists q, engagement_quality tweets ui = Some q /\ In q table_values).
Proof.
  split; [exact (engagement_quality_refines tweets ui)|].
  split; [exact _score_engagement_rate_steps|].
  intros Hc Hf. rewrite engagement_quality_refines.
  destruct (rounded_rate_returns _ _ Hc Hf) as [rate ->].
  exists (_score_engagement_rate rate).
  split; [reflexivity|apply _score_engagement_rate_values].
Qed.

(** C6, as the claim states it, fails on three posts with one like in all
    and 333 followers: the mean 1/3 is rounded to 0.33 before the rate is
    taken, which then stays under 0.001 and scores 0.2, while the plain mean
    gives a rate over 0.001, which scores 0.3.  The exact arithmetic of
    [ProfileHealth.score_profile_health] gives 0.2 here as well. *)
Lemma engagement_quality_not_plain_mean :
  engagement_quality Inputs.three_posts_one_like (Some (Inputs.account 333))
  = Some (literal 0.2) /\
  (rate ← plain_rate Inputs.three_posts_one_like 333;
   Some (_score_engagement_rate rate)) = Some (literal 0.3) /\
  ~ literal 0.2 == literal 0.3 /\
  exists r,
    ProfileHealth.score_profile_health "someone" Inputs.three_posts_one_like
      (Some (Inputs.account 333)) None = Some r /\
    ProfileHealth.scores r !! "engagement_quality" = Some 0.2.
Proof.
  split; [vm_compute; reflexivity|]. split; [vm_compute; reflexivity|].
  split; [vm_compute; discriminate|].
  eexists. split; vm_compute; reflexivity.
Qed.

(** The binary64 numbers of some decimal literals, of a number on the way
    to zero, and of two ties. *)
Lemma nearest_values :
  nearest 0.1 = 3602879701896397 # 36028797018963968 /\
  nearest 0.02 = 5764607523034235 # 288230376151711744 /\
  nearest 0.45 = 8106479329266893 # 18014398509481984 /\
  nearest (1 # 3) = 6004799503160661 # 18014398509481984 /\
  nearest (2 ^ 53 + 1) = 2 ^ 53 /\
  nearest (2 ^ 53 + 3) = 2 ^ 53 + 4 /\
  nearest (3 * 2 ^ (-1076)) = 2 ^ (-1074) /\
  nearest (2 ^ (-1075)) = 0.
Proof. repeat split; vm_compute; reflexivity. Qed.

(** [round] on means whose decimal expansion ends in a five: the binary64
    number decides, not the decimal. *)
Lemma round_values :
  (m ← int_div 1 40; round m 2) = Some (literal 0.03) /\
  (m ← int_div 1 8; round m 2) = Some (literal 0.12) /\
  (m ← int_div 27 40; round m 2) = Some (literal 0.68) /\
  (m ← int_div 201 200; round m 2) = Some (literal 1.0).
Proof. repeat split; vm_compute; reflexivity. Qed.

(** Forty posts with one like in all and 25 followers: the mean 0.025 is
    rounded to 0.03, since the binary64 number of 1/40 lies above 0.025, and
    the rate 0.0012 scores 0.3. *)
Lemma engagement_quality_forty_posts :
  engagement_quality Inputs.forty_posts_one_like (Some (Inputs.account 25))
  = Some (literal 0.3).
Proof. vm_compute. reflexivity. Qed.

(** Ten posts with seven likes and one reply in all and 40 followers: the
    sum of the means 0.7 and 0.1 is 0.7999999999999999 in binary64, and the
    rate, just under 0.02, scores 0.8. *)
Lemma engagement_quality_float_sum :
  engagement_rate Inputs.ten_posts_seven_likes_one_reply
    (Some (Inputs.account 40))
  = Some (Finite (2882303761517117 # 144115188075855872)) /\
  engagement_quality Inputs.ten_posts_seven_likes_one_reply
    (Some (Inputs.account 40)) = Some (literal 0.8).
Proof. split; vm_compute; reflexivity. Qed.

(** The conversation score rises with the reply ratio up to 0.45 and falls
    from there on; it lies between 0.2 and 1, it is 1 at the ratio 0.45
    only, and it is 0.2 where no post is a reply and where every post is
    one.  In binary64 the code rises and falls in the same way over the
    ratios from 0 to 1, between 0.2 and 1; it gives 1.0 at 0.45 and 0.2 at
    0 and at 1; at 0.09, where the exact value is 0.2, it gives
    0.20000000000000007. *)
Theorem _score_reply_ratio_unimodal (a b : Q) :
  ((a <= b -> b <= 0.45 ->
    ProfileHealth._score_reply_ratio a <= ProfileHealth._score_reply_ratio b) /\
   (0.45 <= a -> a <= b ->
    ProfileHealth._score_reply_ratio b <= ProfileHealth._score_reply_ratio a) /\
   (ProfileHealth._score_reply_ratio a == 1 <-> a == 0.45) /\
   0.2 <= ProfileHealth._score_reply_ratio a <= 1 /\
   ProfileHealth._score_reply_ratio 0 == 0.2 /\
   ProfileHealth._score_reply_ratio 1 == 0.2) /\
  (0 <= a -> a <= b -> b <= 1 ->
   exists sa sb,
     _score_reply_ratio (Finite a) = Some (Finite sa) /\
     _score_reply_ratio (Finite b) = Some (Finite sb) /\
     (b <= literal 0.45 -> sa <= sb) /\
     (literal 0.45 <= a -> sb <= sa) /\
     literal 0.2 <= sa /\ sa <= 1) /\
  _score_reply_ratio (Finite (literal 0.45)) = Some (Finite 1) /\
  _score_reply_ratio (Finite 0) = Some (Finite (literal 0.2)) /\
  _score_reply_ratio (Finite 1) = Some (Finite (literal 0.2)) /\
  _score_reply_ratio (Finite (literal 0.09))
  = Some (Finite (1801439850948199 # 9007199254740992)).
Proof.
  split; [exact (_score_reply_ratio_shape a b)|].
  split; [exact (_score_reply_ratio_order a b)|].
  repeat split; vm_compute; reflexivity.
Qed.

End Binary64Facts.
